(** * utils/ioscripts.py: parameter-file builders and report parsers

    A shallow embedding of [src/utils/ioscripts.py].  Text is modelled as
    [string] over 8-bit characters (the reports and the generated header are
    ASCII), Python exceptions as an error monad, Python's dynamically typed
    values as a small tagged union, and [re.findall] as a backtracking
    matcher over the abstract syntax of the one pattern the module uses. *)

From Stdlib Require Import String Ascii List ZArith Lia Bool Arith.
From Stdlib Require Import SpecFloat DecimalString.
From Stdlib Require DecimalFacts DecimalPos.
Import ListNotations.
Open Scope string_scope.

(** ** Characters and a few string utilities *)

Definition nl : ascii := "010"%char.

Definition is_digit (a : ascii) : bool :=
  let n := nat_of_ascii a in (48 <=? n)%nat && (n <=? 57)%nat.

Fixpoint mem_char (a : ascii) (s : string) : bool :=
  match s with
  | EmptyString => false
  | String b s' => Ascii.eqb a b || mem_char a s'
  end.

(** ** Regular expressions with Python's backtracking semantics *)

Module Re.

(** Character sets: [\d], a bracket set such as [[-+]], one escaped char. *)
Inductive cset : Type :=
| Digit
| OneOf (chars : string)
| Chr (c : ascii).

Definition in_cset (c : cset) (a : ascii) : bool :=
  match c with
  | Digit => is_digit a
  | OneOf chars => mem_char a chars
  | Chr b => Ascii.eqb a b
  end.

(** The constructs the module's pattern is built from.  Repetition is only
    ever applied to a character set, as in [\d*] and [\d+]. *)
Inductive regex : Type :=
| Set1 (c : cset)
| Lit (s : string)
| Seq (r1 r2 : regex)
| Alt (r1 r2 : regex)
| Opt (r : regex)
| Star (c : cset)
| Plus (c : cset).

(** Greedy repetition: take as many characters as possible, give one back
    each time the continuation fails. *)
Fixpoint star_cset (c : cset) (s : string) (k : string -> option string)
  : option string :=
  match s with
  | String a s' =>
      if in_cset c a then
        match star_cset c s' k with
        | Some r => Some r
        | None => k s
        end
      else k s
  | EmptyString => k s
  end.

Fixpoint lit_prefix (l s : string) : option string :=
  match l with
  | EmptyString => Some s
  | String a l' =>
      match s with
      | String b s' => if Ascii.eqb a b then lit_prefix l' s' else None
      | EmptyString => None
      end
  end.

(** [rmatch r s k]: match [r] at the start of [s], then run the
    continuation [k] on what is left; alternatives are tried in priority
    order (left branch of [|] first, the greedy choice of [?] first). *)
Fixpoint rmatch (r : regex) (s : string) (k : string -> option string)
  : option string :=
  match r with
  | Set1 c =>
      match s with
      | String a s' => if in_cset c a then k s' else None
      | EmptyString => None
      end
  | Lit l =>
      match lit_prefix l s with
      | Some s' => k s'
      | None => None
      end
  | Seq r1 r2 => rmatch r1 s (fun s' => rmatch r2 s' k)
  | Alt r1 r2 =>
      match rmatch r1 s k with
      | Some r => Some r
      | None => rmatch r2 s k
      end
  | Opt r1 =>
      match rmatch r1 s k with
      | Some r => Some r
      | None => k s
      end
  | Star c => star_cset c s k
  | Plus c =>
      match s with
      | String a s' => if in_cset c a then star_cset c s' k else None
      | EmptyString => None
      end
  end.

(** A match anchored at the start of [s]: the unconsumed rest. *)
Definition match_here (r : regex) (s : string) : option string :=
  rmatch r s Some.

(** [re.findall]: scan left to right; at a position where the pattern
    matches, emit the matched text and resume after it, otherwise move one
    character on.  [skip] counts the characters of the last match still to
    be stepped over. *)
Fixpoint findall_from (r : regex) (skip : nat) (s : string) : list string :=
  match skip with
  | S n =>
      match s with
      | String _ s' => findall_from r n s'
      | EmptyString => []
      end
  | O =>
      match match_here r s with
      | Some rest =>
          let n := (String.length s - String.length rest)%nat in
          substring 0 n s ::
            match s with
            | String _ s' => findall_from r (n - 1) s'
            | EmptyString => []
            end
      | None =>
          match s with
          | String _ s' => findall_from r 0 s'
          | EmptyString => []
          end
      end
  end.

Definition findall (r : regex) (s : string) : list string :=
  findall_from r 0 s.

End Re.

Import Re.

(** [p = r'[-+]?\d*\.?\d+(?:[eE][-+]?\d+)?|nan'], the pattern each parser
    defines. *)
Definition p : regex :=
  Alt
    (Seq (Opt (Set1 (OneOf "-+")))
      (Seq (Star Digit)
        (Seq (Opt (Set1 (Chr ".")))
          (Seq (Plus Digit)
            (Opt (Seq (Set1 (OneOf "eE"))
                   (Seq (Opt (Set1 (OneOf "-+"))) (Plus Digit))))))))
    (Lit "nan").

(** ** Python values, exceptions and the error monad *)

(** The exceptions the module's code can raise: a list index out of range
    ([lines[idx]] on a short file, [findall(...)[0]] on a line without a
    token), a malformed argument of [float], and what opening and reading
    a file can raise: no such file, a directory, no permission, bytes that
    do not decode, or another error of the operating system. *)
Inductive exn : Type :=
| IndexError
| ValueError
| FileNotFoundError
| IsADirectoryError
| PermissionError
| UnicodeDecodeError
| OSError.

Inductive result (A : Type) : Type :=
| Ok (a : A)
| Raise (e : exn).
Arguments Ok {A} a.
Arguments Raise {A} e.

Definition bind {A B : Type} (m : result A) (f : A -> result B) : result B :=
  match m with
  | Ok a => f a
  | Raise e => Raise e
  end.

Notation "x <- m ;; k" := (bind m (fun x => k))
  (at level 61, m at next level, right associativity).

(** Python scalars as they occur in arguments and results: [None], [bool],
    [int], [float] (binary64, without NaN payload) and [str]. *)
Inductive pyval : Type :=
| VNone
| VBool (b : bool)
| VInt (z : Z)
| VFloat (f : spec_float)
| VStr (s : string).

Definition is_str (v : pyval) : bool :=
  match v with VStr _ => true | _ => false end.

Definition is_float (v : pyval) : bool :=
  match v with VFloat _ => true | _ => false end.

(** [l[i]] for a non-negative index. *)
Definition index {A : Type} (l : list A) (i : nat) : result A :=
  match nth_error l i with
  | Some a => Ok a
  | None => Raise IndexError
  end.

(** ** [float(str)] *)

Module Float.

Definition prec : Z := 53.
Definition emax : Z := 1024.

(** The binary64 number nearest to [m * 10^e10] (ties to even), with sign
    [s]: one correctly rounded division of two integers. *)
Definition of_decimal (s : bool) (m : Z) (e10 : Z) : spec_float :=
  match (m * 10 ^ Z.max e10 0)%Z, (10 ^ Z.max (- e10) 0)%Z with
  | Zpos n, Zpos d =>
      let '(q, e, l) := SFdiv_core_binary prec emax (Zpos n) 0 (Zpos d) 0 in
      binary_round_aux prec emax s q e l
  | _, _ => S754_zero s
  end.

Fixpoint span_digits (s : string) : string * string :=
  match s with
  | String a s' =>
      if is_digit a then let '(d, r) := span_digits s' in (String a d, r)
      else (EmptyString, s)
  | EmptyString => (EmptyString, EmptyString)
  end.

Definition digit_val (a : ascii) : Z := (Z.of_nat (nat_of_ascii a) - 48)%Z.

Fixpoint digits_val (acc : Z) (s : string) : Z :=
  match s with
  | String a s' => digits_val (10 * acc + digit_val a)%Z s'
  | EmptyString => acc
  end.

Definition lower (a : ascii) : ascii :=
  let n := nat_of_ascii a in
  if (65 <=? n)%nat && (n <=? 90)%nat then ascii_of_nat (n + 32) else a.

Fixpoint lower_str (s : string) : string :=
  match s with
  | String a s' => String (lower a) (lower_str s')
  | EmptyString => EmptyString
  end.

(** An optional leading sign: [true] for [-]. *)
Definition split_sign (s : string) : bool * string :=
  match s with
  | String "-" s' => (true, s')
  | String "+" s' => (false, s')
  | _ => (false, s)
  end.

(** The exponent suffix: nothing, or [e]/[E], an optional sign and at
    least one digit, up to the end of the text. *)
Definition exponent (s : string) : result Z :=
  match s with
  | EmptyString => Ok 0%Z
  | String c s' =>
      if mem_char c "eE" then
        let '(neg, s'') := split_sign s' in
        match span_digits s'' with
        | (String a d, EmptyString) =>
            let v := digits_val 0 (String a d) in
            Ok (if neg then - v else v)%Z
        | _ => Raise ValueError
        end
      else Raise ValueError
  end.

(** [float(s)] on text: a sign, then [nan], [inf] or [infinity] in any
    case, or a decimal literal with digits on at least one side of the
    point.  (Python also strips surrounding white space and accepts [_]
    between digits; no token of [p] contains either.) *)
Definition float (s : string) : result spec_float :=
  let '(neg, body) := split_sign s in
  let low := lower_str body in
  if String.eqb low "nan" then Ok S754_nan
  else if String.eqb low "inf" || String.eqb low "infinity"
  then Ok (S754_infinity neg)
  else
    let '(ip, r1) := span_digits body in
    let '(fp, r2) :=
      match r1 with
      | String "." r => span_digits r
      | _ => (EmptyString, r1)
      end in
    match ip ++ fp with
    | EmptyString => Raise ValueError
    | ds =>
        e <- exponent r2 ;;
        Ok (of_decimal neg (digits_val 0 ds) (e - Z.of_nat (String.length fp))%Z)
    end.

End Float.

Definition b64 (neg : bool) (m : positive) (e : Z) : spec_float :=
  S754_finite neg m e.

(** ** Equality and identity of Python values *)

(** The integer a float is exactly equal to, if any. *)
Definition float_as_int (f : spec_float) : option Z :=
  match f with
  | S754_zero _ => Some 0%Z
  | S754_finite s m e =>
      let n := if s then Zneg m else Zpos m in
      match e with
      | Zneg k =>
          if (Z.rem n (2 ^ Zpos k) =? 0)%Z then Some (Z.quot n (2 ^ Zpos k))
          else None
      | _ => Some (n * 2 ^ e)%Z
      end
  | _ => None
  end.

(** [a == b]: [bool] is a subtype of [int], numbers compare by value across
    [int] and [float], text compares with text, [None] with [None]. *)
Definition py_eq (a b : pyval) : bool :=
  let as_int v :=
    match v with
    | VBool c => Some (if c then 1 else 0)%Z
    | VInt z => Some z
    | _ => None
    end in
  match a, b with
  | VNone, VNone => true
  | VStr s, VStr t => String.eqb s t
  | VFloat f, VFloat g => SFeqb f g
  | VFloat f, _ =>
      match float_as_int f, as_int b with
      | Some x, Some y => (x =? y)%Z
      | _, _ => false
      end
  | _, VFloat g =>
      match as_int a, float_as_int g with
      | Some x, Some y => (x =? y)%Z
      | _, _ => false
      end
  | _, _ =>
      match as_int a, as_int b with
      | Some x, Some y => (x =? y)%Z
      | _, _ => false
      end
  end.

(** [v is True]: [True] is a singleton, so only the Boolean itself. *)
Definition py_is_True (v : pyval) : bool :=
  match v with
  | VBool true => true
  | _ => false
  end.

(** ** Files *)

Definition cr : ascii := "013"%char.

(** A file system tells, for a path, what opening the file for reading as
    text and reading it whole gives: the decoded characters, before any
    translation of line ends, or the exception raised on the way
    ([FileNotFoundError], [IsADirectoryError], [PermissionError],
    [UnicodeDecodeError], ...). *)
Definition filesystem : Type := string -> result string.

(** [open(fname, 'r')] with the read that follows it: nothing happens
    between the two, so the error of either is the error of the pair. *)
Definition open (fs : filesystem) (fname : string) : result string :=
  fs fname.

(** Text mode reads with universal newlines: a carriage return, alone or
    followed by a line feed, reaches the program as one line feed. *)
Fixpoint universal_newlines (s : string) : string :=
  match s with
  | EmptyString => EmptyString
  | String a s' =>
      if Ascii.eqb a cr then
        String nl
          match s' with
          | String b s'' =>
              if Ascii.eqb b nl then universal_newlines s''
              else universal_newlines s'
          | EmptyString => EmptyString
          end
      else String a (universal_newlines s')
  end.

(** The lines of a text, cut after each line feed and each with its line
    feed; a last line without one is kept as it is. *)
Fixpoint keepends (s : string) : list string :=
  match s with
  | EmptyString => []
  | String a s' =>
      if Ascii.eqb a nl then String a EmptyString :: keepends s'
      else
        match keepends s' with
        | l :: ls => String a l :: ls
        | [] => [String a EmptyString]
        end
  end.

(** [f.readlines()] on the characters of the file: line ends translated,
    then the lines. *)
Definition readlines (s : string) : list string :=
  keepends (universal_newlines s).

(** ** The report parsers *)

(** [re.findall(p, lines[idx])[0]] *)
Definition tok (lines : list string) (idx : nat) : result string :=
  line <- index lines idx ;;
  index (findall p line) 0.

(** The body of the [for j in range(...)] loop, shared textually by the
    three parsers: two appends per result group. *)
Fixpoint for_groups (lines : list string) (js : list nat)
    (obs_array obs_std : list string) : result (list string * list string) :=
  match js with
  | [] => Ok (obs_array, obs_std)
  | j :: js' =>
      let idx := (6 + 3 * j - 2)%nat in
      x <- tok lines idx ;;
      let obs_array := (obs_array ++ [x])%list in
      let idx := (idx + 1)%nat in
      y <- tok lines idx ;;
      let obs_std := (obs_std ++ [y])%list in
      for_groups lines js' obs_array obs_std
  end.

(** [range(a, b)] *)
Definition range (a b : nat) : list nat := seq a (b - a).

(** [[float(x) for x in l]] *)
Fixpoint floats (l : list string) : result (list spec_float) :=
  match l with
  | [] => Ok []
  | x :: l' =>
      f <- Float.float x ;;
      fs <- floats l' ;;
      Ok (f :: fs)
  end.

(** What a parser returns: [emergent], the two arrays and [time]. *)
Definition record : Type := list pyval * list pyval * list pyval * pyval.

Definition parse_otxt_temp (fs : filesystem) (temp_fname : string)
  : result record :=
  text <- open fs temp_fname ;;
  let lines := readlines text in
  sign <- tok lines 2 ;;
  sign_std <- tok lines 3 ;;
  mean_q <- tok lines 4 ;;
  max_q <- tok lines 5 ;;
  let emergent := [VStr sign; VStr sign_std; VStr mean_q; VStr max_q] in
  gs <- for_groups lines (range 1 7) [] [] ;;
  let '(otxt_array, otxt_std) := gs in
  otxt_array <- floats otxt_array ;;
  otxt_std <- floats otxt_std ;;
  let idx := (6 + 3 * 6)%nat in
  time <- tok lines idx ;;
  Ok (emergent, map VFloat otxt_array, map VFloat otxt_std, VStr time).

Definition parse_susceptibility_temp (fs : filesystem) (temp_fname : string)
    (fidsus : pyval) : result record :=
  text <- open fs temp_fname ;;
  let lines := readlines text in
  sign <- tok lines 2 ;;
  sign_std <- tok lines 3 ;;
  mean_q <- tok lines 4 ;;
  max_q <- tok lines 5 ;;
  let emergent := [VStr sign; VStr sign_std; VStr mean_q; VStr max_q] in
  let max_idx := if py_eq fidsus (VBool true) then 4%nat else 3%nat in
  gs <- for_groups lines (range 1 max_idx) [] [] ;;
  let '(obs_array, obs_std) := gs in
  let idx := (6 + 3 * (max_idx - 1))%nat in
  time <- tok lines idx ;;
  Ok (emergent, map VStr obs_array, map VStr obs_std, VStr time).

Definition parse_correlator_temp (fs : filesystem) (temp_fname : string)
  : result record :=
  text <- open fs temp_fname ;;
  let lines := readlines text in
  sign <- tok lines 2 ;;
  sign_std <- tok lines 3 ;;
  mean_q <- tok lines 4 ;;
  max_q <- tok lines 5 ;;
  let emergent := [VStr sign; VStr sign_std; VStr mean_q; VStr max_q] in
  gs <- for_groups lines (range 1 3) [] [] ;;
  let '(obs_array, obs_std) := gs in
  let idx := (6 + 3 * 2)%nat in
  time <- tok lines idx ;;
  Ok (emergent, map VStr obs_array, map VStr obs_std, VStr time).

(** The default of [fidsus] in [parse_susceptibility_temp]. *)
Definition fidsus_default : pyval := VBool true.

(** A file system holding one file. *)
Definition one_file (name text : string) : filesystem :=
  fun q => if String.eqb q name then Ok text else Raise FileNotFoundError.

(** Join lines, ending each with a newline. *)
Fixpoint unlines (l : list string) : string :=
  match l with
  | [] => EmptyString
  | x :: l' => x ++ String nl (unlines l')
  end.

(** A 25-line report in the layout of the full-standard parser. *)
Definition report25 : string :=
  unlines
    ["x"; "y"; "sign 0.98"; "sign std 0.01"; "mean q 1.5"; "max q 2.0";
     "Observable #1"; "mean -1.25"; "std 0.5e-1";
     "Observable #2"; "mean 2"; "std 0.25";
     "Observable #3"; "mean 3"; "std 0.125";
     "Observable #4"; "mean 4"; "std nan";
     "Observable #5"; "mean 5"; "std 1";
     "Observable #6"; "mean 6"; "std 2";
     "Wall-clock time = 12.5 seconds"].

(** ** Text of numbers: [str(int)] and [repr(float)] *)

Module Repr.

(** [str(z)] for an [int]: decimal digits, [-] for a negative number. *)
Definition int (z : Z) : string :=
  DecimalString.NilZero.string_of_int (Z.to_int z).

Definition ndigits (c : Z) : Z := Z.of_nat (String.length (int c)).

(** [x = num/den], the exact value of a finite binary64 [m * 2^e]. *)
Definition num (m : positive) (e : Z) : Z := (Zpos m * 2 ^ Z.max e 0)%Z.
Definition den (e : Z) : Z := (2 ^ Z.max (- e) 0)%Z.

(** The decimal point position [k] of [x > 0]: [10^(k-1) <= x < 10^k]. *)
Definition decpt (m : positive) (e : Z) : Z :=
  let n := num m e in
  let d := den e in
  if (d <=? n)%Z then ndigits (n / d) else (1 - ndigits (d / n))%Z.

(** The integers next to [x / 10^t], the nearer one first (the even one
    on a tie); only the integer itself when the quotient is exact. *)
Definition candidates (m : positive) (e t : Z) : list Z :=
  let n := (num m e * 10 ^ Z.max (- t) 0)%Z in
  let d := (den e * 10 ^ Z.max t 0)%Z in
  let lo := (n / d)%Z in
  let r := (n mod d)%Z in
  if (r =? 0)%Z then [lo]
  else
    match (2 * r ?= d)%Z with
    | Lt => [lo; lo + 1]
    | Gt => [lo + 1; lo]
    | Eq => if Z.even lo then [lo; lo + 1] else [lo + 1; lo]
    end%Z.

Definition reads_back (m : positive) (e t c : Z) : bool :=
  match Float.of_decimal false c t with
  | S754_finite false m' e' => Pos.eqb m m' && Z.eqb e e'
  | _ => false
  end.

(** The shortest decimal [c * 10^t] that [float] reads back as [m * 2^e]:
    try 1, 2, ... significant digits; with 17 digits the nearest decimal
    is taken. *)
Fixpoint search (m : positive) (e k : Z) (tries : nat) (n : Z) : Z * Z :=
  let t := (k - n)%Z in
  let cs := candidates m e t in
  match tries with
  | O => (hd 0%Z cs, t)
  | S tries' =>
      match find (reads_back m e t) cs with
      | Some c => (c, t)
      | None => search m e k tries' (n + 1)%Z
      end
  end.

Fixpoint strip_zeros (rev_digits : string) : string :=
  match rev_digits with
  | String "0" s => strip_zeros s
  | _ => rev_digits
  end.

Fixpoint rev_str (s acc : string) : string :=
  match s with
  | EmptyString => acc
  | String a s' => rev_str s' (String a acc)
  end.

Fixpoint zeros (n : nat) : string :=
  match n with
  | O => EmptyString
  | S n' => String "0" (zeros n')
  end.

(** Digits without trailing zeros and the position of the decimal point:
    [x = 0.d1 d2 ... dn * 10^point]. *)
Definition shortest (m : positive) (e : Z) : string * Z :=
  let '(c, t) := search m e (decpt m e) 16 1 in
  let ds := int c in
  (rev_str (strip_zeros (rev_str ds EmptyString)) EmptyString,
   (t + Z.of_nat (String.length ds))%Z).

(** The exponent of the [e] notation: a sign and at least two digits. *)
Definition exp_text (x : Z) : string :=
  let a := int (Z.abs x) in
  (if (x <? 0)%Z then "-" else "+") ++
  (if (String.length a <? 2)%nat then "0" ++ a else a).

(** Lay the digits out the way [repr] does: exponent notation when the
    decimal point would fall more than 16 places right of, or 4 or more
    places left of, the first digit; positional otherwise, always with a
    point. *)
Definition layout (ds : string) (point : Z) : string :=
  if (point <=? -4)%Z || (16 <? point)%Z then
    match ds with
    | String d EmptyString => String d (String "e" (exp_text (point - 1)))
    | String d rest => String d (String "." (rest ++ String "e" (exp_text (point - 1))))
    | EmptyString => EmptyString
    end
  else if (point <=? 0)%Z then
    "0." ++ zeros (Z.to_nat (- point)) ++ ds
  else
    let n := String.length ds in
    let pt := Z.to_nat point in
    if (n <=? pt)%nat then ds ++ zeros (pt - n) ++ ".0"
    else substring 0 pt ds ++ String "." (substring pt (n - pt) ds).

(** [repr(f)] for a [float]. *)
Definition float (f : spec_float) : string :=
  match f with
  | S754_nan => "nan"
  | S754_infinity s => if s then "-inf" else "inf"
  | S754_zero s => if s then "-0.0" else "0.0"
  | S754_finite s m e =>
      let '(ds, point) := shortest m e in
      (if s then "-" else "") ++ layout ds point
  end.

End Repr.

(** [f"{v}"], that is [format(v, '')], which is [str(v)] for these
    types. *)
Definition fmt (v : pyval) : string :=
  match v with
  | VNone => "None"
  | VBool b => if b then "True" else "False"
  | VInt z => Repr.int z
  | VFloat f => Repr.float f
  | VStr s => s
  end.

(** ** The parameter-file builders *)

Definition dq : ascii := "034"%char.

(** A keyword argument with a default: [None] when the caller omits it. *)
Definition dflt (d : pyval) (o : option pyval) : pyval :=
  match o with
  | Some v => v
  | None => d
  end.

(** The fixed notice that opens [parameters.hpp]. *)
Definition header_notice : string :=
  "
//
// This program implements Permutation Matrix Representation Quantum Monte Carlo for arbitrary spin-1/2 Hamiltonians.
//
// This program is introduced in the paper:
// Lev Barash, Arman Babakhani, Itay Hen, A quantum Monte Carlo algorithm for arbitrary spin-1/2 Hamiltonians, Physical Review Research 6, 013281 (2024).
//
// Various advanced measurement capabilities were added as part of the
// work introduced in the papers:
// * Nic Ezzell, Lev Barash, Itay Hen, Exact and universal quantum Monte Carlo estimators for energy susceptibility and fidelity susceptibility, arXiv:2408.03924 (2024).
// * Nic Ezzell and Itay Hen, Advanced measurement techniques in quantum Monte Carlo: The permutation matrix representation approach, arXiv:2504.07295 (2025).
//
// This program is licensed under a Creative Commons Attribution 4.0 International License:
// http://creativecommons.org/licenses/by/4.0/
//
// ExExFloat datatype and calculation of divided differences are described in the paper:
// L. Gupta, L. Barash, I. Hen, Calculating the divided differences of the exponential function by addition and removal of inputs, Computer Physics Communications 254, 107385 (2020)
//

//
// Below are the parameter values:
//
    ".

Definition make_param_file_header (beta tau : pyval)
    (Tsteps steps stepsPerMeasurement parity : option pyval) : string :=
  let Tsteps := dflt (VInt 10000000) Tsteps in
  let steps := dflt (VInt 1000000) steps in
  let stepsPerMeasurement := dflt (VInt 10) stepsPerMeasurement in
  let parity := dflt (VInt 0) parity in
  let param_str := header_notice in
  let param_str := param_str ++
    ("
#define Tsteps " ++
     fmt Tsteps ++
     " // number of Monte-Carlo initial equilibration updates
#define steps " ++
     fmt steps ++
     " // number of Monte-Carlo updates
#define stepsPerMeasurement " ++
     fmt stepsPerMeasurement ++
     " // number of Monte-Carlo updates per measurement
#define beta " ++
     fmt beta ++
     " // inverse temperature
#define tau " ++
     fmt tau ++
     " //imaginary propogation time
#define parity_cond " ++
     fmt parity ++
     " // controls parity subspace measurement 
") in
  param_str.

(** The implementation parameters that open the footer. *)
Definition footer_constants : string :=
  "
//
// Below are the implementation parameters:
//

#define qmax     1000                // upper bound for the maximal length of the sequence of permutation operators
#define Nbins    250                 // number of bins for the error estimation via binning analysis
#define EXHAUSTIVE_CYCLE_SEARCH      // comment this line for a more restrictive cycle search
#define GAPS_GEOMETRIC_PARAMETER 0.8 // parameter of geometric distribution for the length of gaps in the cycle completion update
#define COMPOSITE_UPDATE_BREAK_PROBABILITY  0.9   // exit composite update at each step with this probability

// #define ABS_WEIGHTS                  // uncomment this line to employ absolute values of weights rather than real parts of weights
// #define EXACTLY_REPRODUCIBLE         // uncomment this to always employ the same RNG seeds and reproduce exactly the same results

//
// Uncomment or comment the macros below to enable or disable the ability to checkpoint and restart
//
".

Definition footer_save : string :=
  "
#define SAVE_COMPLETED_CALCULATION   // save detailed data to " ++ String dq ("qmc_data_*.dat" ++ String dq (" when calculaiton is completed
#define SAVE_UNFINISHED_CALCULATION  // save calculation state to the files " ++ String dq ("qmc_data_*.dat" ++ String dq (" prior to exiting when SIGTERM signal is detected
#define HURRY_ON_SIGTERM             // uncomment this line to break composite update on SIGTERM signal to speed up the process
    ")))).

Definition footer_restart : string :=
  "
#define RESUME_CALCULATION           // attempt to read data from " ++ String dq ("qmc_data_*.dat" ++ String dq (" to resume the previous calculation
        ")).

Definition make_param_file_footer (save restart : option pyval) : string :=
  let save := dflt (VBool true) save in
  let restart := dflt (VBool false) restart in
  let param_str := footer_constants in
  let param_str :=
    if py_eq save (VBool true) then param_str ++ footer_save else param_str in
  let param_str :=
    if py_eq restart (VBool true) then param_str ++ footer_restart
    else param_str in
  param_str.

Definition make_no_stand_param_fstr (beta tau : pyval)
    (Tsteps steps stepsPerMeasurement parity save restart : option pyval)
  : string :=
  let Tsteps := dflt (VInt 100000) Tsteps in
  let steps := dflt (VInt 1000000) steps in
  let stepsPerMeasurement := dflt (VInt 10) stepsPerMeasurement in
  let parity := dflt (VInt 0) parity in
  let save := dflt (VBool true) save in
  let restart := dflt (VBool false) restart in
  let param_str :=
    make_param_file_header beta tau (Some Tsteps) (Some steps)
      (Some stepsPerMeasurement) (Some parity) in
  let param_str :=
    param_str ++ make_param_file_footer (Some save) (Some restart) in
  param_str.

Definition hdiag_observables : string :=
  "
//
// Below is the list of standard observables:
//

#define MEASURE_HDIAG                // <H_{diag}>      is measured when this line is not commented
#define MEASURE_HDIAG_EINT

".

Definition make_hdiag_susceptibility_param_fstr (beta : pyval)
    (fidsus Tsteps steps stepsPerMeasurement parity save restart
       : option pyval) : string :=
  let fidsus := dflt (VBool true) fidsus in
  let Tsteps := dflt (VInt 100000) Tsteps in
  let steps := dflt (VInt 1000000) steps in
  let stepsPerMeasurement := dflt (VInt 10) stepsPerMeasurement in
  let parity := dflt (VInt 0) parity in
  let save := dflt (VBool true) save in
  let restart := dflt (VBool false) restart in
  let param_str :=
    make_param_file_header beta (VFloat (S754_zero false)) (Some Tsteps)
      (Some steps) (Some stepsPerMeasurement) (Some parity) in
  let param_str := param_str ++ hdiag_observables in
  let param_str :=
    if py_is_True fidsus then param_str ++ "#define MEASURE_HDIAG_FINT
"
    else param_str in
  let param_str :=
    param_str ++ make_param_file_footer (Some save) (Some restart) in
  param_str.

Definition hoffdiag_observables : string :=
  "
//
// Below is the list of standard observables:
//

#define MEASURE_HOFFDIAG                // <H_{diag}>      is measured when this line is not commented
#define MEASURE_HOFFDIAG_EINT

".

Definition make_hoffdiag_susceptibility_param_fstr (beta : pyval)
    (fidsus Tsteps steps stepsPerMeasurement parity save restart
       : option pyval) : string :=
  let fidsus := dflt (VBool true) fidsus in
  let Tsteps := dflt (VInt 100000) Tsteps in
  let steps := dflt (VInt 1000000) steps in
  let stepsPerMeasurement := dflt (VInt 10) stepsPerMeasurement in
  let parity := dflt (VInt 0) parity in
  let save := dflt (VBool true) save in
  let restart := dflt (VBool false) restart in
  let param_str :=
    make_param_file_header beta (VFloat (S754_zero false)) (Some Tsteps)
      (Some steps) (Some stepsPerMeasurement) (Some parity) in
  let param_str := param_str ++ hoffdiag_observables in
  let param_str :=
    if py_is_True fidsus then param_str ++ "#define MEASURE_HOFFDIAG_FINT
"
    else param_str in
  let param_str :=
    param_str ++ make_param_file_footer (Some save) (Some restart) in
  param_str.

Definition all_observables : string :=
  "
//
// Below is the list of standard observables:
//

#define MEASURE_H                    // <H>             is measured when this line is not commented
#define MEASURE_H2                   // <H^2>           is measured when this line is not commented
#define MEASURE_HDIAG                // <H_{diag}>      is measured when this line is not commented
#define MEASURE_HDIAG2               // <H_{diag}^2>    is measured when this line is not commented
#define MEASURE_HOFFDIAG             // <H_{offdiag}>   is measured when this line is not commented
#define MEASURE_HOFFDIAG2            // <H_{offdiag}^2> is measured when this line is not commented
#define MEASURE_Z_MAGNETIZATION      // Z-magnetization is measured when this line is not commented
#define MEASURE_HDIAG_CORR
#define MEASURE_HDIAG_EINT
#define MEASURE_HDIAG_FINT
#define MEASURE_HOFFDIAG_CORR
#define MEASURE_HOFFDIAG_EINT
#define MEASURE_HOFFDIAG_FINT
".

Definition make_all_stand_param_fstr (beta tau : pyval)
    (Tsteps steps stepsPerMeasurement parity save restart : option pyval)
  : string :=
  let Tsteps := dflt (VInt 10000000) Tsteps in
  let steps := dflt (VInt 1000000) steps in
  let stepsPerMeasurement := dflt (VInt 10) stepsPerMeasurement in
  let parity := dflt (VInt 0) parity in
  let save := dflt (VBool true) save in
  let restart := dflt (VBool false) restart in
  let param_str :=
    make_param_file_header beta tau (Some Tsteps) (Some steps)
      (Some stepsPerMeasurement) (Some parity) in
  let param_str := param_str ++ all_observables in
  let param_str :=
    param_str ++ make_param_file_footer (Some save) (Some restart) in
  param_str.

(** * Auxiliary definitions used to state and prove the properties *)

(** ** The token grammar as a deterministic scanner *)

Fixpoint all_digits (s : string) : bool :=
  match s with
  | EmptyString => true
  | String a s' => is_digit a && all_digits s'
  end.

Definition starts_digit (s : string) : bool :=
  match s with
  | String a _ => is_digit a
  | EmptyString => false
  end.

Definition nonempty (s : string) : bool :=
  match s with
  | EmptyString => false
  | String _ _ => true
  end.

Module Scan.

(** After the mantissa: an exponent is taken only when it is complete. *)
Definition exp (r : string) : string :=
  match r with
  | String c r1 =>
      if mem_char c "eE" then
        let r2 :=
          match r1 with
          | String g r' => if mem_char g "-+" then r' else r1
          | EmptyString => r1
          end in
        let '(es, r3) := Float.span_digits r2 in
        if nonempty es then r3 else r
      else r
  | EmptyString => r
  end.

(** Digits, then a point followed by digits if there is one; at least one
    digit overall, and a point is taken only with digits after it. *)
Definition mantissa (s : string) : option string :=
  let '(ds, r) := Float.span_digits s in
  let whole := if nonempty ds then Some r else None in
  match r with
  | String c r' =>
      if Ascii.eqb c "." then
        let '(fs, r'') := Float.span_digits r' in
        if nonempty fs then Some r'' else whole
      else whole
  | EmptyString => whole
  end.

Definition unsigned (s : string) : option string :=
  option_map exp (mantissa s).

Definition number (s : string) : option string :=
  match s with
  | String a s1 => if mem_char a "-+" then unsigned s1 else unsigned s
  | EmptyString => None
  end.

(** What is left of [s] after the token at its start, if there is one. *)
Definition token (s : string) : option string :=
  match number s with
  | Some r => Some r
  | None => lit_prefix "nan" s
  end.

End Scan.

(** ** The shape of a token *)

Definition is_sign (s : string) : Prop := s = "" \/ s = "-" \/ s = "+".

Definition is_frac (s : string) : Prop :=
  s = "" \/
  exists fs, s = String "." fs /\ all_digits fs = true /\ nonempty fs = true.

Definition is_exp (s : string) : Prop :=
  s = "" \/
  exists c sg es,
    s = String c (sg ++ es) /\ mem_char c "eE" = true /\ is_sign sg /\
    all_digits es = true /\ nonempty es = true.

(** Optional sign, digits, optional fraction, optional exponent, with a
    digit somewhere in the mantissa. *)
Definition decimal_text (w : string) : Prop :=
  exists sg ds fr ex,
    w = sg ++ ds ++ fr ++ ex /\ is_sign sg /\ all_digits ds = true /\
    is_frac fr /\ is_exp ex /\ nonempty (ds ++ fr) = true.

Definition token_text (w : string) : Prop := w = "nan" \/ decimal_text w.

(** The next character, if any, cannot continue a number. *)
Definition stops (rest : string) : bool :=
  match rest with
  | String a _ => negb (is_digit a || mem_char a ".eE")
  | EmptyString => true
  end.

(** ** Line offsets the parsers depend on *)

(** The two lines read for each result group of the loop. *)
Definition group_lines (js : list nat) : list nat :=
  flat_map (fun j => [6 + 3 * j - 2; 6 + 3 * j - 2 + 1]%nat) js.

(** All the offsets a parser reads when it runs over [G] result groups:
    the emergent block, the groups, the duration. *)
Definition required_lines (G : nat) : list nat :=
  ([2; 3; 4; 5] ++ group_lines (range 1 (G + 1)) ++ [6 + 3 * G])%list%nat.

(** The number of result groups [parse_susceptibility_temp] reads. *)
Definition susceptibility_groups (fidsus : pyval) : nat :=
  if py_eq fidsus (VBool true) then 3%nat else 2%nat.

(** Line [i] is missing, or holds no token. *)
Definition unreadable (lines : list string) (i : nat) : Prop :=
  nth_error lines i = None \/
  exists l, nth_error lines i = Some l /\ findall p l = [].

Definition emergent_of (r : record) : list pyval :=
  let '(e, _, _, _) := r in e.
Definition array_of (r : record) : list pyval :=
  let '(_, a, _, _) := r in a.
Definition std_of (r : record) : list pyval :=
  let '(_, _, s, _) := r in s.
Definition time_of (r : record) : pyval :=
  let '(_, _, _, t) := r in t.

(** ** The three parsers as one scheme *)

(** What becomes of the tokens of the result groups: [float] values in
    [parse_otxt_temp], the text itself in the other two parsers. *)
Definition convert (coerce : bool) (l : list string) : result (list pyval) :=
  if coerce then fs <- floats l ;; Ok (map VFloat fs) else Ok (map VStr l).

(** The common shape of the parsers, over the lines of the file: [G]
    result groups, coerced or not. *)
Definition parse_lines (G : nat) (coerce : bool) (lines : list string)
  : result record :=
  sign <- tok lines 2 ;;
  sign_std <- tok lines 3 ;;
  mean_q <- tok lines 4 ;;
  max_q <- tok lines 5 ;;
  gs <- for_groups lines (range 1 (G + 1)) [] [] ;;
  obs_array <- convert coerce (fst gs) ;;
  obs_std <- convert coerce (snd gs) ;;
  time <- tok lines (6 + 3 * G) ;;
  Ok ([VStr sign; VStr sign_std; VStr mean_q; VStr max_q],
      obs_array, obs_std, VStr time).

(** ** Sample reports *)

(** A 13-line report in the layout of the correlator parser, and of the
    susceptibility parser without the fidelity-susceptibility integral. *)
Definition report13 : string :=
  unlines
    ["x"; "y"; "sign 0.98"; "sign std 0.01"; "mean q 1.5"; "max q 2.0";
     "Observable #1"; "mean -1.25"; "std 0.5e-1";
     "Observable #2"; "mean 2"; "std 0.25";
     "Wall-clock time = 7.75 seconds"].

(** A 16-line report: three result groups. *)
Definition report16 : string :=
  unlines
    ["x"; "y"; "sign 0.98"; "sign std 0.01"; "mean q 1.5"; "max q 2.0";
     "Observable #1"; "mean -1.25"; "std 0.5e-1";
     "Observable #2"; "mean 2"; "std 0.25";
     "Observable #3"; "mean 3"; "std 0.125";
     "Wall-clock time = 9 seconds"].

(** [report25] cut off after its 24th line: the duration line is gone. *)
Definition report24 : string :=
  unlines
    ["x"; "y"; "sign 0.98"; "sign std 0.01"; "mean q 1.5"; "max q 2.0";
     "Observable #1"; "mean -1.25"; "std 0.5e-1";
     "Observable #2"; "mean 2"; "std 0.25";
     "Observable #3"; "mean 3"; "std 0.125";
     "Observable #4"; "mean 4"; "std nan";
     "Observable #5"; "mean 5"; "std 1";
     "Observable #6"; "mean 6"; "std 2"].

(** ** The parts of the pattern *)

Definition exp_re : regex :=
  Opt (Seq (Set1 (OneOf "eE")) (Seq (Opt (Set1 (OneOf "-+"))) (Plus Digit))).

(** The part of the pattern after the leading digits. *)
Definition after_digits (s : string) : option string :=
  rmatch (Opt (Set1 (Chr "."))) s
    (fun s3 => rmatch (Plus Digit) s3 (fun s4 => rmatch exp_re s4 Some)).

Definition unsigned_re : regex :=
  Seq (Star Digit)
    (Seq (Opt (Set1 (Chr ".")))
       (Seq (Plus Digit) exp_re)).


(** ** Lines of a generated text, and the instruments it declares *)

(** No line end in the text: neither a line feed nor a carriage return. *)
Fixpoint no_nl (s : string) : bool :=
  match s with
  | EmptyString => true
  | String a s' => negb (Ascii.eqb a nl) && negb (Ascii.eqb a cr) && no_nl s'
  end.

(** No carriage return in the text. *)
Fixpoint no_cr (s : string) : bool :=
  match s with
  | EmptyString => true
  | String a s' => negb (Ascii.eqb a cr) && no_cr s'
  end.

(** The pieces of a text between its newlines. *)
Fixpoint split_lines (s : string) : list string :=
  match s with
  | EmptyString => [EmptyString]
  | String a s' =>
      if Ascii.eqb a nl then EmptyString :: split_lines s'
      else
        match split_lines s' with
        | l :: ls => String a l :: ls
        | [] => [String a EmptyString]
        end
  end.

Definition with_nl (l : string) : string := l ++ String nl EmptyString.

(** The text with another line end in place of each line feed. *)
Fixpoint line_ends_as (e s : string) : string :=
  match s with
  | EmptyString => EmptyString
  | String a s' =>
      if Ascii.eqb a nl then e ++ line_ends_as e s'
      else String a (line_ends_as e s')
  end.

(** The word of a line up to the first blank or newline. *)
Fixpoint word (s : string) : string :=
  match s with
  | EmptyString => EmptyString
  | String a s' =>
      if Ascii.eqb a " " || Ascii.eqb a nl then EmptyString
      else String a (word s')
  end.

(** [s] without its first [n] characters. *)
Fixpoint drop (n : nat) (s : string) : string :=
  match n, s with
  | S n', String _ s' => drop n' s'
  | _, _ => s
  end.

(** The macro a [#define] line defines: the word after [#define ]. *)
Definition macro_name (line : string) : string := word (drop 8 line).

(** The macros defined by the lines that start with [start]. *)
Definition macros_of (start : string) (lines : list string) : list string :=
  map macro_name (filter (String.prefix start) lines).

(** The measurement instruments a parameter file declares: the macros of
    its lines that start with [#define MEASURE_], in order. *)
Definition instruments (text : string) : list string :=
  macros_of "#define MEASURE_" (readlines text).

(** The macros a parameter file defines: the names on its lines that
    start with [#define ], in order. *)
Definition defines (text : string) : list string :=
  macros_of "#define " (readlines text).

(** ** Numeric arguments *)

Definition is_number (v : pyval) : bool :=
  match v with
  | VInt _ | VFloat _ => true
  | _ => false
  end.

(** A number other than [nan] and the infinities. *)
Definition is_finite (v : pyval) : bool :=
  match v with
  | VInt _ => true
  | VFloat (S754_zero _) | VFloat (S754_finite _ _ _) => true
  | _ => false
  end.

(** ** The six parameter lines of the header *)

(** The lines the f-string of [make_param_file_header] is made of, without
    their newlines; [v] is the text interpolated for the field. *)
Definition line_Tsteps (v : string) : string :=
  "#define Tsteps " ++ v ++ " // number of Monte-Carlo initial equilibration updates".

Definition line_steps (v : string) : string :=
  "#define steps " ++ v ++ " // number of Monte-Carlo updates".

Definition line_stepsPerMeasurement (v : string) : string :=
  "#define stepsPerMeasurement " ++ v ++ " // number of Monte-Carlo updates per measurement".

Definition line_beta (v : string) : string :=
  "#define beta " ++ v ++ " // inverse temperature".

Definition line_tau (v : string) : string :=
  "#define tau " ++ v ++ " //imaginary propogation time".

Definition line_parity (v : string) : string :=
  "#define parity_cond " ++ v ++ " // controls parity subspace measurement ".

Definition param_lines (Tsteps steps stepsPerMeasurement beta tau parity : pyval)
  : list string :=
  [line_Tsteps (fmt Tsteps); line_steps (fmt steps);
   line_stepsPerMeasurement (fmt stepsPerMeasurement);
   line_beta (fmt beta); line_tau (fmt tau); line_parity (fmt parity)].

(** The lines of the notice that opens the header. *)
Definition notice_lines : list string := split_lines header_notice.

(** ** Tokens at given lines *)

(** The first token of each of the lines [idxs], in order; fails as soon
    as one of them cannot be read. *)
Fixpoint tokens_at (lines : list string) (idxs : list nat)
  : result (list string) :=
  match idxs with
  | [] => Ok []
  | i :: idxs' =>
      w <- tok lines i ;;
      ws <- tokens_at lines idxs' ;;
      Ok (w :: ws)
  end.

(** The lines of the estimates and of the standard errors of the groups
    [1..G]: 7, 10, 13, ... and 8, 11, 14, ... *)
Definition estimate_lines (G : nat) : list nat :=
  map (fun j => 4 + 3 * j)%nat (range 1 (G + 1)).
Definition error_lines (G : nat) : list nat :=
  map (fun j => 5 + 3 * j)%nat (range 1 (G + 1)).

(** [report13] with other header and label lines, and trailing lines. *)
Definition report13_variant : string :=
  unlines
    ["QMC 1.0 run 7"; "seed 42"; "sign 0.98"; "sign std 0.01"; "mean q 1.5";
     "max q 2.0"; ""; "mean -1.25"; "std 0.5e-1";
     "second observable 77"; "mean 2"; "std 0.25";
     "Wall-clock time = 7.75 seconds"; "trailing 1"; "trailing 2"].


(** ** A line as tokens and the text between them *)

(** [t1 g1 t2 g2 ...]: each token followed by the gap after it. *)
Fixpoint weave (ts gs : list string) : string :=
  match ts, gs with
  | t :: ts', g :: gs' => t ++ g ++ weave ts' gs'
  | _, _ => EmptyString
  end.

Fixpoint has_digit (s : string) : bool :=
  match s with
  | EmptyString => false
  | String a s' => is_digit a || has_digit s'
  end.

(** ** The characters of the text of a number *)

Definition numeric_char (a : ascii) : bool :=
  is_digit a || mem_char a "+-.einfa".

Fixpoint numeric_chars (s : string) : bool :=
  match s with
  | EmptyString => true
  | String a s' => numeric_char a && numeric_chars s'
  end.

(** An optional numeric argument: a number, or left to its default. *)
Definition numeric (o : option pyval) : bool :=
  match o with
  | Some v => is_number v
  | None => true
  end.

(** The text ends with a newline. *)
Fixpoint ends_nl (s : string) : bool :=
  match s with
  | EmptyString => false
  | String a EmptyString => Ascii.eqb a nl
  | String _ s' => ends_nl s'
  end.

(** The macros of the header, of the footer, and of its two optional
    blocks. *)
Definition header_macros : list string :=
  ["Tsteps"; "steps"; "stepsPerMeasurement"; "beta"; "tau"; "parity_cond"].
Definition footer_macros : list string :=
  ["qmax"; "Nbins"; "EXHAUSTIVE_CYCLE_SEARCH"; "GAPS_GEOMETRIC_PARAMETER";
   "COMPOSITE_UPDATE_BREAK_PROBABILITY"].
Definition save_macros : list string :=
  ["SAVE_COMPLETED_CALCULATION"; "SAVE_UNFINISHED_CALCULATION";
   "HURRY_ON_SIGTERM"].
Definition restart_macros : list string := ["RESUME_CALCULATION"].

(** The thirteen instruments of the all-standard-observables file. *)
Definition all_instruments : list string :=
  ["MEASURE_H"; "MEASURE_H2"; "MEASURE_HDIAG"; "MEASURE_HDIAG2";
   "MEASURE_HOFFDIAG"; "MEASURE_HOFFDIAG2"; "MEASURE_Z_MAGNETIZATION";
   "MEASURE_HDIAG_CORR"; "MEASURE_HDIAG_EINT"; "MEASURE_HDIAG_FINT";
   "MEASURE_HOFFDIAG_CORR"; "MEASURE_HOFFDIAG_EINT"; "MEASURE_HOFFDIAG_FINT"].

(** ** The value of a decimal numeral *)

(** The number a numeral denotes, read from the left after [acc]. *)
Fixpoint uval (acc : Z) (d : Decimal.uint) : Z :=
  match d with
  | Decimal.Nil => acc
  | Decimal.D0 l => uval (10 * acc) l
  | Decimal.D1 l => uval (10 * acc + 1) l
  | Decimal.D2 l => uval (10 * acc + 2) l
  | Decimal.D3 l => uval (10 * acc + 3) l
  | Decimal.D4 l => uval (10 * acc + 4) l
  | Decimal.D5 l => uval (10 * acc + 5) l
  | Decimal.D6 l => uval (10 * acc + 6) l
  | Decimal.D7 l => uval (10 * acc + 7) l
  | Decimal.D8 l => uval (10 * acc + 8) l
  | Decimal.D9 l => uval (10 * acc + 9) l
  end%Z.

Fixpoint all_zero (s : string) : bool :=
  match s with
  | EmptyString => true
  | String a s' => Ascii.eqb a "0" && all_zero s'
  end.

(** [x >= 10^t] for the exact value [x = num/den] of [m * 2^e]. *)
Definition at_least_pow10 (m : positive) (e t : Z) : Prop :=
  (Repr.den e * 10 ^ Z.max t 0 <= Repr.num m e * 10 ^ Z.max (- t) 0)%Z.

(** ** Text in which no token can start *)

(** No digit, sign or point, and no [n] unless a character other than
    [a] follows it within the text. *)
Fixpoint quiet (s : string) : bool :=
  match s with
  | EmptyString => true
  | String a s' =>
      (if Ascii.eqb a "n" then
         match s' with
         | String b _ => negb (Ascii.eqb b "a")
         | EmptyString => false
         end
       else negb (is_digit a || mem_char a "+-."))
      && quiet s'
  end.

(** An optional numeric argument: a finite number, or left to its
    default. *)
Definition finite (o : option pyval) : bool :=
  match o with
  | Some v => is_finite v
  | None => true
  end.
(** * Sanity checks of the embedding on concrete inputs *)

Example findall_ex1 : findall p "-3.2e-5 nan 42" = ["-3.2e-5"; "nan"; "42"].
Proof. reflexivity. Qed.

Example findall_ex2 : findall p "x 5. .5e q1e+ NaN -nan+7" = ["5"; ".5"; "1"; "nan"; "+7"].
Proof. reflexivity. Qed.

Example float_ex1 : Float.float "0.1" = Ok (b64 false 7205759403792794 (-56)).
Proof. vm_compute. reflexivity. Qed.

Example parse_otxt_ex :
  parse_otxt_temp (one_file "o.txt" report25) "o.txt" =
  Ok ([VStr "0.98"; VStr "0.01"; VStr "1.5"; VStr "2.0"],
      map VFloat [b64 true 5629499534213120 (-52); b64 false 4503599627370496 (-51);
                  b64 false 6755399441055744 (-51); b64 false 4503599627370496 (-50);
                  b64 false 5629499534213120 (-50); b64 false 6755399441055744 (-50)],
      map VFloat [b64 false 7205759403792794 (-57); b64 false 4503599627370496 (-54);
                  b64 false 4503599627370496 (-55); S754_nan;
                  b64 false 4503599627370496 (-52); b64 false 4503599627370496 (-51)],
      VStr "12.5").
Proof. vm_compute. reflexivity. Qed.

Example fmt_ex1 : fmt (VFloat (b64 false 7205759403792794 (-56))) = "0.1".
Proof. vm_compute. reflexivity. Qed.

Example fmt_ex2 : fmt (VInt (-10000000)) = "-10000000".
Proof. vm_compute. reflexivity. Qed.

Example readlines_ex1 :
  readlines ("a" ++ String cr ("b" ++ String cr (String nl ("c" ++ String nl "d")))) =
  [with_nl "a"; with_nl "b"; with_nl "c"; "d"].
Proof. reflexivity. Qed.

Example readlines_ex2 :
  readlines (String cr (String cr (String nl (String nl "")))) =
  [with_nl ""; with_nl ""; with_nl ""].
Proof. reflexivity. Qed.

(** A report parses alike whatever its line ends. *)
Example parse_cr_ex :
  parse_correlator_temp
    (one_file "o.txt" (line_ends_as (String cr "") report13)) "o.txt" =
  parse_correlator_temp (one_file "o.txt" report13) "o.txt".
Proof. vm_compute. reflexivity. Qed.

Example parse_crlf_ex :
  parse_otxt_temp
    (one_file "o.txt" (line_ends_as (String cr (String nl "")) report25)) "o.txt" =
  parse_otxt_temp (one_file "o.txt" report25) "o.txt".
Proof. vm_compute. reflexivity. Qed.

(** A carriage return inside the first header line makes two lines of
    it: every later line is one further down, and line 2 is now the
    second header line, which holds no token. *)
Example parse_cr_header_ex :
  parse_correlator_temp
    (one_file "o.txt" (String "z" (String cr report13))) "o.txt" =
  Raise IndexError.
Proof. vm_compute. reflexivity. Qed.

(** What opening the file raises is what the parser raises. *)
Example parse_directory_ex :
  parse_susceptibility_temp (fun _ => Raise IsADirectoryError) "results"
    fidsus_default = Raise IsADirectoryError.
Proof. reflexivity. Qed.

(** * Properties *)

(** ** Strings *)

Lemma append_assoc (a b c : string) : (a ++ b) ++ c = a ++ (b ++ c).
Proof. induction a as [|x a IH]; simpl; [reflexivity | now rewrite IH]. Qed.

Lemma append_nil_r (a : string) : a ++ "" = a.
Proof. induction a as [|x a IH]; simpl; [reflexivity | now rewrite IH]. Qed.

Lemma length_append (a b : string) :
  String.length (a ++ b) = (String.length a + String.length b)%nat.
Proof. induction a as [|x a IH]; simpl; [reflexivity | now rewrite IH]. Qed.

Lemma substring_prefix (a b : string) :
  substring 0 (String.length a) (a ++ b) = a.
Proof.
  induction a as [|x a IH]; simpl.
  - destruct b; reflexivity.
  - now rewrite IH.
Qed.

(** ** Digit spans *)

Lemma span_digits_spec (s : string) :
  let '(ds, r) := Float.span_digits s in
  s = ds ++ r /\ all_digits ds = true /\ starts_digit r = false.
Proof.
  induction s as [|a s IH]; simpl.
  - auto.
  - destruct (is_digit a) eqn:Ha.
    + destruct (Float.span_digits s) as [ds r].
      destruct IH as (-> & Hd & Hr). simpl. rewrite Ha. auto.
    + simpl. rewrite Ha. auto.
Qed.

Lemma span_digits_app (ds r : string) :
  all_digits ds = true -> starts_digit r = false ->
  Float.span_digits (ds ++ r) = (ds, r).
Proof.
  induction ds as [|a ds IH]; simpl; intros Hd Hr.
  - destruct r as [|b r]; simpl in *; [reflexivity | now rewrite Hr].
  - apply andb_prop in Hd as [Ha Hd]. rewrite Ha, IH; auto.
Qed.

(** A non-empty string of digits ends in a digit. *)
Lemma digits_snoc (ds : string) :
  all_digits ds = true -> nonempty ds = true ->
  exists ds' d, ds = ds' ++ String d "" /\ all_digits ds' = true /\ is_digit d = true.
Proof.
  induction ds as [|a ds IH]; simpl; intros Hd Hn; [discriminate|].
  apply andb_prop in Hd as [Ha Hd].
  destruct ds as [|b ds].
  - exists "", a. auto.
  - destruct (IH Hd eq_refl) as (ds' & d & E & Hd' & Hdd).
    exists (String a ds'), d. rewrite E. simpl. rewrite Ha. auto.
Qed.

(** ** The matcher on runs of digits *)

Section Star.
Variable k : string -> option string.

Lemma star_stop (r : string) :
  starts_digit r = false -> star_cset Digit r k = k r.
Proof. destruct r as [|a r]; simpl; [reflexivity|]. now intros ->. Qed.

(** Greedy success: the continuation accepts right after the run. *)
Lemma star_all (ds r x : string) :
  all_digits ds = true -> starts_digit r = false -> k r = Some x ->
  star_cset Digit (ds ++ r) k = Some x.
Proof.
  induction ds as [|a ds IH]; simpl; intros Hd Hr Hk.
  - now rewrite star_stop.
  - apply andb_prop in Hd as [Ha Hd]. now rewrite Ha, IH.
Qed.

(** One step of backtracking: the continuation refuses after the whole
    run and accepts with its last digit given back. *)
Lemma star_give_back (ds r x : string) (d : ascii) :
  all_digits ds = true -> is_digit d = true -> starts_digit r = false ->
  k r = None -> k (String d r) = Some x ->
  star_cset Digit (ds ++ String d r) k = Some x.
Proof.
  induction ds as [|a ds IH]; simpl; intros Hd Hdd Hr Hn Hk.
  - now rewrite Hdd, star_stop, Hn.
  - apply andb_prop in Hd as [Ha Hd]. now rewrite Ha, IH.
Qed.
End Star.

(** ** The pattern is the scanner *)

Lemma plus_digit_some (s : string) :
  rmatch (Plus Digit) s Some =
  let '(ds, r) := Float.span_digits s in
  if nonempty ds then Some r else None.
Proof.
  destruct s as [|a s]; simpl; [reflexivity|].
  destruct (is_digit a) eqn:Ha; [|reflexivity].
  pose proof (span_digits_spec s) as H.
  destruct (Float.span_digits s) as [ds r]. destruct H as (-> & Hd & Hr).
  simpl. now apply star_all.
Qed.


Lemma exp_re_scan (r : string) : rmatch exp_re r Some = Some (Scan.exp r).
Proof.
  unfold exp_re, Scan.exp.
  destruct r as [|c r1]; [reflexivity|].
  cbn [rmatch in_cset].
  destruct (mem_char c "eE") eqn:Hc; [|reflexivity].
  destruct r1 as [|g r']; [reflexivity|].
  destruct (mem_char g "-+") eqn:Hg.
  - pose proof (plus_digit_some r') as E. cbn [rmatch in_cset] in E. rewrite E.
    destruct (Float.span_digits r') as [es r3] eqn:Es.
    destruct (nonempty es); [reflexivity|].
    (* no digit after the sign: the sign is given back, and a sign is not a digit *)
    assert (is_digit g = false) as Hn.
    { destruct g as [[] [] [] [] [] [] [] []]; try discriminate; reflexivity. }
    now rewrite Hn.
  - pose proof (plus_digit_some (String g r')) as E. cbn [rmatch in_cset] in E.
    rewrite E.
    destruct (Float.span_digits (String g r')) as [es r3].
    destruct (nonempty es); reflexivity.
Qed.

(** Unfolding equations of the matcher. *)
Lemma rmatch_Opt (r1 : regex) (s : string) (k : string -> option string) :
  rmatch (Opt r1) s k =
  match rmatch r1 s k with Some r => Some r | None => k s end.
Proof. reflexivity. Qed.

Lemma rmatch_Set1 (c : cset) (a : ascii) (s : string) (k : string -> option string) :
  rmatch (Set1 c) (String a s) k = if in_cset c a then k s else None.
Proof. reflexivity. Qed.

Lemma rmatch_Seq (r1 r2 : regex) (s : string) (k : string -> option string) :
  rmatch (Seq r1 r2) s k = rmatch r1 s (fun s' => rmatch r2 s' k).
Proof. reflexivity. Qed.

Lemma rmatch_Alt (r1 r2 : regex) (s : string) (k : string -> option string) :
  rmatch (Alt r1 r2) s k =
  match rmatch r1 s k with Some r => Some r | None => rmatch r2 s k end.
Proof. reflexivity. Qed.

Lemma plus_digit_exp (s : string) :
  rmatch (Plus Digit) s (fun s4 => rmatch exp_re s4 Some) =
  let '(ds, r) := Float.span_digits s in
  if nonempty ds then Some (Scan.exp r) else None.
Proof.
  destruct s as [|a s]; simpl; [reflexivity|].
  destruct (is_digit a) eqn:Ha; [|reflexivity].
  pose proof (span_digits_spec s) as H.
  destruct (Float.span_digits s) as [ds r]. destruct H as (-> & Hd & Hr).
  simpl. apply star_all; auto. apply exp_re_scan.
Qed.

Lemma after_digits_dot (r' : string) :
  after_digits (String "." r') =
  let '(fs, r'') := Float.span_digits r' in
  if nonempty fs then Some (Scan.exp r'') else None.
Proof.
  unfold after_digits. rewrite rmatch_Opt, rmatch_Set1.
  change (in_cset (Chr ".") ".") with true. cbv iota.
  rewrite plus_digit_exp.
  destruct (Float.span_digits r') as [fs r''].
  destruct (nonempty fs); reflexivity.
Qed.

Lemma after_digits_other (c : ascii) (r : string) :
  Ascii.eqb c "." = false ->
  after_digits (String c r) =
  rmatch (Plus Digit) (String c r) (fun s4 => rmatch exp_re s4 Some).
Proof.
  intros H. unfold after_digits. rewrite rmatch_Opt, rmatch_Set1.
  cbn [in_cset]. now rewrite H.
Qed.

Lemma after_digits_nil : after_digits "" = None.
Proof. reflexivity. Qed.

Lemma is_digit_not_dot (d : ascii) : is_digit d = true -> Ascii.eqb d "." = false.
Proof.
  intros H. destruct (Ascii.eqb_spec d "."); [subst; discriminate | reflexivity].
Qed.

Lemma after_digits_digit (d : ascii) (r : string) :
  is_digit d = true -> starts_digit r = false ->
  after_digits (String d r) = Some (Scan.exp r).
Proof.
  intros Hd Hr. rewrite after_digits_other by now apply is_digit_not_dot.
  rewrite plus_digit_exp.
  change (String d r) with (String d "" ++ r).
  rewrite span_digits_app; simpl; auto. now rewrite Hd.
Qed.

(** No point with digits behind it: the digits alone are the mantissa,
    the last of them matched by [\d+]. *)
Lemma star_whole (ds r : string) :
  all_digits ds = true -> starts_digit r = false -> after_digits r = None ->
  star_cset Digit (ds ++ r) after_digits =
  if nonempty ds then Some (Scan.exp r) else None.
Proof.
  intros Hd Hr Hn.
  destruct (nonempty ds) eqn:Hne.
  - destruct (digits_snoc ds Hd Hne) as (ds' & d & -> & Hd' & Hdd).
    rewrite append_assoc. simpl.
    apply star_give_back; auto. now apply after_digits_digit.
  - destruct ds; [|discriminate]. simpl. now rewrite star_stop.
Qed.

Lemma unsigned_scan (s : string) :
  star_cset Digit s after_digits = Scan.unsigned s.
Proof.
  unfold Scan.unsigned, Scan.mantissa.
  pose proof (span_digits_spec s) as H.
  destruct (Float.span_digits s) as [ds r]. destruct H as (-> & Hd & Hr).
  destruct r as [|c r'].
  - rewrite star_whole; auto. destruct (nonempty ds); reflexivity.
  - destruct (Ascii.eqb_spec c ".") as [->|Hc].
    + pose proof (after_digits_dot r') as E.
      destruct (Float.span_digits r') as [fs r''].
      destruct (nonempty fs).
      * simpl. apply star_all; auto.
      * rewrite star_whole; auto. destruct (nonempty ds); reflexivity.
    + rewrite star_whole; auto.
      * destruct (nonempty ds); reflexivity.
      * rewrite after_digits_other by now apply Ascii.eqb_neq.
        rewrite plus_digit_exp. simpl. simpl in Hr. now rewrite Hr.
Qed.

Lemma unsigned_sign (a : ascii) (s : string) :
  mem_char a "-+" = true -> Scan.unsigned (String a s) = None.
Proof.
  intros H. unfold Scan.unsigned, Scan.mantissa.
  assert (is_digit a = false /\ Ascii.eqb a "." = false) as [Hd Hp].
  { destruct a as [[] [] [] [] [] [] [] []]; try discriminate; auto. }
  simpl. now rewrite Hd, Hp.
Qed.

Lemma unsigned_re_scan (s : string) :
  rmatch unsigned_re s Some = Scan.unsigned s.
Proof. exact (unsigned_scan s). Qed.

Lemma lit_some (l s : string) : rmatch (Lit l) s Some = lit_prefix l s.
Proof. simpl. destruct (lit_prefix l s); reflexivity. Qed.

(** The pattern [p], anchored, is the scanner [Scan.token]. *)
Theorem match_here_scan (s : string) : match_here p s = Scan.token s.
Proof.
  unfold match_here, Scan.token, Scan.number.
  change p with (Alt (Seq (Opt (Set1 (OneOf "-+"))) unsigned_re) (Lit "nan")).
  rewrite rmatch_Alt, rmatch_Seq, rmatch_Opt, lit_some.
  destruct s as [|a s1].
  - reflexivity.
  - rewrite rmatch_Set1. cbn [in_cset].
    destruct (mem_char a "-+") eqn:Ha.
    + rewrite !unsigned_re_scan, (unsigned_sign a s1 Ha).
      destruct (Scan.unsigned s1); reflexivity.
    + rewrite unsigned_re_scan. reflexivity.
Qed.

(** ** The scanner returns tokens of the grammar *)

Lemma lit_prefix_spec (l s r : string) : lit_prefix l s = Some r -> s = l ++ r.
Proof.
  revert s; induction l as [|a l IH]; simpl; intros s H.
  - now inversion H.
  - destruct s as [|b s]; [discriminate|].
    destruct (Ascii.eqb_spec a b); [subst|discriminate].
    now rewrite (IH s H).
Qed.

Lemma scan_exp_spec (r : string) :
  exists ex, r = ex ++ Scan.exp r /\ is_exp ex.
Proof.
  unfold Scan.exp.
  destruct r as [|c r1]; [exists ""; split; [reflexivity | now left]|].
  destruct (mem_char c "eE") eqn:Hc;
    [|exists ""; split; [reflexivity | now left]].
  set (r2 := match r1 with
             | String g r' => if mem_char g "-+" then r' else r1
             | EmptyString => r1
             end).
  assert (exists sg, r1 = sg ++ r2 /\ is_sign sg) as (sg & E1 & Hsg).
  { subst r2. destruct r1 as [|g r']; [exists ""; split; [reflexivity | now left]|].
    destruct (mem_char g "-+") eqn:Hg; [|exists ""; split; [reflexivity | now left]].
    exists (String g ""). split; [reflexivity|].
    simpl in Hg. unfold is_sign.
    destruct (Ascii.eqb_spec g "-"); [subst; auto|].
    destruct (Ascii.eqb_spec g "+"); [subst; auto|discriminate]. }
  pose proof (span_digits_spec r2) as H.
  destruct (Float.span_digits r2) as [es r3]. destruct H as (E2 & Hd & Hr).
  destruct (nonempty es) eqn:Hne.
  - exists (String c (sg ++ es)). split.
    + simpl. now rewrite E1, E2, append_assoc.
    + right. exists c, sg, es. repeat split; auto.
  - exists "". split; [reflexivity | now left].
Qed.

Lemma scan_mantissa_spec (s r : string) :
  Scan.mantissa s = Some r ->
  exists ds fr, s = ds ++ fr ++ r /\ all_digits ds = true /\ is_frac fr /\
                nonempty (ds ++ fr) = true.
Proof.
  unfold Scan.mantissa.
  pose proof (span_digits_spec s) as H.
  destruct (Float.span_digits s) as [ds r0]. destruct H as (-> & Hd & Hr).
  assert (forall r, (if nonempty ds then Some r0 else None) = Some r ->
            exists ds' fr, ds ++ r0 = ds' ++ fr ++ r /\ all_digits ds' = true /\
                           is_frac fr /\ nonempty (ds' ++ fr) = true) as Hwhole.
  { intros r1 H. destruct (nonempty ds) eqn:Hne; [|discriminate].
    inversion H; subst. exists ds, "". simpl. rewrite append_nil_r.
    repeat split; auto. now left. }
  destruct r0 as [|c r']; [apply Hwhole|].
  destruct (Ascii.eqb_spec c ".") as [->|Hc]; [|apply Hwhole].
  pose proof (span_digits_spec r') as H.
  destruct (Float.span_digits r') as [fs r'']. destruct H as (-> & Hf & Hr').
  destruct (nonempty fs) eqn:Hne; [|apply Hwhole].
  intros H; inversion H; subst.
  exists ds, (String "." fs). repeat split; auto.
  - right. exists fs. auto.
  - destruct ds; reflexivity.
Qed.

Lemma scan_unsigned_spec (s r : string) :
  Scan.unsigned s = Some r ->
  exists ds fr ex, s = ds ++ fr ++ ex ++ r /\ all_digits ds = true /\
                   is_frac fr /\ is_exp ex /\ nonempty (ds ++ fr) = true.
Proof.
  unfold Scan.unsigned. destruct (Scan.mantissa s) as [r0|] eqn:E; [|discriminate].
  simpl. intros H; inversion H; subst.
  destruct (scan_mantissa_spec _ _ E) as (ds & fr & -> & Hd & Hf & Hn).
  destruct (scan_exp_spec r0) as (ex & Ee & Hex).
  exists ds, fr, ex. rewrite <- Ee. repeat split; auto.
Qed.

(** A match of the pattern consumes a token of the grammar. *)
Theorem scan_token_spec (s r : string) :
  Scan.token s = Some r -> exists w, s = w ++ r /\ token_text w.
Proof.
  unfold Scan.token.
  destruct (Scan.number s) as [r0|] eqn:E.
  - intros H; inversion H; subst r0. unfold Scan.number in E.
    assert (forall sg s1, is_sign sg -> Scan.unsigned s1 = Some r ->
              exists w, sg ++ s1 = w ++ r /\ token_text w) as Hu.
    { intros sg s1 Hsg Hs1.
      destruct (scan_unsigned_spec _ _ Hs1) as (ds & fr & ex & -> & Hd & Hf & Hex & Hn).
      exists (sg ++ ds ++ fr ++ ex). split.
      - now rewrite !append_assoc.
      - right. exists sg, ds, fr, ex. repeat split; auto. }
    destruct s as [|a s1]; [discriminate|].
    destruct (mem_char a "-+") eqn:Ha.
    + apply (Hu (String a "") s1); auto.
      simpl in Ha. unfold is_sign.
      destruct (Ascii.eqb_spec a "-"); [subst; auto|].
      destruct (Ascii.eqb_spec a "+"); [subst; auto|discriminate].
    + apply (Hu "" (String a s1)); auto. now left.
  - intros H. apply lit_prefix_spec in H. exists "nan". split; auto. now left.
Qed.

(** ** [float] accepts every token *)

Lemma mem_eE (c : ascii) : mem_char c "eE" = true -> c = "e"%char \/ c = "E"%char.
Proof.
  simpl. destruct (Ascii.eqb_spec c "e"); [auto|].
  destruct (Ascii.eqb_spec c "E"); [auto|discriminate].
Qed.

Lemma all_digits_starts (ds r : string) :
  all_digits ds = true -> nonempty ds = true -> starts_digit (ds ++ r) = true.
Proof.
  destruct ds as [|a ds]; simpl; [discriminate|].
  intros H _. now apply andb_prop in H as [-> _].
Qed.

Lemma split_sign_digits (ds r : string) :
  all_digits ds = true -> nonempty ds = true ->
  Float.split_sign (ds ++ r) = (false, ds ++ r).
Proof.
  destruct ds as [|a ds]; simpl; [discriminate|]. intros H _.
  apply andb_prop in H as [Ha _].
  destruct a as [[] [] [] [] [] [] [] []]; try discriminate; reflexivity.
Qed.

Lemma float_exponent_ok (ex : string) :
  is_exp ex -> exists z, Float.exponent ex = Ok z.
Proof.
  intros [->|(c & sg & es & -> & Hc & Hsg & Hd & Hn)]; [now exists 0%Z|].
  unfold Float.exponent. rewrite Hc.
  assert (exists neg, Float.split_sign (sg ++ es) = (neg, es)) as [neg ->].
  { destruct Hsg as [->|[->| ->]]; simpl.
    - exists false. rewrite <- (append_nil_r es). now apply split_sign_digits.
    - now exists true.
    - now exists false. }
  rewrite <- (append_nil_r es), span_digits_app by auto.
  destruct es as [|a d]; [discriminate|]. eauto.
Qed.

Lemma is_exp_starts (ex : string) : is_exp ex -> starts_digit ex = false.
Proof.
  intros [->|(c & sg & es & -> & Hc & _)]; [reflexivity|].
  simpl. destruct (mem_eE c Hc); subst; reflexivity.
Qed.

Lemma is_exp_not_dot (ex : string) :
  is_exp ex ->
  match ex with
  | String "." r => Float.span_digits r
  | _ => (EmptyString, ex)
  end = (EmptyString, ex).
Proof.
  intros [->|(c & sg & es & -> & Hc & _)]; [reflexivity|].
  destruct (mem_eE c Hc); subst; reflexivity.
Qed.

(** The decimal part of [float], after the sign and the special names. *)
Lemma float_decimal_ok (neg : bool) (ds fr ex : string) :
  all_digits ds = true -> is_frac fr -> is_exp ex ->
  nonempty (ds ++ fr) = true ->
  exists f,
    (let '(ip, r1) := Float.span_digits (ds ++ fr ++ ex) in
     let '(fp, r2) :=
       match r1 with
       | String "." r => Float.span_digits r
       | _ => (EmptyString, r1)
       end in
     match ip ++ fp with
     | EmptyString => Raise ValueError
     | String a d =>
         e <- Float.exponent r2 ;;
         Ok (Float.of_decimal neg (Float.digits_val 0 (String a d))
               (e - Z.of_nat (String.length fp))%Z)
     end) = Ok f.
Proof.
  intros Hd Hf Hex Hn.
  destruct (float_exponent_ok ex Hex) as [z Hz].
  destruct Hf as [->|(fs & -> & Hfs & Hnf)].
  - simpl. rewrite span_digits_app by (auto using is_exp_starts).
    rewrite is_exp_not_dot by auto. rewrite append_nil_r in *.
    destruct ds as [|a d]; [discriminate|].
    rewrite Hz. simpl. eauto.
  - rewrite span_digits_app by auto.
    change (String "." fs ++ ex) with (String "."%char (fs ++ ex)). cbv iota beta.
    rewrite span_digits_app by (auto using is_exp_starts).
    destruct (ds ++ fs) as [|a d] eqn:E.
    + destruct ds; [destruct fs|]; discriminate.
    + rewrite Hz. simpl. eauto.
Qed.

Theorem float_token_ok (w : string) :
  token_text w -> exists f, Float.float w = Ok f.
Proof.
  intros [->|(sg & ds & fr & ex & -> & Hsg & Hd & Hf & Hex & Hn)].
  - vm_compute. eauto.
  - unfold Float.float.
    assert (exists neg, Float.split_sign (sg ++ ds ++ fr ++ ex) = (neg, ds ++ fr ++ ex))
      as [neg ->].
    { destruct Hsg as [->|[->| ->]]; simpl; [|now exists true|now exists false].
      exists false. destruct ds as [|a ds].
      - destruct Hf as [->|(fs & -> & _)]; [discriminate|reflexivity].
      - apply (split_sign_digits (String a ds)); auto. }
    destruct (String.eqb _ "nan"); [eauto|].
    destruct (_ || _); [eauto|].
    now apply float_decimal_ok.
Qed.

(** ** [findall] *)

Lemma findall_from_skip (r : regex) (w s : string) :
  findall_from r (String.length w) (w ++ s) = findall_from r 0 s.
Proof. induction w as [|a w IH]; [reflexivity | exact IH]. Qed.

(** A token at the start of the text is emitted and the scan resumes
    right after it. *)
Lemma findall_token (w r : string) :
  nonempty w = true -> Scan.token (w ++ r) = Some r ->
  findall p (w ++ r) = w :: findall p r.
Proof.
  intros Hn Ht. unfold findall.
  destruct w as [|a w]; [discriminate|].
  cbn [findall_from String.append]. change (String a (w ++ r)) with (String a w ++ r).
  rewrite match_here_scan, Ht, length_append.
  replace (String.length (String a w) + String.length r - String.length r)%nat
    with (String.length (String a w)) by lia.
  rewrite substring_prefix. f_equal.
  cbn [String.length]. rewrite Nat.sub_1_r. cbn [Nat.pred].
  apply findall_from_skip.
Qed.

Lemma findall_no_token (a : ascii) (s : string) :
  Scan.token (String a s) = None -> findall p (String a s) = findall p s.
Proof.
  intros H. unfold findall. cbn [findall_from]. now rewrite match_here_scan, H.
Qed.

Lemma findall_nil : findall p "" = [].
Proof. reflexivity. Qed.

(** Every text [findall] returns is a token of the grammar. *)
Theorem findall_tokens (s : string) : Forall token_text (findall p s).
Proof.
  unfold findall.
  assert (forall s skip, Forall token_text (findall_from p skip s)) as H;
    [|apply H].
  clear s. induction s as [|a s IH]; intros skip.
  - destruct skip; simpl; constructor.
  - destruct skip as [|n]; [|apply IH].
    cbn [findall_from]. rewrite match_here_scan.
    destruct (Scan.token (String a s)) as [r|] eqn:E; [|apply IH].
    constructor; [|apply IH].
    destruct (scan_token_spec _ _ E) as (w & Ew & Hw).
    rewrite Ew, length_append.
    replace (String.length w + String.length r - String.length r)%nat
      with (String.length w) by lia.
    now rewrite substring_prefix.
Qed.

Lemma index_In {A : Type} (l : list A) (i : nat) (a : A) :
  index l i = Ok a -> In a l.
Proof.
  unfold index. destruct (nth_error l i) eqn:E; [|discriminate].
  intros H; inversion H; subst. eapply nth_error_In; eauto.
Qed.

Lemma index_error {A : Type} (l : list A) (i : nat) (e : exn) :
  index l i = Raise e -> e = IndexError.
Proof. unfold index. destruct (nth_error l i); congruence. Qed.

(** ** What [tok] returns *)

Lemma tok_token (lines : list string) (i : nat) (w : string) :
  tok lines i = Ok w -> token_text w.
Proof.
  unfold tok. destruct (index lines i) as [line|] eqn:E; [|discriminate].
  simpl. intros H. apply index_In in H.
  pose proof (findall_tokens line) as F. rewrite Forall_forall in F. auto.
Qed.

Lemma tok_error (lines : list string) (i : nat) (e : exn) :
  tok lines i = Raise e -> e = IndexError.
Proof.
  unfold tok. destruct (index lines i) as [line|] eqn:E; simpl.
  - apply index_error.
  - apply index_error in E. congruence.
Qed.

Lemma tok_float (lines : list string) (i : nat) (w : string) :
  tok lines i = Ok w -> exists f, Float.float w = Ok f.
Proof. intros H. apply float_token_ok. eapply tok_token; eauto. Qed.

(** ** The error monad *)

Lemma bind_ok {A B : Type} (m : result A) (f : A -> result B) (b : B) :
  bind m f = Ok b -> exists a, m = Ok a /\ f a = Ok b.
Proof. destruct m as [a|e]; simpl; [eauto | discriminate]. Qed.

Tactic Notation "bind_inv" hyp(H) "as" ident(x) :=
  match type of H with
  | bind ?m _ = _ =>
      let E := fresh "E" x in
      destruct m as [x|] eqn:E; cbn [bind] in H; [|try discriminate H]
  end.

Lemma tok_unreadable (lines : list string) (i : nat) :
  unreadable lines i <-> tok lines i = Raise IndexError.
Proof.
  unfold unreadable, tok, index. split.
  - intros [->|(l & -> & El)]; [reflexivity|]. simpl. now rewrite El.
  - destruct (nth_error lines i) as [l|]; [|auto]. simpl.
    destruct (findall p l) eqn:E; [|discriminate]. right. eauto.
Qed.

Lemma tok_cases (lines : list string) (i : nat) :
  (exists w, tok lines i = Ok w) \/ unreadable lines i.
Proof.
  destruct (tok lines i) as [w|e] eqn:E; [eauto|].
  right. apply tok_unreadable. now rewrite (tok_error _ _ _ E) in E.
Qed.

(** ** The loop over result groups *)

Lemma for_groups_ok (lines : list string) (js : list nat) :
  forall a s a' s',
    for_groups lines js a s = Ok (a', s') ->
    exists xs ys,
      a' = (a ++ xs)%list /\ s' = (s ++ ys)%list /\
      Forall2 (fun j x => tok lines (6 + 3 * j - 2) = Ok x) js xs /\
      Forall2 (fun j y => tok lines (6 + 3 * j - 2 + 1) = Ok y) js ys.
Proof.
  induction js as [|j js IH]; intros a s a' s' H; simpl in H.
  - inversion H; subst. exists [], []. rewrite !app_nil_r. auto.
  - bind_inv H as x. bind_inv H as y.
    destruct (IH _ _ _ _ H) as (xs & ys & -> & -> & Hx & Hy).
    exists (x :: xs), (y :: ys). rewrite <- !app_assoc. simpl. auto.
Qed.

Lemma for_groups_raise (lines : list string) (js : list nat) :
  forall a s e, for_groups lines js a s = Raise e -> e = IndexError.
Proof.
  induction js as [|j js IH]; intros a s e H; simpl in H; [discriminate|].
  bind_inv H as x; [|inversion H; subst; eapply tok_error; eauto].
  bind_inv H as y; [|inversion H; subst; eapply tok_error; eauto].
  eauto.
Qed.

(** The loop runs through when every line it reads has a token. *)
Lemma for_groups_total (lines : list string) (js : list nat) :
  (forall i, In i (group_lines js) -> exists w, tok lines i = Ok w) ->
  forall a s, exists r, for_groups lines js a s = Ok r.
Proof.
  induction js as [|j js IH]; intros H a s; cbn [for_groups]; [eauto|].
  destruct (H (6 + 3 * j - 2)%nat) as [x ->]; [cbn [group_lines flat_map app In]; auto|].
  destruct (H (6 + 3 * j - 2 + 1)%nat) as [y ->]; [cbn [group_lines flat_map app In]; auto|].
  cbn [bind]. apply IH. intros i Hi. apply H. cbn [group_lines flat_map app In]. auto.
Qed.

Lemma for_groups_reads (lines : list string) (js : list nat) a s r :
  for_groups lines js a s = Ok r ->
  forall i, In i (group_lines js) -> exists w, tok lines i = Ok w.
Proof.
  revert a s. induction js as [|j js IH]; intros a s H i Hi;
    cbn [for_groups group_lines flat_map app In] in *; [tauto|].
  bind_inv H as x. bind_inv H as y.
  destruct Hi as [<-|[<-|Hi]]; eauto.
Qed.

Lemma Forall2_length_eq {A B : Type} (R : A -> B -> Prop) l l' :
  Forall2 R l l' -> length l = length l'.
Proof. induction 1; simpl; congruence. Qed.

(** ** The conversion of a list of tokens *)

Lemma floats_ok (l : list string) :
  Forall token_text l ->
  exists fs, floats l = Ok fs /\ length fs = length l.
Proof.
  induction 1 as [|w l Hw _ (fs & E & Hl)]; simpl; [exists []; auto|].
  destruct (float_token_ok w Hw) as [f ->]. rewrite E. simpl.
  exists (f :: fs). simpl. auto.
Qed.

Lemma Forall2_tok_tokens (lines : list string) (g : nat -> nat) js xs :
  Forall2 (fun j x => tok lines (g j) = Ok x) js xs -> Forall token_text xs.
Proof.
  induction 1; constructor; eauto using tok_token.
Qed.

(** ** The parsers follow one scheme *)

Lemma parse_otxt_temp_lines (fs : filesystem) (fname : string) :
  parse_otxt_temp fs fname =
  text <- open fs fname ;; parse_lines 6 true (readlines text).
Proof.
  unfold parse_otxt_temp, parse_lines, convert.
  destruct (open fs fname) as [text|]; [|reflexivity]. cbn [bind].
  repeat (match goal with
          | |- bind ?m _ = bind ?m _ => destruct m; cbn [bind]; [|reflexivity]
          end).
  change (range 1 (6 + 1)) with (range 1 7).
  destruct (for_groups (readlines text) (range 1 7) [] []) as [[xa xs]|]; [|reflexivity].
  cbn [bind fst snd].
  destruct (floats xa); [|reflexivity]. cbn [bind].
  destruct (floats xs); reflexivity.
Qed.

Lemma parse_susceptibility_temp_lines (fs : filesystem) (fname : string)
    (fidsus : pyval) :
  parse_susceptibility_temp fs fname fidsus =
  text <- open fs fname ;;
  parse_lines (susceptibility_groups fidsus) false (readlines text).
Proof.
  unfold parse_susceptibility_temp, parse_lines, convert, susceptibility_groups.
  destruct (open fs fname) as [text|]; [|reflexivity]. cbn [bind].
  repeat (match goal with
          | |- bind ?m _ = bind ?m _ => destruct m; cbn [bind]; [|reflexivity]
          end).
  destruct (py_eq fidsus (VBool true)).
  - change (range 1 (3 + 1)) with (range 1 4).
    destruct (for_groups (readlines text) (range 1 4) [] []) as [[xa xs]|]; reflexivity.
  - change (range 1 (2 + 1)) with (range 1 3).
    destruct (for_groups (readlines text) (range 1 3) [] []) as [[xa xs]|]; reflexivity.
Qed.

Lemma parse_correlator_temp_lines (fs : filesystem) (fname : string) :
  parse_correlator_temp fs fname =
  text <- open fs fname ;; parse_lines 2 false (readlines text).
Proof.
  unfold parse_correlator_temp, parse_lines, convert.
  destruct (open fs fname) as [text|]; [|reflexivity]. cbn [bind].
  repeat (match goal with
          | |- bind ?m _ = bind ?m _ => destruct m; cbn [bind]; [|reflexivity]
          end).
  change (range 1 (2 + 1)) with (range 1 3).
  destruct (for_groups (readlines text) (range 1 3) [] []) as [[xa xs]|]; reflexivity.
Qed.

Lemma open_some (fs : filesystem) (fname text : string) :
  fs fname = Ok text -> open fs fname = Ok text.
Proof. now unfold open. Qed.

(** ** What the scheme returns, and when *)

Lemma convert_ok (coerce : bool) (l : list string) (vs : list pyval) :
  convert coerce l = Ok vs ->
  if coerce then exists fs, floats l = Ok fs /\ vs = map VFloat fs
  else vs = map VStr l.
Proof.
  unfold convert. destruct coerce.
  - destruct (floats l) as [fs|]; [|discriminate]. simpl.
    intros H; inversion H; eauto.
  - intros H; now inversion H.
Qed.

Lemma convert_total (coerce : bool) (l : list string) :
  Forall token_text l -> exists vs, convert coerce l = Ok vs.
Proof.
  intros H. unfold convert. destruct coerce; [|eauto].
  destruct (floats_ok l H) as (fs & -> & _). simpl. eauto.
Qed.

(** A successful parse, taken apart. *)
Lemma parse_lines_ok (G : nat) (coerce : bool) (lines : list string) em a s t :
  parse_lines G coerce lines = Ok (em, a, s, t) ->
  exists w2 w3 w4 w5 xs ys wt,
    tok lines 2 = Ok w2 /\ tok lines 3 = Ok w3 /\
    tok lines 4 = Ok w4 /\ tok lines 5 = Ok w5 /\
    em = [VStr w2; VStr w3; VStr w4; VStr w5] /\
    for_groups lines (range 1 (G + 1)) [] [] = Ok (xs, ys) /\
    convert coerce xs = Ok a /\ convert coerce ys = Ok s /\
    tok lines (6 + 3 * G) = Ok wt /\ t = VStr wt.
Proof.
  unfold parse_lines. intros H.
  bind_inv H as w2. bind_inv H as w3. bind_inv H as w4. bind_inv H as w5.
  bind_inv H as gs. destruct gs as [xs ys]. cbn [fst snd] in H.
  bind_inv H as a'. bind_inv H as s'. bind_inv H as wt.
  inversion H; subst.
  exists w2, w3, w4, w5, xs, ys, wt. repeat split; auto.
Qed.

(** The only exception a parse of the lines can raise. *)
Lemma parse_lines_raise (G : nat) (coerce : bool) (lines : list string) e :
  parse_lines G coerce lines = Raise e -> e = IndexError.
Proof.
  unfold parse_lines. intros H.
  bind_inv H as w2; [|inversion H; subst; eapply tok_error; eauto].
  bind_inv H as w3; [|inversion H; subst; eapply tok_error; eauto].
  bind_inv H as w4; [|inversion H; subst; eapply tok_error; eauto].
  bind_inv H as w5; [|inversion H; subst; eapply tok_error; eauto].
  bind_inv H as gs; [|inversion H; subst; eapply for_groups_raise; eauto].
  destruct gs as [xs ys]. cbn [fst snd] in H.
  destruct (for_groups_ok _ _ _ _ _ _ Egs) as (xs' & ys' & -> & -> & Hx & Hy).
  cbn [app] in H.
  destruct (convert_total coerce xs' (Forall2_tok_tokens _ _ _ _ Hx)) as [a Ea].
  destruct (convert_total coerce ys' (Forall2_tok_tokens _ _ _ _ Hy)) as [s Es].
  rewrite Ea, Es in H. cbn [bind] in H.
  bind_inv H as wt; [discriminate|].
  inversion H; subst; eapply tok_error; eauto.
Qed.

(** A successful parse has read a token on each required line. *)
Lemma parse_lines_reads (G : nat) (coerce : bool) (lines : list string) r :
  parse_lines G coerce lines = Ok r ->
  forall i, In i (required_lines G) -> exists w, tok lines i = Ok w.
Proof.
  destruct r as [[[em a] s] t]. intros H i Hi.
  destruct (parse_lines_ok _ _ _ _ _ _ _ H)
    as (w2 & w3 & w4 & w5 & xs & ys & wt & H2 & H3 & H4 & H5 & _ & Hg & _ & _ & Ht & _).
  unfold required_lines in Hi. rewrite !in_app_iff in Hi.
  destruct Hi as [Hi|[Hi|Hi]].
  - simpl in Hi. destruct Hi as [<-|[<-|[<-|[<-|[]]]]]; eauto.
  - eapply for_groups_reads; eauto.
  - simpl in Hi. destruct Hi as [<-|[]]. eauto.
Qed.

(** The parse succeeds as soon as each required line has a token. *)
Lemma parse_lines_total (G : nat) (coerce : bool) (lines : list string) :
  (forall i, In i (required_lines G) -> exists w, tok lines i = Ok w) ->
  exists r, parse_lines G coerce lines = Ok r.
Proof.
  intros H. unfold parse_lines.
  assert (forall i, In i [2; 3; 4; 5]%nat -> exists w, tok lines i = Ok w) as He.
  { intros i Hi. apply H. unfold required_lines. rewrite in_app_iff. auto. }
  destruct (He 2%nat) as [w2 ->]; [simpl; auto|].
  destruct (He 3%nat) as [w3 ->]; [simpl; auto|].
  destruct (He 4%nat) as [w4 ->]; [simpl; auto|].
  destruct (He 5%nat) as [w5 ->]; [simpl; auto|].
  cbn [bind].
  destruct (for_groups_total lines (range 1 (G + 1))) with (a := @nil string) (s := @nil string)
    as [[xs ys] Eg].
  { intros i Hi. apply H. unfold required_lines. rewrite !in_app_iff. auto. }
  rewrite Eg. cbn [bind fst snd].
  destruct (for_groups_ok _ _ _ _ _ _ Eg) as (xs' & ys' & -> & -> & Hx & Hy).
  cbn [app].
  destruct (convert_total coerce xs' (Forall2_tok_tokens _ _ _ _ Hx)) as [a ->].
  destruct (convert_total coerce ys' (Forall2_tok_tokens _ _ _ _ Hy)) as [s ->].
  cbn [bind].
  destruct (H (6 + 3 * G)%nat) as [wt ->].
  { unfold required_lines. rewrite !in_app_iff. simpl. auto. }
  cbn [bind]. eauto.
Qed.

(** A parse fails exactly when a required line is missing or without a
    token, and then with [IndexError]. *)
Lemma parse_lines_fails (G : nat) (coerce : bool) (lines : list string) :
  (exists i, In i (required_lines G) /\ unreadable lines i) <->
  parse_lines G coerce lines = Raise IndexError.
Proof.
  split.
  - intros (i & Hi & Hu).
    destruct (parse_lines G coerce lines) as [r|e] eqn:E.
    + destruct (parse_lines_reads _ _ _ _ E i Hi) as [w Hw].
      apply tok_unreadable in Hu. congruence.
    + now rewrite (parse_lines_raise _ _ _ _ E).
  - intros E.
    destruct (Exists_dec (unreadable lines) (required_lines G)) as [Hex|Hno].
    + intros i. destruct (tok lines i) as [w|e] eqn:Ei.
      * right. intros Hu. apply tok_unreadable in Hu. congruence.
      * left. apply tok_unreadable. now rewrite (tok_error _ _ _ Ei) in Ei.
    + apply Exists_exists in Hex. exact Hex.
    + exfalso. destruct (parse_lines_total G coerce lines) as [r Hr]; [|congruence].
      intros i Hi. destruct (tok_cases lines i) as [Hw|Hu]; [exact Hw|].
      exfalso. apply Hno. apply Exists_exists. eauto.
Qed.

(** * The report parsers: the claims *)

(** C7. The extractor on the line ["-3.2e-5 nan 42"] returns exactly the
    three substrings ["-3.2e-5"], ["nan"], ["42"], in that order; and on
    every line, each substring it returns follows the grammar: optional
    sign, digits with an optional fractional part, optional exponent
    suffix, or the lowercase literal [nan]. *)
Theorem C7_numeric_token_extractor :
  findall p "-3.2e-5 nan 42" = ["-3.2e-5"; "nan"; "42"] /\
  (forall line, Forall token_text (findall p line)).
Proof. split; [reflexivity | exact findall_tokens]. Qed.

(** C1, as stated, fails: on the 25-line report the full-standard parser
    returns the token of line 24 as the duration, while line
    [6 + 3*(6-1) = 21] holds another token; likewise for the correlator
    parser on the 13-line report, line 12 against line [6 + 3*(2-1) = 9]. *)
Lemma C1_duration_line_counterexample :
  (exists r w,
     parse_otxt_temp (one_file "o.txt" report25) "o.txt" = Ok r /\
     tok (readlines report25) (6 + 3 * (6 - 1)) = Ok w /\
     time_of r <> VStr w) /\
  (exists r w,
     parse_correlator_temp (one_file "o.txt" report13) "o.txt" = Ok r /\
     tok (readlines report13) (6 + 3 * (2 - 1)) = Ok w /\
     time_of r <> VStr w).
Proof.
  split.
  - eexists. exists "6". split; [vm_compute; reflexivity|].
    split; [vm_compute; reflexivity|]. vm_compute. discriminate.
  - eexists. exists "2". split; [vm_compute; reflexivity|].
    split; [vm_compute; reflexivity|]. vm_compute. discriminate.
Qed.

Lemma parse_lines_time (G : nat) (coerce : bool) (lines : list string) r :
  parse_lines G coerce lines = Ok r ->
  exists w, tok lines (6 + 3 * G) = Ok w /\ time_of r = VStr w.
Proof.
  destruct r as [[[em a] s] t]. intros H.
  destruct (parse_lines_ok _ _ _ _ _ _ _ H)
    as (w2 & w3 & w4 & w5 & xs & ys & wt & _ & _ & _ & _ & _ & _ & _ & _ & Ht & ->).
  eauto.
Qed.

Ltac parse_inv H text Hfs :=
  first [ rewrite parse_otxt_temp_lines in H
        | rewrite parse_susceptibility_temp_lines in H
        | rewrite parse_correlator_temp_lines in H ];
  rewrite (open_some _ _ text Hfs) in H; cbn [bind] in H.

(** C1, amended. For every report file accepted by a parser, the duration
    is the first numeric token of the line at zero-based offset [6 + 3*G],
    where [G] is the number of result groups the parser reads: 6 for
    [parse_otxt_temp] (line 24), 2 for [parse_correlator_temp] (line 12),
    3 or 2 for [parse_susceptibility_temp]. *)
Theorem C1_duration_line (fs : filesystem) (fname text : string) (r : record) :
  fs fname = Ok text ->
  (parse_otxt_temp fs fname = Ok r ->
   exists w, tok (readlines text) (6 + 3 * 6) = Ok w /\ time_of r = VStr w) /\
  (parse_correlator_temp fs fname = Ok r ->
   exists w, tok (readlines text) (6 + 3 * 2) = Ok w /\ time_of r = VStr w) /\
  (forall fidsus,
     parse_susceptibility_temp fs fname fidsus = Ok r ->
     exists w,
       tok (readlines text) (6 + 3 * susceptibility_groups fidsus) = Ok w /\
       time_of r = VStr w).
Proof.
  intros Hfs. repeat split.
  - intros H. parse_inv H text Hfs. now apply parse_lines_time in H.
  - intros H. parse_inv H text Hfs. now apply parse_lines_time in H.
  - intros fidsus H. parse_inv H text Hfs. now apply parse_lines_time in H.
Qed.

Lemma C1_duration_line_witness :
  exists w, tok (readlines report25) (6 + 3 * 6) = Ok w /\
            VStr "12.5" = VStr w.
Proof.
  refine (proj1 (C1_duration_line (one_file "o.txt" report25) "o.txt" report25
                   (_, _, _, VStr "12.5") eq_refl) _).
  vm_compute. reflexivity.
Defined.

(** ** The emergent block *)

Lemma tok_skipn (lines lines' : list string) (i : nat) :
  skipn 2 lines = skipn 2 lines' -> (2 <= i)%nat -> tok lines i = tok lines' i.
Proof.
  intros H Hi. unfold tok, index.
  replace i with (2 + (i - 2))%nat by lia.
  now rewrite <- !nth_error_skipn, H.
Qed.

Lemma for_groups_skipn (lines lines' : list string) (js : list nat) :
  skipn 2 lines = skipn 2 lines' ->
  forall a s, for_groups lines js a s = for_groups lines' js a s.
Proof.
  intros H. induction js as [|j js IH]; intros a s; cbn [for_groups]; [reflexivity|].
  rewrite (tok_skipn lines lines' (6 + 3 * j - 2)) by (auto; lia).
  rewrite (tok_skipn lines lines' (6 + 3 * j - 2 + 1)) by (auto; lia).
  destruct (tok lines' (6 + 3 * j - 2)); [|reflexivity]. cbn [bind].
  destruct (tok lines' (6 + 3 * j - 2 + 1)); [|reflexivity]. cbn [bind].
  apply IH.
Qed.

(** The first two lines of the file play no part in the parse. *)
Lemma parse_lines_skipn (G : nat) (coerce : bool) (lines lines' : list string) :
  skipn 2 lines = skipn 2 lines' ->
  parse_lines G coerce lines = parse_lines G coerce lines'.
Proof.
  intros H. unfold parse_lines.
  rewrite (tok_skipn lines lines' 2), (tok_skipn lines lines' 3),
    (tok_skipn lines lines' 4), (tok_skipn lines lines' 5),
    (tok_skipn lines lines' (6 + 3 * G)) by (auto; lia).
  now rewrite (for_groups_skipn lines lines' _ H).
Qed.

Lemma parse_lines_emergent (G : nat) (coerce : bool) (lines : list string)
    (w2 w3 w4 w5 : string) :
  tok lines 2 = Ok w2 -> tok lines 3 = Ok w3 ->
  tok lines 4 = Ok w4 -> tok lines 5 = Ok w5 ->
  match parse_lines G coerce lines with
  | Ok r => emergent_of r = [VStr w2; VStr w3; VStr w4; VStr w5]
  | Raise e =>
      e = IndexError /\
      exists i, In i (required_lines G) /\ (6 <= i)%nat /\ unreadable lines i
  end.
Proof.
  intros H2 H3 H4 H5.
  destruct (parse_lines G coerce lines) as [[[[em a] s] t]|e] eqn:E.
  - destruct (parse_lines_ok _ _ _ _ _ _ _ E)
      as (v2 & v3 & v4 & v5 & xs & ys & wt & E2 & E3 & E4 & E5 & -> & _).
    simpl. congruence.
  - pose proof (parse_lines_raise _ _ _ _ E) as ->. split; [reflexivity|].
    apply parse_lines_fails in E. destruct E as (i & Hi & Hu).
    exists i. repeat split; auto.
    apply tok_unreadable in Hu.
    unfold required_lines in Hi. rewrite !in_app_iff in Hi.
    destruct Hi as [Hi|[Hi|Hi]].
    + simpl in Hi. destruct Hi as [<-|[<-|[<-|[<-|[]]]]]; congruence.
    + unfold group_lines in Hi. apply in_flat_map in Hi.
      destruct Hi as (j & Hj & Hi). unfold range in Hj. apply in_seq in Hj.
      simpl in Hi. destruct Hi as [<-|[<-|[]]]; lia.
    + simpl in Hi. destruct Hi as [<-|[]]. lia.
Qed.

(** C5. For every report file whose lines at zero-based offsets 2, 3, 4
    and 5 each contain a numeric token, every parser variant forms the
    emergent block from the first numeric token of those four lines, in
    that order, as text: the parse either returns a record with that
    block, or raises [IndexError] because a later required line is missing
    or without a token.  The first two lines are never read: two files
    that agree from the third line on are parsed alike. *)
Theorem C5_emergent_block (fs : filesystem) (fname text : string)
    (w2 w3 w4 w5 : string) :
  fs fname = Ok text ->
  tok (readlines text) 2 = Ok w2 -> tok (readlines text) 3 = Ok w3 ->
  tok (readlines text) 4 = Ok w4 -> tok (readlines text) 5 = Ok w5 ->
  let formed (G : nat) (res : result record) :=
    match res with
    | Ok r => emergent_of r = [VStr w2; VStr w3; VStr w4; VStr w5]
    | Raise e =>
        e = IndexError /\
        exists i, In i (required_lines G) /\ (6 <= i)%nat /\
                  unreadable (readlines text) i
    end in
  (formed 6%nat (parse_otxt_temp fs fname) /\
   formed 2%nat (parse_correlator_temp fs fname) /\
   forall fidsus,
     formed (susceptibility_groups fidsus)
       (parse_susceptibility_temp fs fname fidsus)) /\
  (forall fs' text',
     fs' fname = Ok text' ->
     skipn 2 (readlines text') = skipn 2 (readlines text) ->
     parse_otxt_temp fs' fname = parse_otxt_temp fs fname /\
     parse_correlator_temp fs' fname = parse_correlator_temp fs fname /\
     forall fidsus,
       parse_susceptibility_temp fs' fname fidsus =
       parse_susceptibility_temp fs fname fidsus).
Proof.
  intros Hfs H2 H3 H4 H5 formed. split.
  - subst formed. cbv beta.
    rewrite parse_otxt_temp_lines, parse_correlator_temp_lines,
      (open_some _ _ _ Hfs).
    cbn [bind]. repeat split.
    + now apply parse_lines_emergent.
    + now apply parse_lines_emergent.
    + intros fidsus.
      rewrite parse_susceptibility_temp_lines, (open_some _ _ _ Hfs).
      cbn [bind]. now apply parse_lines_emergent.
  - intros fs' text' Hfs' Hskip.
    rewrite !parse_otxt_temp_lines, !parse_correlator_temp_lines,
      (open_some _ _ _ Hfs), (open_some _ _ _ Hfs').
    cbn [bind]. repeat split.
    + now apply parse_lines_skipn.
    + now apply parse_lines_skipn.
    + intros fidsus.
      rewrite !parse_susceptibility_temp_lines,
        (open_some _ _ _ Hfs), (open_some _ _ _ Hfs').
      cbn [bind]. now apply parse_lines_skipn.
Qed.

Lemma C5_emergent_block_witness :
  exists r,
    parse_otxt_temp (one_file "o.txt" report25) "o.txt" = Ok r /\
    emergent_of r = [VStr "0.98"; VStr "0.01"; VStr "1.5"; VStr "2.0"].
Proof.
  pose proof (proj1 (proj1 (C5_emergent_block (one_file "o.txt" report25) "o.txt"
                       report25 "0.98" "0.01" "1.5" "2.0"
                       eq_refl eq_refl eq_refl eq_refl eq_refl))) as H.
  cbv beta in H.
  destruct (parse_otxt_temp (one_file "o.txt" report25) "o.txt") as [r|e] eqn:E.
  - exists r. split; [reflexivity | exact H].
  - vm_compute in E. discriminate E.
Defined.

(** C8. For every report file in which a line at a required offset is
    missing (the file is truncated before it) or contains no token of the
    numeric grammar, each parser variant raises [IndexError] (Python's
    error for both the out-of-range line and the empty list of matches)
    and so returns no record, partial or not. *)
Theorem C8_all_or_nothing (fs : filesystem) (fname text : string) (i : nat) :
  fs fname = Ok text ->
  unreadable (readlines text) i ->
  (In i (required_lines 6) -> parse_otxt_temp fs fname = Raise IndexError) /\
  (In i (required_lines 2) ->
   parse_correlator_temp fs fname = Raise IndexError) /\
  (forall fidsus,
     In i (required_lines (susceptibility_groups fidsus)) ->
     parse_susceptibility_temp fs fname fidsus = Raise IndexError).
Proof.
  intros Hfs Hu. repeat split.
  - intros Hi. rewrite parse_otxt_temp_lines, (open_some _ _ _ Hfs). cbn [bind].
    apply parse_lines_fails. eauto.
  - intros Hi. rewrite parse_correlator_temp_lines, (open_some _ _ _ Hfs).
    cbn [bind]. apply parse_lines_fails. eauto.
  - intros fidsus Hi.
    rewrite parse_susceptibility_temp_lines, (open_some _ _ _ Hfs).
    cbn [bind]. apply parse_lines_fails. eauto.
Qed.

Lemma C8_all_or_nothing_witness :
  parse_otxt_temp (one_file "o.txt" report24) "o.txt" = Raise IndexError.
Proof.
  apply (proj1 (C8_all_or_nothing (one_file "o.txt" report24) "o.txt" report24 24
                  eq_refl (or_introl eq_refl))).
  vm_compute. tauto.
Defined.

(** C9, as stated, fails: on the 25-line report the full-standard parser
    succeeds and the duration it returns is text, not a number; the same
    holds for the other two parsers on the 13-line report. *)
Lemma C9_duration_real_counterexample :
  (exists r, parse_otxt_temp (one_file "o.txt" report25) "o.txt" = Ok r /\
             is_float (time_of r) = false) /\
  (exists r, parse_correlator_temp (one_file "o.txt" report13) "o.txt" = Ok r /\
             is_float (time_of r) = false) /\
  (exists r, parse_susceptibility_temp (one_file "o.txt" report13) "o.txt"
               (VBool false) = Ok r /\
             is_float (time_of r) = false).
Proof.
  repeat split; eexists; (split; [vm_compute; reflexivity | reflexivity]).
Qed.

Lemma parse_lines_time_text (G : nat) (coerce : bool) (lines : list string) r :
  parse_lines G coerce lines = Ok r ->
  exists w, time_of r = VStr w /\ token_text w /\
            (exists x, Float.float w = Ok x) /\
            In w (concat (map (findall p) lines)).
Proof.
  intros H. destruct (parse_lines_time _ _ _ _ H) as (w & Hw & Ht).
  exists w. split; [exact Ht|]. split; [eapply tok_token; eauto|].
  split; [eapply tok_float; eauto|].
  unfold tok in Hw. destruct (index lines (6 + 3 * G)) as [l|] eqn:El; [|discriminate].
  cbn [bind] in Hw. apply in_concat. exists (findall p l). split.
  - apply in_map. eapply index_In; eauto.
  - eapply index_In; eauto.
Qed.

(** C9, amended. For every successfully parsed report, the duration each
    parser variant returns, as the last component of the record, is the
    text of a numeric token of the report: a string that [float] would
    convert, not itself a number. *)
Theorem C9_duration_text (fs : filesystem) (fname text : string) (r : record) :
  fs fname = Ok text ->
  let textual (t : pyval) :=
    exists w, t = VStr w /\ token_text w /\ (exists x, Float.float w = Ok x) /\
              In w (concat (map (findall p) (readlines text))) in
  (parse_otxt_temp fs fname = Ok r -> textual (time_of r)) /\
  (parse_correlator_temp fs fname = Ok r -> textual (time_of r)) /\
  (forall fidsus,
     parse_susceptibility_temp fs fname fidsus = Ok r -> textual (time_of r)).
Proof.
  intros Hfs textual. subst textual. cbv beta. repeat split.
  - intros H. parse_inv H text Hfs. now apply parse_lines_time_text in H.
  - intros H. parse_inv H text Hfs. now apply parse_lines_time_text in H.
  - intros fidsus H. parse_inv H text Hfs. now apply parse_lines_time_text in H.
Qed.

Lemma C9_duration_text_witness :
  exists w, VStr "7.75" = VStr w /\ token_text w /\
            (exists x, Float.float w = Ok x) /\
            In w (concat (map (findall p) (readlines report13))).
Proof.
  refine (proj1 (proj2 (C9_duration_text (one_file "o.txt" report13) "o.txt" report13
                          (_, _, _, VStr "7.75") eq_refl)) _).
  vm_compute. reflexivity.
Defined.

(** C2, as stated, fails: the correlator parser, and the susceptibility
    parser, return the result-group arrays as lists of text; no element is
    coerced to a floating-point number. *)
Lemma C2_coercion_counterexample :
  (exists r, parse_correlator_temp (one_file "o.txt" report13) "o.txt" = Ok r /\
             array_of r = [VStr "-1.25"; VStr "2"] /\
             std_of r = [VStr "0.5e-1"; VStr "0.25"] /\
             existsb is_float (array_of r ++ std_of r) = false) /\
  (exists r, parse_susceptibility_temp (one_file "o.txt" report16) "o.txt"
               (VBool true) = Ok r /\
             array_of r = [VStr "-1.25"; VStr "2"; VStr "3"] /\
             std_of r = [VStr "0.5e-1"; VStr "0.25"; VStr "0.125"] /\
             existsb is_float (array_of r ++ std_of r) = false).
Proof.
  split; eexists; (split; [vm_compute; reflexivity | repeat split]).
Qed.

Lemma forallb_map_VStr (l : list string) : forallb is_str (map VStr l) = true.
Proof. induction l; simpl; auto. Qed.

Lemma forallb_map_VFloat (l : list spec_float) :
  forallb is_float (map VFloat l) = true.
Proof. induction l; simpl; auto. Qed.

Lemma floats_length (l : list string) (fs : list spec_float) :
  floats l = Ok fs -> length fs = length l.
Proof.
  revert fs. induction l as [|x l IH]; simpl; intros fs H.
  - now inversion H.
  - destruct (Float.float x); [|discriminate]. cbn [bind] in H.
    destruct (floats l) as [fs'|]; [|discriminate]. cbn [bind] in H.
    inversion H; subst. simpl. now rewrite (IH fs').
Qed.

Lemma range_length (a b : nat) : length (range a b) = (b - a)%nat.
Proof. unfold range. apply length_seq. Qed.

(** The types and sizes of what a parse returns. *)
Lemma parse_lines_types (G : nat) (coerce : bool) (lines : list string) r :
  parse_lines G coerce lines = Ok r ->
  forallb is_str (emergent_of r) = true /\ length (emergent_of r) = 4%nat /\
  forallb (if coerce then is_float else is_str) (array_of r) = true /\
  forallb (if coerce then is_float else is_str) (std_of r) = true /\
  length (array_of r) = G /\ length (std_of r) = G /\
  is_str (time_of r) = true.
Proof.
  destruct r as [[[em a] s] t]. intros H.
  destruct (parse_lines_ok _ _ _ _ _ _ _ H)
    as (w2 & w3 & w4 & w5 & xs & ys & wt & _ & _ & _ & _ & -> & Hg & Ha & Hs & _ & ->).
  destruct (for_groups_ok _ _ _ _ _ _ Hg) as (xs' & ys' & -> & -> & Hx & Hy).
  apply Forall2_length_eq in Hx, Hy. rewrite range_length in Hx, Hy.
  cbn [app] in *. apply convert_ok in Ha, Hs. cbn -[Nat.mul Nat.add].
  destruct coerce.
  - destruct Ha as (fa & Ea & ->). destruct Hs as (fs & Es & ->).
    apply floats_length in Ea, Es.
    rewrite !forallb_map_VFloat, !length_map. repeat split; lia.
  - subst a s. rewrite !forallb_map_VStr, !length_map. repeat split; lia.
Qed.

(** C2, amended. For every successfully parsed report, all three parser
    variants return the four emergent-block fields as text;
    [parse_otxt_temp] returns its six estimates and six standard errors
    coerced to floating-point numbers, while [parse_susceptibility_temp]
    and [parse_correlator_temp] return theirs as text, uncoerced. *)
Theorem C2_coercion (fs : filesystem) (fname text : string) (r : record) :
  fs fname = Ok text ->
  (parse_otxt_temp fs fname = Ok r ->
   forallb is_str (emergent_of r) = true /\ length (emergent_of r) = 4%nat /\
   forallb is_float (array_of r) = true /\ forallb is_float (std_of r) = true /\
   length (array_of r) = 6%nat /\ length (std_of r) = 6%nat) /\
  (parse_correlator_temp fs fname = Ok r ->
   forallb is_str (emergent_of r) = true /\ length (emergent_of r) = 4%nat /\
   forallb is_str (array_of r) = true /\ forallb is_str (std_of r) = true /\
   length (array_of r) = 2%nat /\ length (std_of r) = 2%nat) /\
  (forall fidsus,
    parse_susceptibility_temp fs fname fidsus = Ok r ->
    forallb is_str (emergent_of r) = true /\ length (emergent_of r) = 4%nat /\
    forallb is_str (array_of r) = true /\ forallb is_str (std_of r) = true /\
    length (array_of r) = susceptibility_groups fidsus /\
    length (std_of r) = susceptibility_groups fidsus).
Proof.
  intros Hfs. split; [|split]; [intros H | intros H | intros fidsus H];
    parse_inv H text Hfs; apply parse_lines_types in H; tauto.
Qed.

Lemma C2_coercion_witness :
  exists r, parse_otxt_temp (one_file "o.txt" report25) "o.txt" = Ok r /\
            forallb is_float (array_of r) = true /\
            forallb is_str (emergent_of r) = true.
Proof.
  destruct (parse_otxt_temp (one_file "o.txt" report25) "o.txt") as [r|e] eqn:E.
  - exists r. split; [reflexivity|].
    pose proof (proj1 (C2_coercion (one_file "o.txt" report25) "o.txt" report25 r
                         eq_refl) E) as H.
    tauto.
  - vm_compute in E. discriminate E.
Defined.

(** * The parameter-file builders *)

(** ** Lines of a text *)

Lemma split_lines_nonempty (s : string) : split_lines s <> [].
Proof.
  induction s as [|a s IH]; simpl; [discriminate|].
  destruct (Ascii.eqb a nl); [discriminate|].
  destruct (split_lines s); [congruence | discriminate].
Qed.

Lemma split_lines_no_nl (s : string) : no_nl s = true -> split_lines s = [s].
Proof.
  induction s as [|a s IH]; simpl; [reflexivity|].
  destruct (Ascii.eqb a nl); simpl; [discriminate|].
  intros H. apply andb_prop in H as [_ H]. now rewrite IH.
Qed.

Lemma no_nl_no_cr (s : string) : no_nl s = true -> no_cr s = true.
Proof.
  induction s as [|a s IH]; simpl; [reflexivity|]. intros H.
  apply andb_prop in H as [H1 H2]. apply andb_prop in H1 as [_ H1].
  now rewrite H1, IH.
Qed.

(** Text without carriage returns is read as it is. *)
Lemma universal_app (a b : string) :
  no_cr a = true -> universal_newlines (a ++ b) = a ++ universal_newlines b.
Proof.
  induction a as [|x a IH]; [reflexivity|].
  cbn [no_cr String.append universal_newlines]. intros H.
  apply andb_prop in H as [Hx Ha]. apply negb_true_iff in Hx.
  now rewrite Hx, IH.
Qed.

Lemma universal_no_cr (s : string) : no_cr s = true -> universal_newlines s = s.
Proof.
  intros H. rewrite <- (append_nil_r s) at 1.
  rewrite universal_app by exact H. apply append_nil_r.
Qed.

Lemma readlines_no_cr (s : string) : no_cr s = true -> readlines s = keepends s.
Proof. intros H. unfold readlines. now rewrite universal_no_cr. Qed.

Lemma keepends_app_nl (s rest : string) :
  keepends (s ++ String nl rest) =
  (map with_nl (split_lines s) ++ keepends rest)%list.
Proof.
  induction s as [|a s IH]; cbn [String.append keepends split_lines].
  - reflexivity.
  - destruct (Ascii.eqb a nl) eqn:Ha.
    + rewrite IH. apply Ascii.eqb_eq in Ha. now subst.
    + rewrite IH. pose proof (split_lines_nonempty s) as Hn.
      destruct (split_lines s) as [|l ls]; [congruence|]. reflexivity.
Qed.

(** Reading a text whose first part ends with a newline: the lines of
    that part, then the lines of the rest. *)
Lemma readlines_app_nl (s rest : string) :
  no_cr s = true ->
  readlines (s ++ String nl rest) =
  (map with_nl (split_lines s) ++ readlines rest)%list.
Proof.
  intros H. unfold readlines. rewrite universal_app by exact H.
  change (universal_newlines (String nl rest))
    with (String nl (universal_newlines rest)).
  apply keepends_app_nl.
Qed.

Lemma readlines_line (l rest : string) :
  no_nl l = true ->
  readlines (l ++ String nl rest) = with_nl l :: readlines rest.
Proof.
  intros H. rewrite readlines_app_nl by now apply no_nl_no_cr.
  now rewrite split_lines_no_nl.
Qed.

Lemma no_nl_app (a b : string) : no_nl (a ++ b) = no_nl a && no_nl b.
Proof.
  induction a as [|x a IH]; simpl; [reflexivity|].
  rewrite IH. now rewrite !andb_assoc.
Qed.

Lemma no_cr_app (a b : string) : no_cr (a ++ b) = no_cr a && no_cr b.
Proof.
  induction a as [|x a IH]; simpl; [reflexivity|].
  rewrite IH. now rewrite !andb_assoc.
Qed.

Lemma header_notice_no_cr : no_cr header_notice = true.
Proof. vm_compute. reflexivity. Qed.

(** ** Other line ends *)

Lemma universal_crlf (s : string) :
  no_cr s = true ->
  universal_newlines (line_ends_as (String cr (String nl "")) s) = s.
Proof.
  induction s as [|a s IH]; [reflexivity|]. cbn [no_cr line_ends_as]. intros H.
  apply andb_prop in H as [Ha Hs]. apply negb_true_iff in Ha.
  destruct (Ascii.eqb_spec a nl) as [->|Hn].
  - cbn [String.append universal_newlines].
    change (Ascii.eqb cr cr) with true. change (Ascii.eqb nl nl) with true.
    cbv iota. now rewrite IH.
  - cbn [universal_newlines]. now rewrite Ha, IH.
Qed.

Lemma line_ends_as_cr_head (s : string) :
  match line_ends_as (String cr "") s with
  | String b _ => Ascii.eqb b nl = false
  | EmptyString => True
  end.
Proof.
  destruct s as [|a s]; [exact I|]. cbn [line_ends_as].
  destruct (Ascii.eqb a nl) eqn:E; [reflexivity | exact E].
Qed.

Lemma universal_cr (s : string) :
  no_cr s = true -> universal_newlines (line_ends_as (String cr "") s) = s.
Proof.
  induction s as [|a s IH]; [reflexivity|]. cbn [no_cr line_ends_as]. intros H.
  apply andb_prop in H as [Ha Hs]. apply negb_true_iff in Ha.
  destruct (Ascii.eqb_spec a nl) as [->|Hn].
  - cbn [String.append universal_newlines].
    change (Ascii.eqb cr cr) with true. cbv iota.
    pose proof (line_ends_as_cr_head s) as Hh. specialize (IH Hs).
    destruct (line_ends_as (String cr "") s) as [|b r].
    + now rewrite <- IH.
    + now rewrite Hh, IH.
  - cbn [universal_newlines]. now rewrite Ha, IH.
Qed.

(** A text written with carriage returns, or with carriage returns and
    line feeds, for its line ends is read as the text with line feeds. *)
Lemma readlines_line_ends (s : string) :
  no_cr s = true ->
  readlines (line_ends_as (String cr "") s) = readlines s /\
  readlines (line_ends_as (String cr (String nl "")) s) = readlines s.
Proof.
  intros H. unfold readlines.
  now rewrite universal_cr, universal_crlf, universal_no_cr.
Qed.

(** ** The header, line by line *)

Lemma unlines_app (l1 l2 : list string) :
  unlines (l1 ++ l2) = unlines l1 ++ unlines l2.
Proof.
  induction l1 as [|x l1 IH]; simpl; [reflexivity|].
  now rewrite IH, append_assoc.
Qed.

(** The header is its notice, a newline, and the six parameter lines. *)
Lemma header_lines (beta tau Tsteps steps spm parity : pyval) :
  make_param_file_header beta tau (Some Tsteps) (Some steps) (Some spm)
    (Some parity) =
  header_notice ++
    String nl (unlines (param_lines Tsteps steps spm beta tau parity)).
Proof.
  unfold make_param_file_header, param_lines, dflt.
  unfold line_Tsteps, line_steps, line_stepsPerMeasurement, line_beta,
    line_tau, line_parity.
  f_equal. cbn [unlines String.append].
  repeat (rewrite (append_assoc (fmt _)); cbn [String.append]).
  reflexivity.
Qed.

Lemma readlines_unlines (ls : list string) (rest : string) :
  forallb no_nl ls = true ->
  readlines (unlines ls ++ rest) = (map with_nl ls ++ readlines rest)%list.
Proof.
  induction ls as [|l ls IH]; simpl; intros H; [reflexivity|].
  apply andb_prop in H as [Hl Hls].
  rewrite (append_assoc l). cbn [String.append].
  now rewrite readlines_line, IH.
Qed.

Lemma readlines_prefixed (notice rest : string) (ls : list string) :
  no_cr notice = true -> forallb no_nl ls = true ->
  readlines ((notice ++ String nl (unlines ls)) ++ rest) =
  (map with_nl (split_lines notice) ++ map with_nl ls ++ readlines rest)%list.
Proof.
  intros Hn H. rewrite (append_assoc notice). cbn [String.append].
  rewrite readlines_app_nl by exact Hn. f_equal. now apply readlines_unlines.
Qed.

(** Reading a text that starts with the header. *)
Lemma readlines_header (beta tau Tsteps steps spm parity : pyval) (rest : string) :
  forallb no_nl (param_lines Tsteps steps spm beta tau parity) = true ->
  readlines
    (make_param_file_header beta tau (Some Tsteps) (Some steps) (Some spm)
       (Some parity) ++ rest) =
  (map with_nl notice_lines ++
   map with_nl (param_lines Tsteps steps spm beta tau parity) ++
   readlines rest)%list.
Proof.
  intros H. rewrite header_lines.
  exact (readlines_prefixed header_notice rest _ header_notice_no_cr H).
Qed.

(** * More on the report parsers *)

Lemma tokens_at_Forall2 (lines : list string) (g : nat -> nat) js xs :
  Forall2 (fun j x => tok lines (g j) = Ok x) js xs ->
  tokens_at lines (map g js) = Ok xs.
Proof.
  induction 1 as [|j x js xs Hx _ IH]; simpl; [reflexivity|].
  now rewrite Hx, IH.
Qed.

Lemma for_groups_tokens (lines : list string) (G : nat) xs ys :
  for_groups lines (range 1 (G + 1)) [] [] = Ok (xs, ys) ->
  tokens_at lines (estimate_lines G) = Ok xs /\
  tokens_at lines (error_lines G) = Ok ys.
Proof.
  intros H. destruct (for_groups_ok _ _ _ _ _ _ H) as (xs' & ys' & -> & -> & Hx & Hy).
  cbn [app]. split; apply tokens_at_Forall2.
  - eapply Forall2_impl; [|exact Hx]. intros j x E. cbv beta in *.
    replace (4 + 3 * j)%nat with (6 + 3 * j - 2)%nat by lia. exact E.
  - eapply Forall2_impl; [|exact Hy]. intros j y E. cbv beta in *.
    replace (5 + 3 * j)%nat with (6 + 3 * j - 2 + 1)%nat by lia. exact E.
Qed.

(** The content of a successful parse: which line each value comes from. *)
Lemma parse_lines_content (G : nat) (coerce : bool) (lines : list string) r :
  parse_lines G coerce lines = Ok r ->
  exists em xs ys wt,
    tokens_at lines [2; 3; 4; 5]%nat = Ok em /\
    tokens_at lines (estimate_lines G) = Ok xs /\
    tokens_at lines (error_lines G) = Ok ys /\
    tok lines (6 + 3 * G) = Ok wt /\
    emergent_of r = map VStr em /\
    convert coerce xs = Ok (array_of r) /\
    convert coerce ys = Ok (std_of r) /\
    time_of r = VStr wt.
Proof.
  destruct r as [[[em a] s] t]. intros H.
  destruct (parse_lines_ok _ _ _ _ _ _ _ H)
    as (w2 & w3 & w4 & w5 & xs & ys & wt & H2 & H3 & H4 & H5 & -> & Hg & Ha & Hs & Ht & ->).
  destruct (for_groups_tokens _ _ _ _ Hg) as [Hx Hy].
  exists [w2; w3; w4; w5], xs, ys, wt. cbn [tokens_at].
  rewrite H2, H3, H4, H5. cbn [bind]. repeat split; auto.
Qed.

Lemma tokens_at_map_inv (lines : list string) (g : nat -> nat) js xs :
  tokens_at lines (map g js) = Ok xs ->
  Forall2 (fun j x => tok lines (g j) = Ok x) js xs.
Proof.
  revert xs. induction js as [|j js IH]; simpl; intros xs H.
  - inversion H. constructor.
  - bind_inv H as w. bind_inv H as ws. inversion H; subst.
    constructor; auto.
Qed.

Lemma for_groups_Forall2 (lines : list string) (js : list nat) xs ys :
  Forall2 (fun j x => tok lines (6 + 3 * j - 2) = Ok x) js xs ->
  Forall2 (fun j y => tok lines (6 + 3 * j - 2 + 1) = Ok y) js ys ->
  forall a s,
    for_groups lines js a s = Ok ((a ++ xs)%list, (s ++ ys)%list).
Proof.
  intros Hx. revert ys. induction Hx as [|j x js xs Ex _ IH]; intros ys Hy a s.
  - inversion Hy; subst. now rewrite !app_nil_r.
  - inversion Hy as [|j' y js' ys' Ey Hy']; subst.
    cbn [for_groups]. rewrite Ex. cbn [bind]. rewrite Ey. cbn [bind].
    rewrite (IH _ Hy'). now rewrite <- !app_assoc.
Qed.

Lemma for_groups_of_tokens (lines : list string) (G : nat) xs ys :
  tokens_at lines (estimate_lines G) = Ok xs ->
  tokens_at lines (error_lines G) = Ok ys ->
  for_groups lines (range 1 (G + 1)) [] [] = Ok (xs, ys).
Proof.
  intros Hx Hy. apply tokens_at_map_inv in Hx, Hy.
  apply (for_groups_Forall2 lines _ xs ys).
  - eapply Forall2_impl; [|exact Hx]. intros j x E. cbv beta in *.
    replace (6 + 3 * j - 2)%nat with (4 + 3 * j)%nat by lia. exact E.
  - eapply Forall2_impl; [|exact Hy]. intros j y E. cbv beta in *.
    replace (6 + 3 * j - 2 + 1)%nat with (5 + 3 * j)%nat by lia. exact E.
Qed.

(** A parse, as a relation between the lines and the record. *)
Lemma parse_lines_iff (G : nat) (coerce : bool) (lines : list string) r :
  parse_lines G coerce lines = Ok r <->
  exists em xs ys a s wt,
    tokens_at lines [2; 3; 4; 5]%nat = Ok em /\
    tokens_at lines (estimate_lines G) = Ok xs /\
    tokens_at lines (error_lines G) = Ok ys /\
    tok lines (6 + 3 * G) = Ok wt /\
    convert coerce xs = Ok a /\ convert coerce ys = Ok s /\
    r = (map VStr em, a, s, VStr wt).
Proof.
  split.
  - intros H. destruct (parse_lines_content _ _ _ _ H)
      as (em & xs & ys & wt & He & Hx & Hy & Ht & E1 & E2 & E3 & E4).
    exists em, xs, ys, (array_of r), (std_of r), wt.
    destruct r as [[[e a] s] t]. simpl in *. subst. repeat split; auto.
  - intros (em & xs & ys & a & s & wt & He & Hx & Hy & Ht & Ha & Hs & ->).
    unfold parse_lines. cbn [tokens_at] in He.
    destruct (tok lines 2) as [t2|]; [|discriminate He].
    destruct (tok lines 3) as [t3|]; [|discriminate He].
    destruct (tok lines 4) as [t4|]; [|discriminate He].
    destruct (tok lines 5) as [t5|]; [|discriminate He].
    cbn [bind] in *. inversion He; subst. cbn [map].
    rewrite (for_groups_of_tokens _ _ _ _ Hx Hy). cbn [bind fst snd].
    rewrite Ha, Hs. cbn [bind]. rewrite Ht. reflexivity.
Qed.

Lemma for_groups_ext (lines lines' : list string) (js : list nat) :
  (forall i, In i (group_lines js) -> tok lines i = tok lines' i) ->
  forall a s, for_groups lines js a s = for_groups lines' js a s.
Proof.
  induction js as [|j js IH]; intros H a s; cbn [for_groups]; [reflexivity|].
  rewrite <- (H (6 + 3 * j - 2)%nat), <- (H (6 + 3 * j - 2 + 1)%nat)
    by (cbn [group_lines flat_map app In]; auto).
  destruct (tok lines (6 + 3 * j - 2)); [|reflexivity]. cbn [bind].
  destruct (tok lines (6 + 3 * j - 2 + 1)); [|reflexivity]. cbn [bind].
  apply IH. intros i Hi. apply H. cbn [group_lines flat_map app In]. auto.
Qed.

(** Only the lines at the required offsets matter. *)
Lemma parse_lines_ext (G : nat) (coerce : bool) (lines lines' : list string) :
  (forall i, In i (required_lines G) ->
             nth_error lines i = nth_error lines' i) ->
  parse_lines G coerce lines = parse_lines G coerce lines'.
Proof.
  intros H.
  assert (forall i, In i (required_lines G) -> tok lines i = tok lines' i) as Ht.
  { intros i Hi. unfold tok, index. now rewrite (H i Hi). }
  unfold parse_lines.
  rewrite (Ht 2%nat), (Ht 3%nat), (Ht 4%nat), (Ht 5%nat), (Ht (6 + 3 * G)%nat)
    by (unfold required_lines; rewrite !in_app_iff; simpl; auto 10).
  rewrite (for_groups_ext lines lines'); [reflexivity|].
  intros i Hi. apply Ht. unfold required_lines. rewrite !in_app_iff. auto.
Qed.

(** * Further properties of the parsers *)

Lemma convert_true_iff (l : list string) (vs : list pyval) :
  convert true l = Ok vs <-> exists fs, floats l = Ok fs /\ vs = map VFloat fs.
Proof.
  unfold convert. split.
  - destruct (floats l) as [fs|]; [|discriminate]. cbn [bind].
    intros H; inversion H; eauto.
  - intros (fs & -> & ->). reflexivity.
Qed.

Lemma convert_false_iff (l : list string) (vs : list pyval) :
  convert false l = Ok vs <-> vs = map VStr l.
Proof. unfold convert. split; [intros H; now inversion H | now intros ->]. Qed.

(** X1. [parse_otxt_temp] returns a record exactly when lines 2-5, the
    estimate lines 7, 10, ..., 22, the error lines 8, 11, ..., 23 and line
    24 each hold a token; the record is then the four emergent tokens as
    text, the six estimates and the six errors as [float]s of their
    tokens, and the token of line 24 as text. *)
Theorem parse_otxt_temp_record (fs : filesystem) (fname text : string)
    (r : record) :
  fs fname = Ok text ->
  (parse_otxt_temp fs fname = Ok r <->
   exists em xs ys fx fy wt,
     tokens_at (readlines text) [2; 3; 4; 5]%nat = Ok em /\
     tokens_at (readlines text) [7; 10; 13; 16; 19; 22]%nat = Ok xs /\
     tokens_at (readlines text) [8; 11; 14; 17; 20; 23]%nat = Ok ys /\
     tok (readlines text) 24 = Ok wt /\
     floats xs = Ok fx /\ floats ys = Ok fy /\
     r = (map VStr em, map VFloat fx, map VFloat fy, VStr wt)).
Proof.
  intros Hfs. rewrite parse_otxt_temp_lines, (open_some _ _ _ Hfs).
  cbn [bind]. rewrite parse_lines_iff.
  change (estimate_lines 6) with [7; 10; 13; 16; 19; 22]%nat.
  change (error_lines 6) with [8; 11; 14; 17; 20; 23]%nat.
  change (6 + 3 * 6)%nat with 24%nat.
  split.
  - intros (em & xs & ys & a & s & wt & He & Hx & Hy & Ht & Ha & Hs & ->).
    apply convert_true_iff in Ha, Hs.
    destruct Ha as (fx & Hfx & ->). destruct Hs as (fy & Hfy & ->).
    exists em, xs, ys, fx, fy, wt. repeat split; auto.
  - intros (em & xs & ys & fx & fy & wt & He & Hx & Hy & Ht & Hfx & Hfy & ->).
    exists em, xs, ys, (map VFloat fx), (map VFloat fy), wt.
    repeat split; auto; apply convert_true_iff; eauto.
Qed.

Lemma parse_otxt_temp_record_witness :
  exists r, parse_otxt_temp (one_file "o.txt" report25) "o.txt" = Ok r /\
            time_of r = VStr "12.5".
Proof.
  eexists. split.
  - apply (proj2 (parse_otxt_temp_record (one_file "o.txt" report25) "o.txt"
                    report25 _ eq_refl)).
    do 6 eexists. repeat split; try (vm_compute; reflexivity).
  - reflexivity.
Defined.

(** A parse without coercion, as a relation. *)
Lemma parse_lines_uncoerced (G : nat) (lines : list string) (r : record) :
  parse_lines G false lines = Ok r <->
  exists em xs ys wt,
    tokens_at lines [2; 3; 4; 5]%nat = Ok em /\
    tokens_at lines (estimate_lines G) = Ok xs /\
    tokens_at lines (error_lines G) = Ok ys /\
    tok lines (6 + 3 * G) = Ok wt /\
    r = (map VStr em, map VStr xs, map VStr ys, VStr wt).
Proof.
  rewrite parse_lines_iff. split.
  - intros (em & xs & ys & a & s & wt & He & Hx & Hy & Ht & Ha & Hs & ->).
    apply convert_false_iff in Ha, Hs. subst.
    exists em, xs, ys, wt. repeat split; auto.
  - intros (em & xs & ys & wt & He & Hx & Hy & Ht & ->).
    exists em, xs, ys, (map VStr xs), (map VStr ys), wt. repeat split; auto.
Qed.

(** X2. [parse_correlator_temp] and [parse_susceptibility_temp] return a
    record exactly when lines 2-5, the estimate and error lines of their
    [G] groups (7, 10, ... and 8, 11, ...) and line [6 + 3*G] each hold a
    token ([G] is 2 for the correlator parser; 3 or 2 for the
    susceptibility parser); every component of the record is then the text
    of the token, unconverted. *)
Theorem parse_uncoerced_record (fs : filesystem) (fname text : string)
    (r : record) :
  fs fname = Ok text ->
  let reads (G : nat) :=
    exists em xs ys wt,
      tokens_at (readlines text) [2; 3; 4; 5]%nat = Ok em /\
      tokens_at (readlines text) (estimate_lines G) = Ok xs /\
      tokens_at (readlines text) (error_lines G) = Ok ys /\
      tok (readlines text) (6 + 3 * G) = Ok wt /\
      r = (map VStr em, map VStr xs, map VStr ys, VStr wt) in
  (parse_correlator_temp fs fname = Ok r <-> reads 2%nat) /\
  (forall fidsus,
     parse_susceptibility_temp fs fname fidsus = Ok r <->
     reads (susceptibility_groups fidsus)).
Proof.
  intros Hfs reads. subst reads. cbv beta. split.
  - rewrite parse_correlator_temp_lines, (open_some _ _ _ Hfs).
    apply parse_lines_uncoerced.
  - intros fidsus.
    rewrite parse_susceptibility_temp_lines, (open_some _ _ _ Hfs).
    apply parse_lines_uncoerced.
Qed.

Lemma parse_uncoerced_record_witness :
  parse_correlator_temp (one_file "o.txt" report13) "o.txt" =
  Ok (map VStr ["0.98"; "0.01"; "1.5"; "2.0"], map VStr ["-1.25"; "2"],
      map VStr ["0.5e-1"; "0.25"], VStr "7.75").
Proof.
  apply (proj2 (proj1 (parse_uncoerced_record (one_file "o.txt" report13) "o.txt"
                         report13 _ eq_refl))).
  exists ["0.98"; "0.01"; "1.5"; "2.0"], ["-1.25"; "2"], ["0.5e-1"; "0.25"], "7.75".
  repeat split; vm_compute; reflexivity.
Defined.

(** X3. [parse_susceptibility_temp] tests its flag with [fidsus == True]:
    the integer 1 and the float 1.0 select the three-group layout just as
    [True] does, and with any flag that does not compare equal to [True]
    (such as [False], 0, 2, [None] or a string) the function is
    [parse_correlator_temp]. *)
Theorem parse_susceptibility_flag (fs : filesystem) (fname : string)
    (fidsus : pyval) :
  parse_susceptibility_temp fs fname (VInt 1) =
    parse_susceptibility_temp fs fname (VBool true) /\
  parse_susceptibility_temp fs fname (VFloat (b64 false 4503599627370496 (-52))) =
    parse_susceptibility_temp fs fname (VBool true) /\
  (py_eq fidsus (VBool true) = false ->
   parse_susceptibility_temp fs fname fidsus = parse_correlator_temp fs fname).
Proof.
  repeat split.
  intros H. rewrite parse_susceptibility_temp_lines, parse_correlator_temp_lines.
  unfold susceptibility_groups. now rewrite H.
Qed.

Lemma parse_susceptibility_flag_witness :
  parse_susceptibility_temp (one_file "o.txt" report13) "o.txt" (VStr "True") =
  parse_correlator_temp (one_file "o.txt" report13) "o.txt".
Proof.
  exact (proj2 (proj2 (parse_susceptibility_flag (one_file "o.txt" report13)
                         "o.txt" (VStr "True"))) eq_refl).
Defined.

Lemma tokens_at_app (lines : list string) (l1 l2 : list nat) (ws : list string) :
  tokens_at lines (l1 ++ l2) = Ok ws ->
  exists w1 w2, tokens_at lines l1 = Ok w1 /\ tokens_at lines l2 = Ok w2 /\
                ws = (w1 ++ w2)%list.
Proof.
  revert ws. induction l1 as [|i l1 IH]; cbn [app tokens_at]; intros ws H.
  - exists [], ws. auto.
  - destruct (tok lines i) as [w|]; [|discriminate H]. cbn [bind] in *.
    destruct (tokens_at lines (l1 ++ l2)) as [ws'|] eqn:E; [|discriminate H].
    cbn [bind] in H. inversion H; subst.
    destruct (IH ws' eq_refl) as (w1 & w2 & -> & E2 & ->).
    exists (w :: w1), w2. auto.
Qed.

(** X4. On one and the same file, when [parse_susceptibility_temp]
    succeeds both with and without the fidelity-susceptibility flag, the
    two records have the same emergent block, and the flagged one has
    exactly one more result group: its arrays are those of the other
    followed by the tokens of lines 13 and 14; its duration comes from
    line 15 instead of line 12. *)
Theorem susceptibility_one_more_group (fs : filesystem) (fname text : string)
    (r3 r2 : record) :
  fs fname = Ok text ->
  parse_susceptibility_temp fs fname (VBool true) = Ok r3 ->
  parse_susceptibility_temp fs fname (VBool false) = Ok r2 ->
  exists x y t3 t2,
    tok (readlines text) 13 = Ok x /\ tok (readlines text) 14 = Ok y /\
    tok (readlines text) 15 = Ok t3 /\ tok (readlines text) 12 = Ok t2 /\
    emergent_of r3 = emergent_of r2 /\
    array_of r3 = (array_of r2 ++ [VStr x])%list /\
    std_of r3 = (std_of r2 ++ [VStr y])%list /\
    time_of r3 = VStr t3 /\ time_of r2 = VStr t2.
Proof.
  intros Hfs H3 H2.
  rewrite parse_susceptibility_temp_lines, (open_some _ _ _ Hfs) in H3, H2.
  cbn [bind] in H3, H2. apply parse_lines_uncoerced in H3, H2.
  change (susceptibility_groups (VBool true)) with 3%nat in H3.
  change (susceptibility_groups (VBool false)) with 2%nat in H2.
  destruct H3 as (em & xs & ys & wt & He & Hx & Hy & Ht & ->).
  destruct H2 as (em' & xs' & ys' & wt' & He' & Hx' & Hy' & Ht' & ->).
  change (estimate_lines 3) with (estimate_lines 2 ++ [13])%list%nat in Hx.
  change (error_lines 3) with (error_lines 2 ++ [14])%list%nat in Hy.
  apply tokens_at_app in Hx, Hy.
  destruct Hx as (x1 & x2 & Ex1 & Ex2 & ->). destruct Hy as (y1 & y2 & Ey1 & Ey2 & ->).
  cbn [tokens_at] in Ex2, Ey2.
  destruct (tok (readlines text) 13) as [x|]; [|discriminate Ex2].
  destruct (tok (readlines text) 14) as [y|]; [|discriminate Ey2].
  cbn [bind] in Ex2, Ey2. inversion Ex2; inversion Ey2; subst.
  exists x, y, wt, wt'. cbn [emergent_of array_of std_of time_of].
  rewrite !map_app. cbn [map].
  repeat split; auto; congruence.
Qed.

Lemma susceptibility_one_more_group_witness :
  exists x y t3 t2,
    tok (readlines report16) 13 = Ok x /\ tok (readlines report16) 14 = Ok y /\
    tok (readlines report16) 15 = Ok t3 /\ tok (readlines report16) 12 = Ok t2 /\
    map VStr ["0.98"; "0.01"; "1.5"; "2.0"] = map VStr ["0.98"; "0.01"; "1.5"; "2.0"] /\
    map VStr ["-1.25"; "2"; "3"] = (map VStr ["-1.25"; "2"] ++ [VStr x])%list /\
    map VStr ["0.5e-1"; "0.25"; "0.125"] = (map VStr ["0.5e-1"; "0.25"] ++ [VStr y])%list /\
    VStr "9" = VStr t3 /\ VStr "3" = VStr t2.
Proof.
  exact (susceptibility_one_more_group (one_file "o.txt" report16) "o.txt" report16
           (map VStr ["0.98"; "0.01"; "1.5"; "2.0"], map VStr ["-1.25"; "2"; "3"],
            map VStr ["0.5e-1"; "0.25"; "0.125"], VStr "9")
           (map VStr ["0.98"; "0.01"; "1.5"; "2.0"], map VStr ["-1.25"; "2"],
            map VStr ["0.5e-1"; "0.25"], VStr "3")
           eq_refl eq_refl eq_refl).
Defined.

(** X5. A parser reads nothing but the lines at its required offsets: two
    files that agree on those lines (whatever their two header lines, the
    label line before each result group, or anything after the duration
    line) give the same result, be it a record or an error. *)
Theorem parse_reads_required_lines_only (fs fs' : filesystem)
    (fname text text' : string) :
  fs fname = Ok text -> fs' fname = Ok text' ->
  let agree (G : nat) :=
    forall i, In i (required_lines G) ->
              nth_error (readlines text) i = nth_error (readlines text') i in
  (agree 6%nat -> parse_otxt_temp fs fname = parse_otxt_temp fs' fname) /\
  (agree 2%nat ->
   parse_correlator_temp fs fname = parse_correlator_temp fs' fname) /\
  (forall fidsus,
     agree (susceptibility_groups fidsus) ->
     parse_susceptibility_temp fs fname fidsus =
     parse_susceptibility_temp fs' fname fidsus).
Proof.
  intros Hfs Hfs' agree. subst agree. cbv beta.
  split; [|split]; [intros H | intros H | intros fidsus H].
  - rewrite !parse_otxt_temp_lines, (open_some _ _ _ Hfs), (open_some _ _ _ Hfs').
    now apply parse_lines_ext.
  - rewrite !parse_correlator_temp_lines, (open_some _ _ _ Hfs),
      (open_some _ _ _ Hfs').
    now apply parse_lines_ext.
  - rewrite !parse_susceptibility_temp_lines, (open_some _ _ _ Hfs),
      (open_some _ _ _ Hfs').
    now apply parse_lines_ext.
Qed.

Lemma parse_reads_required_lines_only_witness :
  parse_correlator_temp (one_file "o.txt" report13) "o.txt" =
  parse_correlator_temp (one_file "o.txt" report13_variant) "o.txt".
Proof.
  apply (proj1 (proj2 (parse_reads_required_lines_only
                         (one_file "o.txt" report13) (one_file "o.txt" report13_variant)
                         "o.txt" report13 report13_variant eq_refl eq_refl))).
  intros i Hi. vm_compute in Hi.
  repeat (destruct Hi as [<-|Hi]; [vm_compute; reflexivity|]). destruct Hi.
Defined.

(** X6. The outcomes of a parse.  When opening or reading the file
    raises an exception (no such file, a directory, bytes that do not
    decode, ...), each parser raises that exception.  When the file is
    read, the parser returns a record exactly when every required line
    holds a token, and otherwise raises [IndexError], one required line
    being missing or without a token; no other exception comes from the
    parser's own code: in [parse_otxt_temp], [float] is only applied to
    tokens of the pattern, which it always accepts. *)
Theorem parse_outcomes (fs : filesystem) (fname : string) :
  let outcome (G : nat) (res : result record) :=
    match open fs fname with
    | Raise e => res = Raise e
    | Ok text =>
        match res with
        | Ok _ =>
            forall i, In i (required_lines G) ->
                      exists w, tok (readlines text) i = Ok w
        | Raise e =>
            e = IndexError /\
            exists i, In i (required_lines G) /\ unreadable (readlines text) i
        end
    end in
  outcome 6%nat (parse_otxt_temp fs fname) /\
  outcome 2%nat (parse_correlator_temp fs fname) /\
  forall fidsus,
    outcome (susceptibility_groups fidsus)
      (parse_susceptibility_temp fs fname fidsus).
Proof.
  intros outcome.
  assert (forall G coerce,
            outcome G (text <- open fs fname ;; parse_lines G coerce (readlines text)))
    as H.
  { intros G coerce. subst outcome. cbv beta.
    destruct (open fs fname) as [text|e0]; cbn [bind]; [|reflexivity].
    destruct (parse_lines G coerce (readlines text)) as [r|e] eqn:E.
    - eapply parse_lines_reads; eauto.
    - pose proof (parse_lines_raise _ _ _ _ E) as ->.
      split; [reflexivity|]. now apply parse_lines_fails in E. }
  split; [|split]; [|  |intros fidsus].
  - rewrite parse_otxt_temp_lines. apply H.
  - rewrite parse_correlator_temp_lines. apply H.
  - rewrite parse_susceptibility_temp_lines. apply H.
Qed.

(** * Further properties of the pattern *)

Lemma token_text_nonempty (w : string) : token_text w -> nonempty w = true.
Proof.
  intros [->|(sg & ds & fr & ex & -> & Hsg & _ & _ & _ & Hn)]; [reflexivity|].
  destruct Hsg as [->|[->| ->]]; [|reflexivity|reflexivity].
  simpl. destruct ds as [|a ds]; [|reflexivity].
  simpl in *. destruct fr; [discriminate | reflexivity].
Qed.

Lemma digit_starts_token (a : ascii) (s : string) :
  is_digit a = true -> exists r, Scan.token (String a s) = Some r.
Proof.
  intros Ha. unfold Scan.token, Scan.number.
  assert (mem_char a "-+" = false) as ->.
  { destruct a as [[] [] [] [] [] [] [] []]; try discriminate; reflexivity. }
  unfold Scan.unsigned, Scan.mantissa. cbn [Float.span_digits]. rewrite Ha.
  destruct (Float.span_digits s) as [ds r]. cbn [nonempty].
  destruct r as [|c r']; [simpl; eauto|].
  destruct (Ascii.eqb c "."); [|simpl; eauto].
  destruct (Float.span_digits r') as [fs r''].
  destruct (nonempty fs); simpl; eauto.
Qed.

Lemma drop_app_length (w r : string) : drop (String.length w) (w ++ r) = r.
Proof. induction w as [|a w IH]; [destruct r; reflexivity | exact IH]. Qed.

(** The scan from any position: what is left of the text is a gap
    without digits, then tokens and gaps in turn. *)
Lemma findall_from_weave (s : string) :
  forall skip,
    exists g0 gs,
      length gs = length (findall_from p skip s) /\
      drop skip s = g0 ++ weave (findall_from p skip s) gs /\
      has_digit g0 = false /\ forallb (fun g => negb (has_digit g)) gs = true.
Proof.
  induction s as [|a s IH]; intros skip.
  - exists "", []. destruct skip; repeat split; reflexivity.
  - destruct skip as [|n]; [|exact (IH n)].
    change (drop 0 (String a s)) with (String a s).
    destruct (Scan.token (String a s)) as [r|] eqn:E.
    + destruct (scan_token_spec _ _ E) as (w & Ew & Hw).
      pose proof (token_text_nonempty w Hw) as Hn.
      destruct w as [|b w]; [discriminate|].
      cbn [String.append] in Ew. injection Ew as <- ->.
      change (String a (w ++ r)) with (String a w ++ r) in *.
      change (findall_from p 0 (String a w ++ r))
        with (findall p (String a w ++ r)).
      rewrite (findall_token (String a w) r Hn E). unfold findall.
      rewrite <- (findall_from_skip p w r).
      destruct (IH (String.length w)) as (g0 & gs & Hl & Hd & Hg0 & Hgs).
      rewrite drop_app_length in Hd.
      exists "", (g0 :: gs). cbn [length weave forallb String.append].
      rewrite Hg0, Hgs, <- Hd, Hl. repeat split; reflexivity.
    + assert (is_digit a = false) as Ha.
      { destruct (is_digit a) eqn:Ha; [|reflexivity].
        destruct (digit_starts_token a s Ha) as [r Hr]. congruence. }
      change (findall_from p 0 (String a s)) with (findall p (String a s)).
      rewrite (findall_no_token a s E). unfold findall.
      destruct (IH 0%nat) as (g0 & gs & Hl & Hd & Hg0 & Hgs).
      assert (drop 0 s = s) as Hd0 by (destruct s; reflexivity).
      rewrite Hd0 in Hd.
      exists (String a g0), gs. cbn [String.append has_digit].
      rewrite <- Hd, Hg0, Hgs, Hl, Ha. repeat split; reflexivity.
Qed.

(** X7. Matching the pattern at a position, with the priorities and the
    backtracking of Python's [re], consumes exactly what a one-pass
    scanner consumes: an optional sign, the run of digits, a point only
    when digits follow it, an exponent only when it is complete; failing
    that, the literal [nan].  So no choice made early in the match is ever
    revised in a way that a left-to-right reader of the line would not
    expect. *)
Theorem pattern_is_scanner (s : string) : match_here p s = Scan.token s.
Proof. apply match_here_scan. Qed.

(** X8. Whatever [findall] extracts with the pattern, from any line,
    [float] accepts: no token of the pattern makes [float] raise
    [ValueError]. *)
Theorem findall_tokens_float (line w : string) :
  In w (findall p line) -> exists x, Float.float w = Ok x.
Proof.
  intros H. apply float_token_ok.
  pose proof (findall_tokens line) as F. rewrite Forall_forall in F. auto.
Qed.

Lemma findall_tokens_float_witness :
  exists x, Float.float "-3.2e-5" = Ok x.
Proof.
  apply (findall_tokens_float "-3.2e-5 nan 42" "-3.2e-5").
  vm_compute. auto.
Defined.

(** X9. [findall] with the pattern cuts a line into gaps and tokens
    without losing or repeating a character: the line is a first gap
    followed by each token and the gap after it; no token is empty, and
    no gap contains a digit, so every digit of the line ends up inside
    some token. *)
Theorem findall_accounts_for_digits (line : string) :
  exists g0 gs,
    length gs = length (findall p line) /\
    line = g0 ++ weave (findall p line) gs /\
    has_digit g0 = false /\
    forallb (fun g => negb (has_digit g)) gs = true /\
    forallb nonempty (findall p line) = true.
Proof.
  destruct (findall_from_weave line 0) as (g0 & gs & Hl & Hd & Hg0 & Hgs).
  exists g0, gs. repeat split; auto.
  apply forallb_forall. intros w Hw. apply token_text_nonempty.
  pose proof (findall_tokens line) as F. rewrite Forall_forall in F. auto.
Qed.

(** * The text of numbers has no newline *)

Lemma numeric_chars_app (a b : string) :
  numeric_chars (a ++ b) = numeric_chars a && numeric_chars b.
Proof.
  induction a as [|x a IH]; simpl; [reflexivity|].
  now rewrite IH, andb_assoc.
Qed.

Lemma numeric_chars_uint (u : Decimal.uint) :
  numeric_chars (NilEmpty.string_of_uint u) = true.
Proof. induction u; simpl; auto. Qed.

Lemma numeric_chars_int (z : Z) : numeric_chars (Repr.int z) = true.
Proof.
  unfold Repr.int.
  assert (forall u, numeric_chars (NilZero.string_of_uint u) = true) as H.
  { intros u. unfold NilZero.string_of_uint.
    destruct u; try reflexivity; apply (numeric_chars_uint (_ _)). }
  destruct z; simpl; auto.
Qed.

Lemma numeric_chars_rev (s acc : string) :
  numeric_chars s = true -> numeric_chars acc = true ->
  numeric_chars (Repr.rev_str s acc) = true.
Proof.
  revert acc. induction s as [|a s IH]; simpl; intros acc Hs Ha; [exact Ha|].
  apply andb_prop in Hs as [H1 H2]. apply IH; auto. simpl. now rewrite H1.
Qed.

Lemma numeric_chars_strip (s : string) :
  numeric_chars s = true -> numeric_chars (Repr.strip_zeros s) = true.
Proof.
  induction s as [|a s IH]; intros H; [reflexivity|].
  pose proof H as H'. simpl in H'. apply andb_prop in H' as [_ H2].
  unfold Repr.strip_zeros; fold Repr.strip_zeros.
  destruct (Ascii.eqb_spec a "0") as [->|Hn]; [now apply IH|].
  destruct a as [[] [] [] [] [] [] [] []]; try exact H; congruence.
Qed.

Lemma numeric_chars_zeros (n : nat) : numeric_chars (Repr.zeros n) = true.
Proof. induction n; simpl; auto. Qed.

Lemma numeric_chars_substring (s : string) :
  numeric_chars s = true ->
  forall a b, numeric_chars (substring a b s) = true.
Proof.
  induction s as [|x s IH]; intros H a b.
  - destruct a, b; reflexivity.
  - simpl in H. apply andb_prop in H as [H1 H2].
    destruct a as [|a]; simpl.
    + destruct b as [|b]; [reflexivity|]. simpl. now rewrite H1, IH.
    + now apply IH.
Qed.

Lemma numeric_chars_exp_text (x : Z) : numeric_chars (Repr.exp_text x) = true.
Proof.
  unfold Repr.exp_text. rewrite numeric_chars_app.
  pose proof (numeric_chars_int (Z.abs x)) as H.
  destruct (x <? 0)%Z; destruct (String.length _ <? 2)%nat; simpl; now rewrite H.
Qed.

Lemma numeric_chars_layout (ds : string) (point : Z) :
  numeric_chars ds = true -> numeric_chars (Repr.layout ds point) = true.
Proof.
  intros H. unfold Repr.layout.
  destruct (_ || _).
  - destruct ds as [|d rest]; [reflexivity|].
    simpl in H. apply andb_prop in H as [H1 H2].
    destruct rest as [|d' rest'].
    + simpl. now rewrite H1, numeric_chars_exp_text.
    + cbn [numeric_chars]. rewrite H1, numeric_chars_app, H2.
      cbn [numeric_chars]. now rewrite numeric_chars_exp_text.
  - destruct (point <=? 0)%Z.
    + cbn [String.append numeric_chars]. now rewrite numeric_chars_app, numeric_chars_zeros, H.
    + destruct (_ <=? _)%nat.
      * now rewrite !numeric_chars_app, H, numeric_chars_zeros.
      * rewrite numeric_chars_app. cbn [numeric_chars].
        now rewrite !numeric_chars_substring.
Qed.

Lemma numeric_chars_float (f : spec_float) : numeric_chars (Repr.float f) = true.
Proof.
  destruct f as [s|s| |s m e]; try (destruct s; reflexivity); try reflexivity.
  unfold Repr.float, Repr.shortest.
  destruct (Repr.search m e (Repr.decpt m e) 16 1) as [c t].
  rewrite numeric_chars_app, numeric_chars_layout.
  - destruct s; reflexivity.
  - apply numeric_chars_rev; [|reflexivity].
    apply numeric_chars_strip, numeric_chars_rev; [|reflexivity].
    apply numeric_chars_int.
Qed.

Lemma numeric_chars_no_nl (s : string) : numeric_chars s = true -> no_nl s = true.
Proof.
  induction s as [|a s IH]; simpl; [reflexivity|]. intros H.
  apply andb_prop in H as [H1 H2]. rewrite IH by exact H2.
  destruct (Ascii.eqb_spec a nl) as [->|]; [discriminate H1|].
  destruct (Ascii.eqb_spec a cr) as [->|]; [discriminate H1 | reflexivity].
Qed.

(** The text interpolated for a number contains no newline. *)
Lemma fmt_number_no_nl (v : pyval) : is_number v = true -> no_nl (fmt v) = true.
Proof.
  destruct v; try discriminate; intros _; apply numeric_chars_no_nl.
  - apply numeric_chars_int.
  - apply numeric_chars_float.
Qed.

(** * The parameter files, macro by macro *)

Lemma macros_of_app (start : string) (l1 l2 : list string) :
  macros_of start (l1 ++ l2) = (macros_of start l1 ++ macros_of start l2)%list.
Proof. unfold macros_of. now rewrite filter_app, map_app. Qed.

Lemma notice_defines_nothing : macros_of "#define " (map with_nl notice_lines) = [].
Proof. vm_compute. reflexivity. Qed.

Lemma notice_no_instrument :
  macros_of "#define MEASURE_" (map with_nl notice_lines) = [].
Proof. vm_compute. reflexivity. Qed.

Lemma param_lines_define (Tsteps steps spm beta tau parity : pyval) :
  macros_of "#define "
    (map with_nl (param_lines Tsteps steps spm beta tau parity)) =
  ["Tsteps"; "steps"; "stepsPerMeasurement"; "beta"; "tau"; "parity_cond"].
Proof. reflexivity. Qed.

Lemma param_lines_no_instrument (Tsteps steps spm beta tau parity : pyval) :
  macros_of "#define MEASURE_"
    (map with_nl (param_lines Tsteps steps spm beta tau parity)) = [].
Proof. reflexivity. Qed.

Lemma param_lines_no_nl (Tsteps steps spm beta tau parity : pyval) :
  is_number Tsteps = true -> is_number steps = true -> is_number spm = true ->
  is_number beta = true -> is_number tau = true -> is_number parity = true ->
  forallb no_nl (param_lines Tsteps steps spm beta tau parity) = true.
Proof.
  intros H1 H2 H3 H4 H5 H6.
  apply fmt_number_no_nl in H1, H2, H3, H4, H5, H6.
  unfold param_lines, line_Tsteps, line_steps, line_stepsPerMeasurement,
    line_beta, line_tau, line_parity.
  cbn [forallb]. rewrite !no_nl_app, H1, H2, H3, H4, H5, H6. reflexivity.
Qed.

Lemma numeric_dflt (d : pyval) (o : option pyval) :
  is_number d = true -> numeric o = true -> is_number (dflt d o) = true.
Proof. destruct o; simpl; auto. Qed.

Lemma keepends_nonempty (a : ascii) (s : string) : keepends (String a s) <> [].
Proof.
  cbn [keepends]. destruct (Ascii.eqb a nl); [discriminate|].
  destruct (keepends s); discriminate.
Qed.

Lemma keepends_app (a b : string) :
  ends_nl a = true -> keepends (a ++ b) = (keepends a ++ keepends b)%list.
Proof.
  induction a as [|x a IH]; [discriminate|].
  destruct a as [|y a'].
  - cbn [ends_nl]. intros H. apply Ascii.eqb_eq in H. subst x. reflexivity.
  - intros H. change (ends_nl (String x (String y a'))) with (ends_nl (String y a')) in H.
    specialize (IH H).
    change (String x (String y a') ++ b) with (String x (String y a' ++ b)).
    cbn [keepends] in *. destruct (Ascii.eqb x nl).
    + now rewrite IH.
    + rewrite IH. pose proof (keepends_nonempty y a') as Hn.
      cbn [keepends] in Hn.
      destruct (if Ascii.eqb y nl then _ else _) as [|l ls]; [congruence|].
      reflexivity.
Qed.

(** After a text that ends with a newline, the lines of what follows are
    read on their own. *)
Lemma readlines_app (a b : string) :
  ends_nl a = true -> no_cr a = true ->
  readlines (a ++ b) = (readlines a ++ readlines b)%list.
Proof.
  intros He Hc. unfold readlines.
  rewrite universal_app, (universal_no_cr a) by exact Hc.
  now apply keepends_app.
Qed.

(** The macros of a text that starts with the header. *)
Lemma header_then_macros (start : string)
    (beta tau Tsteps steps spm parity : pyval) (rest : string) :
  is_number Tsteps = true -> is_number steps = true -> is_number spm = true ->
  is_number beta = true -> is_number tau = true -> is_number parity = true ->
  macros_of start
    (readlines
       (make_param_file_header beta tau (Some Tsteps) (Some steps) (Some spm)
          (Some parity) ++ rest)) =
  (macros_of start (map with_nl notice_lines) ++
   macros_of start (map with_nl (param_lines Tsteps steps spm beta tau parity)) ++
   macros_of start (readlines rest))%list.
Proof.
  intros H1 H2 H3 H4 H5 H6.
  rewrite readlines_header by now apply param_lines_no_nl.
  now rewrite !macros_of_app.
Qed.

(** X10. The footer always defines [qmax], [Nbins],
    [EXHAUSTIVE_CYCLE_SEARCH], [GAPS_GEOMETRIC_PARAMETER] and
    [COMPOSITE_UPDATE_BREAK_PROBABILITY], never the two commented-out
    toggles; it defines the three save macros exactly when [save == True]
    and [RESUME_CALCULATION] exactly when [restart == True], each test
    independent of the other.  The tests are equalities: the integer 1
    enables a block as [True] does; an omitted [save] enables the save
    block, an omitted [restart] leaves the restart block out. *)
Theorem footer_defines (save restart : option pyval) :
  defines (make_param_file_footer save restart) =
  (footer_macros ++
   (if py_eq (dflt (VBool true) save) (VBool true) then save_macros else []) ++
   (if py_eq (dflt (VBool false) restart) (VBool true) then restart_macros
    else []))%list.
Proof.
  unfold make_param_file_footer.
  destruct (py_eq (dflt (VBool true) save) (VBool true));
    destruct (py_eq (dflt (VBool false) restart) (VBool true));
    vm_compute; reflexivity.
Qed.

Lemma footer_no_instrument (save restart : option pyval) :
  instruments (make_param_file_footer save restart) = [].
Proof.
  unfold make_param_file_footer.
  destruct (py_eq (dflt (VBool true) save) (VBool true));
    destruct (py_eq (dflt (VBool false) restart) (VBool true));
    vm_compute; reflexivity.
Qed.

Lemma footer_dflt (save restart : option pyval) :
  make_param_file_footer (Some (dflt (VBool true) save))
    (Some (dflt (VBool false) restart)) =
  make_param_file_footer save restart.
Proof. destruct save, restart; reflexivity. Qed.

(** The macros of a builder's text: those of the header, of the body, of
    the footer. *)
Lemma builder_macros (start : string) (beta tau Tsteps steps spm parity : pyval)
    (body footer : string) :
  is_number Tsteps = true -> is_number steps = true -> is_number spm = true ->
  is_number beta = true -> is_number tau = true -> is_number parity = true ->
  ends_nl body = true -> no_cr body = true ->
  macros_of start
    (readlines
       ((make_param_file_header beta tau (Some Tsteps) (Some steps) (Some spm)
           (Some parity) ++ body) ++ footer)) =
  (macros_of start (map with_nl notice_lines) ++
   macros_of start (map with_nl (param_lines Tsteps steps spm beta tau parity)) ++
   macros_of start (readlines body) ++
   macros_of start (readlines footer))%list.
Proof.
  intros H1 H2 H3 H4 H5 H6 Hb Hc.
  rewrite (append_assoc (make_param_file_header _ _ _ _ _ _)).
  rewrite header_then_macros by assumption.
  now rewrite readlines_app, macros_of_app by assumption.
Qed.

(** X11. For numeric arguments, the file built by
    [make_all_stand_param_fstr] declares exactly thirteen measurement
    instruments, the same for every choice of arguments, and defines, in
    this order, the six header parameters, the thirteen instruments and
    the macros of the footer. *)
Theorem all_stand_defines (beta tau : pyval)
    (Tsteps steps stepsPerMeasurement parity save restart : option pyval) :
  is_number beta = true -> is_number tau = true ->
  numeric Tsteps = true -> numeric steps = true ->
  numeric stepsPerMeasurement = true -> numeric parity = true ->
  let text :=
    make_all_stand_param_fstr beta tau Tsteps steps stepsPerMeasurement parity
      save restart in
  instruments text = all_instruments /\
  length (instruments text) = 13%nat /\
  defines text =
    (header_macros ++ all_instruments ++
     defines (make_param_file_footer save restart))%list.
Proof.
  intros Hb Ht HT Hs Hm Hp text. subst text.
  unfold make_all_stand_param_fstr. cbv zeta. rewrite footer_dflt.
  assert (forall start,
            macros_of start (readlines all_observables) = all_instruments ->
            macros_of start (map with_nl notice_lines) = [] ->
            (forall a b c d e f,
               macros_of start (map with_nl (param_lines a b c d e f)) =
               if String.eqb start "#define " then header_macros else []) ->
            macros_of start
              (readlines
                 ((make_param_file_header beta tau
                     (Some (dflt (VInt 10000000) Tsteps))
                     (Some (dflt (VInt 1000000) steps))
                     (Some (dflt (VInt 10) stepsPerMeasurement))
                     (Some (dflt (VInt 0) parity)) ++ all_observables) ++
                  make_param_file_footer save restart)) =
            ((if String.eqb start "#define " then header_macros else []) ++
             all_instruments ++
             macros_of start (readlines (make_param_file_footer save restart)))%list)
    as H.
  { intros start Hbody Hnotice Hparams.
    rewrite builder_macros by (auto using numeric_dflt).
    now rewrite Hbody, Hnotice, Hparams. }
  assert (instruments
            ((make_param_file_header beta tau
                (Some (dflt (VInt 10000000) Tsteps))
                (Some (dflt (VInt 1000000) steps))
                (Some (dflt (VInt 10) stepsPerMeasurement))
                (Some (dflt (VInt 0) parity)) ++ all_observables) ++
             make_param_file_footer save restart) = all_instruments) as Hi.
  { unfold instruments. rewrite H.
    - fold (instruments (make_param_file_footer save restart)).
      rewrite footer_no_instrument. reflexivity.
    - vm_compute. reflexivity.
    - exact notice_no_instrument.
    - intros. apply param_lines_no_instrument. }
  split; [exact Hi|]. split; [now rewrite Hi|].
  unfold defines. apply H.
  - vm_compute. reflexivity.
  - exact notice_defines_nothing.
  - intros. apply param_lines_define.
Qed.

Lemma all_stand_defines_witness :
  length
    (instruments
       (make_all_stand_param_fstr (VFloat (b64 false 4503599627370496 (-52)))
          (VFloat (b64 false 7205759403792794 (-56))) None None None None
          None None)) = 13%nat.
Proof.
  exact (proj1 (proj2 (all_stand_defines (VFloat (b64 false 4503599627370496 (-52)))
                         (VFloat (b64 false 7205759403792794 (-56)))
                         None None None None None None
                         eq_refl eq_refl eq_refl eq_refl eq_refl eq_refl))).
Defined.

Lemma py_is_True_iff (v : pyval) : py_is_True v = true <-> v = VBool true.
Proof.
  split; [|now intros ->].
  destruct v as [|[]| | |]; simpl; congruence.
Qed.

(** The macros of a susceptibility builder's text, for either family. *)
Lemma susceptibility_builder_macros (start : string)
    (beta Tsteps steps spm parity : pyval) (body fint footer : string)
    (flag : bool) :
  is_number Tsteps = true -> is_number steps = true -> is_number spm = true ->
  is_number beta = true -> is_number parity = true ->
  ends_nl body = true -> ends_nl (body ++ fint) = true ->
  no_cr body = true -> no_cr (body ++ fint) = true ->
  let header :=
    make_param_file_header beta (VFloat (S754_zero false)) (Some Tsteps)
      (Some steps) (Some spm) (Some parity) in
  macros_of start
    (readlines
       ((if flag then (header ++ body) ++ fint else header ++ body) ++ footer)) =
  (macros_of start (map with_nl notice_lines) ++
   macros_of start
     (map with_nl
        (param_lines Tsteps steps spm beta (VFloat (S754_zero false)) parity)) ++
   macros_of start (readlines (if flag then body ++ fint else body)) ++
   macros_of start (readlines footer))%list.
Proof.
  intros H1 H2 H3 H4 H6 Hb Hbf Hc Hcf header. subst header. destruct flag.
  - rewrite (append_assoc (make_param_file_header _ _ _ _ _ _) body fint).
    now apply builder_macros.
  - now apply builder_macros.
Qed.

(** X12. For numeric arguments, [make_hdiag_susceptibility_param_fstr]
    declares the instruments [MEASURE_HDIAG] and [MEASURE_HDIAG_EINT], and
    [MEASURE_HDIAG_FINT] after them exactly when [fidsus] is the Boolean
    [True] itself (given, or by default): the test is an identity, so
    with the integer 1, which equals [True], the line is left out.  The
    file defines the six header parameters, these instruments and the
    footer's macros, in this order.
    [make_hoffdiag_susceptibility_param_fstr] does the same with
    [MEASURE_HOFFDIAG], [MEASURE_HOFFDIAG_EINT] and
    [MEASURE_HOFFDIAG_FINT]. *)
Theorem susceptibility_builders_define (beta : pyval)
    (fidsus Tsteps steps stepsPerMeasurement parity save restart
       : option pyval) :
  is_number beta = true ->
  numeric Tsteps = true -> numeric steps = true ->
  numeric stepsPerMeasurement = true -> numeric parity = true ->
  let declares (text : string) (obs eint fint : string) :=
    instruments text =
      (if py_is_True (dflt (VBool true) fidsus) then [obs; eint; fint]
       else [obs; eint]) /\
    (In fint (instruments text) <-> dflt (VBool true) fidsus = VBool true) /\
    defines text =
      (header_macros ++ instruments text ++
       defines (make_param_file_footer save restart))%list in
  declares
    (make_hdiag_susceptibility_param_fstr beta fidsus Tsteps steps
       stepsPerMeasurement parity save restart)
    "MEASURE_HDIAG" "MEASURE_HDIAG_EINT" "MEASURE_HDIAG_FINT" /\
  declares
    (make_hoffdiag_susceptibility_param_fstr beta fidsus Tsteps steps
       stepsPerMeasurement parity save restart)
    "MEASURE_HOFFDIAG" "MEASURE_HOFFDIAG_EINT" "MEASURE_HOFFDIAG_FINT".
Proof.
  intros Hb HT Hs Hm Hp declares.
  assert (forall body fint obs eint name,
            ends_nl body = true -> ends_nl (body ++ fint) = true ->
            no_cr body = true -> no_cr (body ++ fint) = true ->
            (forall start, start = "#define " \/ start = "#define MEASURE_" ->
               macros_of start (readlines body) = [obs; eint] /\
               macros_of start (readlines (body ++ fint)) = [obs; eint; name]) ->
            name <> obs -> name <> eint ->
            declares
              ((if py_is_True (dflt (VBool true) fidsus)
                then (make_param_file_header beta (VFloat (S754_zero false))
                        (Some (dflt (VInt 100000) Tsteps))
                        (Some (dflt (VInt 1000000) steps))
                        (Some (dflt (VInt 10) stepsPerMeasurement))
                        (Some (dflt (VInt 0) parity)) ++ body) ++ fint
                else make_param_file_header beta (VFloat (S754_zero false))
                       (Some (dflt (VInt 100000) Tsteps))
                       (Some (dflt (VInt 1000000) steps))
                       (Some (dflt (VInt 10) stepsPerMeasurement))
                       (Some (dflt (VInt 0) parity)) ++ body) ++
               make_param_file_footer save restart)
              obs eint name) as H.
  { intros body fint obs eint name Hb1 Hb2 Hc1 Hc2 Hbody Hn1 Hn2.
    subst declares. cbv beta.
    assert (instruments
              ((if py_is_True (dflt (VBool true) fidsus)
                then (make_param_file_header beta (VFloat (S754_zero false))
                        (Some (dflt (VInt 100000) Tsteps))
                        (Some (dflt (VInt 1000000) steps))
                        (Some (dflt (VInt 10) stepsPerMeasurement))
                        (Some (dflt (VInt 0) parity)) ++ body) ++ fint
                else make_param_file_header beta (VFloat (S754_zero false))
                       (Some (dflt (VInt 100000) Tsteps))
                       (Some (dflt (VInt 1000000) steps))
                       (Some (dflt (VInt 10) stepsPerMeasurement))
                       (Some (dflt (VInt 0) parity)) ++ body) ++
               make_param_file_footer save restart) =
            (if py_is_True (dflt (VBool true) fidsus) then [obs; eint; name]
             else [obs; eint])) as Hi.
    { unfold instruments.
      rewrite susceptibility_builder_macros by (auto using numeric_dflt).
      rewrite notice_no_instrument, param_lines_no_instrument.
      fold (instruments (make_param_file_footer save restart)).
      rewrite footer_no_instrument, app_nil_r. cbn [app].
      destruct (Hbody "#define MEASURE_" (or_intror eq_refl)) as [E1 E2].
      destruct (py_is_True _); assumption. }
    split; [exact Hi|]. split.
    - rewrite Hi, <- py_is_True_iff.
      destruct (py_is_True _); simpl; split; auto; try discriminate.
      intros [E|[E|[]]]; congruence.
    - rewrite Hi. unfold defines.
      rewrite susceptibility_builder_macros by (auto using numeric_dflt).
      rewrite notice_defines_nothing, param_lines_define. cbn [app].
      destruct (Hbody "#define " (or_introl eq_refl)) as [E1 E2].
      destruct (py_is_True _); [rewrite E2 | rewrite E1]; reflexivity. }
  split.
  - unfold make_hdiag_susceptibility_param_fstr. cbv zeta. rewrite footer_dflt.
    apply H; try reflexivity; try discriminate.
    intros start [-> | ->]; split; vm_compute; reflexivity.
  - unfold make_hoffdiag_susceptibility_param_fstr. cbv zeta. rewrite footer_dflt.
    apply H; try reflexivity; try discriminate.
    intros start [-> | ->]; split; vm_compute; reflexivity.
Qed.

Lemma susceptibility_builders_define_witness :
  instruments
    (make_hdiag_susceptibility_param_fstr (VInt 2) (Some (VInt 1)) None None
       None None None None) =
  ["MEASURE_HDIAG"; "MEASURE_HDIAG_EINT"].
Proof.
  exact (proj1 (proj1 (susceptibility_builders_define (VInt 2) (Some (VInt 1))
                         None None None None None None
                         eq_refl eq_refl eq_refl eq_refl eq_refl))).
Defined.

(** X13. For numeric arguments, the file built by
    [make_no_stand_param_fstr] declares no measurement instrument at all:
    it defines the six header parameters and the footer's macros, and
    nothing else. *)
Theorem no_stand_defines (beta tau : pyval)
    (Tsteps steps stepsPerMeasurement parity save restart : option pyval) :
  is_number beta = true -> is_number tau = true ->
  numeric Tsteps = true -> numeric steps = true ->
  numeric stepsPerMeasurement = true -> numeric parity = true ->
  let text :=
    make_no_stand_param_fstr beta tau Tsteps steps stepsPerMeasurement parity
      save restart in
  instruments text = [] /\
  defines text =
    (header_macros ++ defines (make_param_file_footer save restart))%list.
Proof.
  intros Hb Ht HT Hs Hm Hp text. subst text.
  unfold make_no_stand_param_fstr. cbv zeta. rewrite footer_dflt.
  unfold instruments, defines.
  rewrite !header_then_macros by (auto using numeric_dflt).
  rewrite notice_no_instrument, param_lines_no_instrument,
    notice_defines_nothing, param_lines_define.
  fold (instruments (make_param_file_footer save restart)).
  now rewrite footer_no_instrument.
Qed.

Lemma no_stand_defines_witness :
  instruments
    (make_no_stand_param_fstr (VInt 2) (VFloat (b64 false 7205759403792794 (-56)))
       (Some (VInt 500)) None None None (Some (VBool false)) (Some (VInt 1))) = [].
Proof.
  exact (proj1 (no_stand_defines (VInt 2) (VFloat (b64 false 7205759403792794 (-56)))
                  (Some (VInt 500)) None None None (Some (VBool false)) (Some (VInt 1))
                  eq_refl eq_refl eq_refl eq_refl eq_refl eq_refl)).
Defined.

(** * The parameter lines of the header *)

Lemma notice_lines_length : length (map with_nl notice_lines) = 23%nat.
Proof. vm_compute. reflexivity. Qed.

Lemma at_23 (params rest : list string) :
  length params = 6%nat ->
  firstn 6 (skipn 23 (map with_nl notice_lines ++ params ++ rest)) = params.
Proof.
  intros H. rewrite skipn_app, notice_lines_length, Nat.sub_diag.
  rewrite skipn_all2 by (rewrite notice_lines_length; lia).
  cbn [app skipn]. rewrite firstn_app, H, Nat.sub_diag.
  change (firstn 0 rest) with (@nil string). rewrite app_nil_r.
  apply firstn_all2. lia.
Qed.

Lemma header_at_23 (beta tau Tsteps steps spm parity : pyval) (rest : string) :
  is_number Tsteps = true -> is_number steps = true -> is_number spm = true ->
  is_number beta = true -> is_number tau = true -> is_number parity = true ->
  firstn 6
    (skipn 23
       (readlines
          (make_param_file_header beta tau (Some Tsteps) (Some steps) (Some spm)
             (Some parity) ++ rest))) =
  map with_nl (param_lines Tsteps steps spm beta tau parity).
Proof.
  intros H1 H2 H3 H4 H5 H6.
  rewrite readlines_header by now apply param_lines_no_nl.
  now apply at_23.
Qed.

(** X14. For numeric arguments, lines 23 to 28 (counting from 0) of the
    text of every builder are the six parameter definitions, in the order
    [Tsteps], [steps], [stepsPerMeasurement], [beta], [tau],
    [parity_cond], each holding the text of the argument.  An omitted
    [Tsteps] is written as 100000 by the no-standard and the two
    susceptibility builders and as 10000000 by the all-standard builder;
    omitted [steps], [stepsPerMeasurement] and [parity] are written as
    1000000, 10 and 0.  The two susceptibility builders always write
    [tau] as [0.0]. *)
Theorem header_parameter_lines (beta tau : pyval)
    (fidsus Tsteps steps stepsPerMeasurement parity save restart
       : option pyval) :
  is_number beta = true -> is_number tau = true ->
  numeric Tsteps = true -> numeric steps = true ->
  numeric stepsPerMeasurement = true -> numeric parity = true ->
  let lines_23_28 (text : string) := firstn 6 (skipn 23 (readlines text)) in
  let params (Tsteps_default : Z) (tau : pyval) :=
    map with_nl
      (param_lines (dflt (VInt Tsteps_default) Tsteps)
         (dflt (VInt 1000000) steps) (dflt (VInt 10) stepsPerMeasurement)
         beta tau (dflt (VInt 0) parity)) in
  lines_23_28
    (make_no_stand_param_fstr beta tau Tsteps steps stepsPerMeasurement parity
       save restart) = params 100000%Z tau /\
  lines_23_28
    (make_hdiag_susceptibility_param_fstr beta fidsus Tsteps steps
       stepsPerMeasurement parity save restart) =
    params 100000%Z (VFloat (S754_zero false)) /\
  lines_23_28
    (make_hoffdiag_susceptibility_param_fstr beta fidsus Tsteps steps
       stepsPerMeasurement parity save restart) =
    params 100000%Z (VFloat (S754_zero false)) /\
  lines_23_28
    (make_all_stand_param_fstr beta tau Tsteps steps stepsPerMeasurement parity
       save restart) = params 10000000%Z tau.
Proof.
  intros Hb Ht HT Hs Hm Hp lines_23_28 params. subst lines_23_28 params.
  cbv beta.
  assert (is_number (VFloat (S754_zero false)) = true) as H0 by reflexivity.
  repeat split.
  - unfold make_no_stand_param_fstr. cbv zeta.
    apply header_at_23; auto using numeric_dflt.
  - unfold make_hdiag_susceptibility_param_fstr. cbv zeta.
    destruct (py_is_True _);
      rewrite !(append_assoc (make_param_file_header _ _ _ _ _ _));
      apply header_at_23; auto using numeric_dflt.
  - unfold make_hoffdiag_susceptibility_param_fstr. cbv zeta.
    destruct (py_is_True _);
      rewrite !(append_assoc (make_param_file_header _ _ _ _ _ _));
      apply header_at_23; auto using numeric_dflt.
  - unfold make_all_stand_param_fstr. cbv zeta.
    rewrite (append_assoc (make_param_file_header _ _ _ _ _ _)).
    apply header_at_23; auto using numeric_dflt.
Qed.

Lemma header_parameter_lines_witness :
  firstn 6
    (skipn 23
       (readlines
          (make_hdiag_susceptibility_param_fstr
             (VFloat (b64 false 6755399441055744 (-52))) None None None None
             None None None))) =
  map with_nl
    ["#define Tsteps 100000 // number of Monte-Carlo initial equilibration updates";
     "#define steps 1000000 // number of Monte-Carlo updates";
     "#define stepsPerMeasurement 10 // number of Monte-Carlo updates per measurement";
     "#define beta 1.5 // inverse temperature";
     "#define tau 0.0 //imaginary propogation time";
     "#define parity_cond 0 // controls parity subspace measurement "].
Proof.
  pose proof (proj1 (proj2 (header_parameter_lines
                              (VFloat (b64 false 6755399441055744 (-52)))
                              (VInt 0) None None None None None None None
                              eq_refl eq_refl eq_refl eq_refl eq_refl eq_refl)))
    as H.
  cbv beta zeta in H. rewrite H. vm_compute. reflexivity.
Defined.

(** * Decimal numerals *)

Lemma uval_bounds (d : Decimal.uint) :
  forall acc,
    (acc * 10 ^ Z.of_nat (Decimal.nb_digits d) <= uval acc d
     < (acc + 1) * 10 ^ Z.of_nat (Decimal.nb_digits d))%Z.
Proof.
  induction d; intros acc; cbn [uval Decimal.nb_digits];
    try (rewrite Nat2Z.inj_succ, Z.pow_succ_r by lia;
         match goal with
         | |- (_ <= uval ?a _ < _)%Z => specialize (IHd a)
         end;
         assert (0 < 10 ^ Z.of_nat (Decimal.nb_digits d))%Z
           by (apply Z.pow_pos_nonneg; lia);
         nia).
  simpl. lia.
Qed.

Lemma uval_of_uint_acc (d : Decimal.uint) :
  forall acc, Zpos (Pos.of_uint_acc d acc) = uval (Zpos acc) d.
Proof.
  induction d; intros acc; cbn [uval Pos.of_uint_acc];
    try reflexivity; rewrite IHd; f_equal; lia.
Qed.

Lemma uval_of_uint (d : Decimal.uint) : Z.of_N (Pos.of_uint d) = uval 0 d.
Proof.
  induction d; cbn [uval Pos.of_uint]; try reflexivity;
    try (cbn [Z.of_N]; rewrite uval_of_uint_acc; reflexivity).
  exact IHd.
Qed.

Lemma uval_to_uint (q : positive) : uval 0 (Pos.to_uint q) = Zpos q.
Proof. now rewrite <- uval_of_uint, DecimalPos.Unsigned.of_to. Qed.

Lemma string_of_uint_length (d : Decimal.uint) :
  String.length (NilEmpty.string_of_uint d) = Decimal.nb_digits d.
Proof. induction d; simpl; congruence. Qed.

Lemma string_of_uint_digits (d : Decimal.uint) :
  all_digits (NilEmpty.string_of_uint d) = true.
Proof. induction d; simpl; auto. Qed.

Lemma int_pos (q : positive) :
  Repr.int (Zpos q) = NilEmpty.string_of_uint (Pos.to_uint q).
Proof.
  unfold Repr.int. cbn [Z.to_int NilZero.string_of_int].
  unfold NilZero.string_of_uint.
  pose proof (DecimalPos.Unsigned.to_uint_nonnil q) as H.
  destruct (Pos.to_uint q); [congruence | reflexivity..].
Qed.

Lemma int_neg (q : positive) : Repr.int (Zneg q) = String "-" (Repr.int (Zpos q)).
Proof.
  rewrite int_pos. unfold Repr.int. cbn [Z.to_int NilZero.string_of_int].
  unfold NilZero.string_of_uint.
  pose proof (DecimalPos.Unsigned.to_uint_nonnil q) as H.
  destruct (Pos.to_uint q); [congruence | reflexivity..].
Qed.

Lemma int_nonneg_digits (z : Z) :
  (0 <= z)%Z -> all_digits (Repr.int z) = true /\ nonempty (Repr.int z) = true.
Proof.
  intros H. destruct z as [|q|q]; [split; reflexivity| |lia].
  rewrite int_pos. split; [apply string_of_uint_digits|].
  pose proof (DecimalPos.Unsigned.to_uint_nonnil q) as Hn.
  destruct (Pos.to_uint q); [congruence | reflexivity..].
Qed.

(** A positive number is written without a leading zero. *)
Lemma to_uint_leading (q : positive) :
  match Pos.to_uint q with
  | Decimal.Nil | Decimal.D0 _ => False
  | _ => True
  end.
Proof.
  pose proof (DecimalPos.Unsigned.to_of (Pos.to_uint q)) as H.
  rewrite DecimalPos.Unsigned.of_to in H. cbn [N.to_uint] in H.
  pose proof (DecimalPos.Unsigned.to_uint_nonzero q) as Hz.
  pose proof (DecimalPos.Unsigned.to_uint_nonnil q) as Hn.
  destruct (Pos.to_uint q) as [|l| | | | | | | | | ] eqn:E; auto.
  unfold Decimal.unorm in H. cbn [Decimal.nzhead] in H.
  pose proof (DecimalFacts.nb_digits_nzhead l) as Hl.
  destruct (Decimal.nzhead l) eqn:El; try discriminate H; try congruence.
  injection H as H'. rewrite <- H' in Hl. cbn [Decimal.nb_digits] in Hl. lia.
Qed.

(** The number of digits of a positive number. *)
Lemma ndigits_bounds (q : Z) :
  (1 <= q)%Z ->
  (1 <= Repr.ndigits q /\
   10 ^ (Repr.ndigits q - 1) <= q < 10 ^ Repr.ndigits q)%Z.
Proof.
  intros H. destruct q as [|q|q]; try lia.
  unfold Repr.ndigits. rewrite int_pos, string_of_uint_length.
  pose proof (uval_to_uint q) as Hv. pose proof (to_uint_leading q) as Hl.
  destruct (Pos.to_uint q) as [|l|l|l|l|l|l|l|l|l|l]; try contradiction;
    cbn [uval Decimal.nb_digits] in *;
    match type of Hv with
    | uval ?a _ = _ => pose proof (uval_bounds l a) as Hb
    end;
    rewrite Nat2Z.inj_succ;
    replace (Z.succ (Z.of_nat (Decimal.nb_digits l)) - 1)%Z
      with (Z.of_nat (Decimal.nb_digits l)) by lia;
    rewrite Z.pow_succ_r by lia;
    assert (0 < 10 ^ Z.of_nat (Decimal.nb_digits l))%Z
      by (apply Z.pow_pos_nonneg; lia);
    (split; [lia | nia]).
Qed.

(** * The digits [repr] finds *)

Lemma num_pos (m : positive) (e : Z) : (0 < Repr.num m e)%Z.
Proof.
  unfold Repr.num. apply Z.mul_pos_pos; [lia|]. apply Z.pow_pos_nonneg; lia.
Qed.

Lemma den_pos (e : Z) : (0 < Repr.den e)%Z.
Proof. unfold Repr.den. apply Z.pow_pos_nonneg; lia. Qed.

Lemma pow10_pos (t : Z) : (0 < 10 ^ Z.max t 0)%Z.
Proof. apply Z.pow_pos_nonneg; lia. Qed.

Lemma pow10_ge_1 (t : Z) : (1 <= 10 ^ Z.max t 0)%Z.
Proof. pose proof (pow10_pos t). lia. Qed.

Lemma at_least_pow10_mono (m : positive) (e t t' : Z) :
  (t' <= t)%Z -> at_least_pow10 m e t -> at_least_pow10 m e t'.
Proof.
  unfold at_least_pow10. intros Ht H.
  pose proof (num_pos m e) as Hn. pose proof (den_pos e) as Hd.
  assert (10 ^ Z.max t' 0 <= 10 ^ Z.max t 0)%Z as H1
    by (apply Z.pow_le_mono_r; lia).
  assert (10 ^ Z.max (- t) 0 <= 10 ^ Z.max (- t') 0)%Z as H2
    by (apply Z.pow_le_mono_r; lia).
  pose proof (pow10_pos t'). pose proof (pow10_pos (- t)).
  nia.
Qed.

(** [x >= 10^(k-1)] for the decimal point position [k] of [x]. *)
Lemma at_least_decpt (m : positive) (e : Z) :
  at_least_pow10 m e (Repr.decpt m e - 1).
Proof.
  unfold at_least_pow10, Repr.decpt.
  pose proof (num_pos m e) as Hn. pose proof (den_pos e) as Hd.
  set (n := Repr.num m e) in *. set (d := Repr.den e) in *.
  destruct (d <=? n)%Z eqn:E.
  - apply Z.leb_le in E.
    assert (1 <= n / d)%Z as Hq by (apply Z.div_le_lower_bound; lia).
    destruct (ndigits_bounds (n / d) Hq) as (H1 & H2 & _).
    rewrite Z.max_l, Z.max_r by lia. rewrite Z.pow_0_r, Z.mul_1_r.
    pose proof (Z.mul_div_le n d Hd). nia.
  - apply Z.leb_gt in E.
    assert (1 <= d / n)%Z as Hq by (apply Z.div_le_lower_bound; lia).
    destruct (ndigits_bounds (d / n) Hq) as (H1 & _ & H3).
    rewrite Z.max_r, Z.max_l by lia. rewrite Z.pow_0_r, Z.mul_1_r.
    replace (- (1 - Repr.ndigits (d / n) - 1))%Z with (Repr.ndigits (d / n)) by lia.
    pose proof (Z.div_mod d n ltac:(lia)) as Hdm.
    pose proof (Z.mod_pos_bound d n Hn). nia.
Qed.

Lemma candidates_ge_1 (m : positive) (e t : Z) :
  at_least_pow10 m e t ->
  (1 <= hd 0 (Repr.candidates m e t))%Z /\
  forall c, In c (Repr.candidates m e t) -> (1 <= c)%Z.
Proof.
  unfold at_least_pow10, Repr.candidates. intros H.
  set (n := (Repr.num m e * 10 ^ Z.max (- t) 0)%Z) in *.
  set (d := (Repr.den e * 10 ^ Z.max t 0)%Z) in *.
  assert (0 < d)%Z as Hd.
  { subst d. apply Z.mul_pos_pos; [apply den_pos | apply pow10_pos]. }
  assert (1 <= n / d)%Z as Hq by (apply Z.div_le_lower_bound; lia).
  cbv zeta.
  destruct (n mod d =? 0)%Z;
    [|destruct (2 * (n mod d) ?= d)%Z; [destruct (Z.even (n / d))| |]];
    (split; [simpl; lia | simpl; intros c Hc; lia]).
Qed.

Lemma search_ge_1 (m : positive) (e k : Z) (tries : nat) :
  at_least_pow10 m e (k - 1) ->
  forall n, (1 <= n)%Z -> (1 <= fst (Repr.search m e k tries n))%Z.
Proof.
  intros Hk. induction tries as [|tries IH]; intros n Hn; cbn [Repr.search].
  - cbn [fst]. apply candidates_ge_1.
    apply (at_least_pow10_mono m e (k - 1)); [lia | exact Hk].
  - destruct (find _ _) as [c|] eqn:E.
    + cbn [fst]. apply find_some in E. destruct E as [E _].
      eapply candidates_ge_1; [|exact E].
      apply (at_least_pow10_mono m e (k - 1)); [lia | exact Hk].
    + apply IH. lia.
Qed.

Lemma all_digits_app (a b : string) :
  all_digits (a ++ b) = all_digits a && all_digits b.
Proof.
  induction a as [|x a IH]; simpl; [reflexivity|]. now rewrite IH, andb_assoc.
Qed.

Lemma rev_str_app (s acc : string) :
  Repr.rev_str s acc = Repr.rev_str s "" ++ acc.
Proof.
  revert acc. induction s as [|a s IH]; intros acc; simpl; [reflexivity|].
  rewrite (IH (String a acc)), (IH (String a "")), (append_assoc (Repr.rev_str s "")).
  reflexivity.
Qed.

Lemma all_digits_rev (s acc : string) :
  all_digits s = true -> all_digits acc = true ->
  all_digits (Repr.rev_str s acc) = true.
Proof.
  revert acc. induction s as [|a s IH]; simpl; intros acc Hs Ha; [exact Ha|].
  apply andb_prop in Hs as [H1 H2]. apply IH; auto. simpl. now rewrite H1.
Qed.

Lemma all_digits_strip (s : string) :
  all_digits s = true -> all_digits (Repr.strip_zeros s) = true.
Proof.
  induction s as [|a s IH]; intros H; [reflexivity|].
  pose proof H as H'. simpl in H'. apply andb_prop in H' as [_ H2].
  unfold Repr.strip_zeros; fold Repr.strip_zeros.
  destruct (Ascii.eqb_spec a "0") as [->|Hn]; [now apply IH|].
  destruct a as [[] [] [] [] [] [] [] []]; try exact H; congruence.
Qed.

Lemma strip_keeps_nonzero (x y : string) (a : ascii) :
  a <> "0"%char -> nonempty (Repr.strip_zeros (x ++ String a y)) = true.
Proof.
  intros Ha. induction x as [|b x IH].
  - cbn [String.append]. unfold Repr.strip_zeros; fold Repr.strip_zeros.
    destruct a as [[] [] [] [] [] [] [] []]; try reflexivity; congruence.
  - cbn [String.append]. unfold Repr.strip_zeros; fold Repr.strip_zeros.
    destruct (Ascii.eqb_spec b "0") as [->|Hn]; [exact IH|].
    destruct b as [[] [] [] [] [] [] [] []]; try reflexivity; congruence.
Qed.

Lemma nonempty_rev (s acc : string) :
  nonempty s = true -> nonempty (Repr.rev_str s acc) = true.
Proof.
  destruct s as [|a s]; [discriminate|]. intros _. simpl.
  rewrite rev_str_app. destruct (Repr.rev_str s ""); reflexivity.
Qed.

(** A positive number is written with digits only, the first not 0. *)
Lemma int_leading (c : Z) :
  (1 <= c)%Z ->
  exists a s, Repr.int c = String a s /\ a <> "0"%char /\
              all_digits (String a s) = true.
Proof.
  intros H. destruct c as [|q|q]; try lia.
  destruct (int_nonneg_digits (Zpos q)) as [Hd _]; [lia|].
  rewrite int_pos in *. pose proof (to_uint_leading q) as Hl.
  destruct (Pos.to_uint q); try contradiction;
    cbn [NilEmpty.string_of_uint] in *; eexists _, _;
    (split; [reflexivity | split; [discriminate | exact Hd]]).
Qed.

(** The digits [repr] lays out: decimal digits, at least one. *)
Lemma shortest_digits (m : positive) (e : Z) :
  all_digits (fst (Repr.shortest m e)) = true /\
  nonempty (fst (Repr.shortest m e)) = true.
Proof.
  unfold Repr.shortest.
  pose proof (search_ge_1 m e (Repr.decpt m e) 16 (at_least_decpt m e) 1 ltac:(lia))
    as Hc.
  destruct (Repr.search m e (Repr.decpt m e) 16 1) as [c t]. cbn [fst] in *.
  destruct (int_leading c Hc) as (a & s & -> & Ha & Hd). split.
  - apply all_digits_rev; [|reflexivity].
    apply all_digits_strip, all_digits_rev; [exact Hd | reflexivity].
  - apply nonempty_rev. cbn [Repr.rev_str]. rewrite rev_str_app.
    now apply strip_keeps_nonzero.
Qed.

(** * The text of a finite number is a token *)

Lemma all_digits_zeros (n : nat) : all_digits (Repr.zeros n) = true.
Proof. induction n; simpl; auto. Qed.

Lemma all_digits_substring (s : string) :
  all_digits s = true -> forall a b, all_digits (substring a b s) = true.
Proof.
  induction s as [|x s IH]; intros H a b.
  - destruct a, b; reflexivity.
  - simpl in H. apply andb_prop in H as [H1 H2].
    destruct a as [|a]; simpl.
    + destruct b as [|b]; [reflexivity|]. simpl. now rewrite H1, IH.
    + now apply IH.
Qed.

Lemma nonempty_substring (s : string) :
  forall a b, (a < String.length s)%nat -> (1 <= b)%nat ->
              nonempty (substring a b s) = true.
Proof.
  induction s as [|x s IH]; intros a b Ha Hb; simpl in Ha; [lia|].
  destruct a as [|a]; simpl.
  - destruct b; [lia | reflexivity].
  - apply IH; lia.
Qed.

Lemma nonempty_app_l (a b : string) : nonempty a = true -> nonempty (a ++ b) = true.
Proof. destruct a; [discriminate | reflexivity]. Qed.

Lemma nonempty_app_r (a b : string) : nonempty b = true -> nonempty (a ++ b) = true.
Proof. destruct a; [now simpl | reflexivity]. Qed.

Lemma exp_text_shape (x : Z) :
  exists sg es, Repr.exp_text x = sg ++ es /\ is_sign sg /\
                all_digits es = true /\ nonempty es = true.
Proof.
  unfold Repr.exp_text.
  destruct (int_nonneg_digits (Z.abs x) (Z.abs_nonneg x)) as [Hd Hn].
  exists (if (x <? 0)%Z then "-" else "+"),
    (if (String.length (Repr.int (Z.abs x)) <? 2)%nat
     then "0" ++ Repr.int (Z.abs x) else Repr.int (Z.abs x)).
  split; [reflexivity|]. split.
  - unfold is_sign. destruct (x <? 0)%Z; auto.
  - destruct (_ <? 2)%nat; simpl; auto.
Qed.

Lemma exp_text_is_exp (x : Z) : is_exp (String "e" (Repr.exp_text x)).
Proof.
  destruct (exp_text_shape x) as (sg & es & -> & Hsg & Hd & Hn).
  right. exists "e"%char, sg, es. repeat split; auto.
Qed.

(** What [layout] writes: digits, then a fraction, an exponent, or both. *)
Lemma layout_shape (ds : string) (point : Z) :
  all_digits ds = true -> nonempty ds = true ->
  exists ip fr ex,
    Repr.layout ds point = ip ++ fr ++ ex /\
    all_digits ip = true /\ nonempty ip = true /\ is_frac fr /\ is_exp ex.
Proof.
  intros Hd Hn. unfold Repr.layout.
  destruct (_ || _).
  - destruct ds as [|d rest]; [discriminate|].
    simpl in Hd. apply andb_prop in Hd as [H1 H2].
    destruct rest as [|d' rest'].
    + exists (String d ""), "", (String "e" (Repr.exp_text (point - 1))).
      repeat split; auto.
      * simpl. now rewrite H1.
      * now left.
      * apply exp_text_is_exp.
    + exists (String d ""), (String "." (String d' rest')),
        (String "e" (Repr.exp_text (point - 1))).
      repeat split; auto.
      * simpl. now rewrite H1.
      * right. exists (String d' rest'). auto.
      * apply exp_text_is_exp.
  - destruct (point <=? 0)%Z eqn:Ep.
    + exists "0", (String "." (Repr.zeros (Z.to_nat (- point)) ++ ds)), "".
      repeat split; auto.
      * cbn [String.append]. now rewrite append_nil_r.
      * right. eexists. split; [reflexivity|]. split.
        -- now rewrite all_digits_app, all_digits_zeros, Hd.
        -- now apply nonempty_app_r.
      * now left.
    + apply Z.leb_gt in Ep.
      destruct (String.length ds <=? Z.to_nat point)%nat eqn:El.
      * exists (ds ++ Repr.zeros (Z.to_nat point - String.length ds)), ".0", "".
        repeat split; auto.
        -- now rewrite (append_assoc ds).
        -- now rewrite all_digits_app, all_digits_zeros, Hd.
        -- now apply nonempty_app_l.
        -- right. exists "0". auto.
        -- now left.
      * apply Nat.leb_gt in El.
        exists (substring 0 (Z.to_nat point) ds),
          (String "." (substring (Z.to_nat point)
                         (String.length ds - Z.to_nat point) ds)), "".
        repeat split; auto.
        -- cbn [String.append]. now rewrite append_nil_r.
        -- now apply all_digits_substring.
        -- apply nonempty_substring; lia.
        -- right. eexists. split; [reflexivity|]. split.
           ++ now apply all_digits_substring.
           ++ apply nonempty_substring; lia.
        -- now left.
Qed.

(** The text of a finite number follows the grammar of the pattern. *)
Theorem fmt_finite_decimal (v : pyval) :
  is_finite v = true -> decimal_text (fmt v).
Proof.
  destruct v as [| |z|f|]; try discriminate; intros H.
  - assert (forall q, decimal_text (Repr.int (Zpos q))) as Hp.
    { intros q. destruct (int_nonneg_digits (Zpos q)) as [Hd Hn]; [lia|].
      exists "", (Repr.int (Zpos q)), "", "".
      repeat split; auto; try (now left).
      - cbn [String.append]. now rewrite !append_nil_r.
      - now rewrite append_nil_r. }
    destruct z as [|q|q]; cbn [fmt].
    + exists "", "0", "", "". repeat split; auto; now left.
    + apply Hp.
    + rewrite int_neg.
      destruct (int_nonneg_digits (Zpos q)) as [Hd Hn]; [lia|].
      exists "-", (Repr.int (Zpos q)), "", "".
      repeat split; auto; try (now left).
      * cbn [String.append]. now rewrite !append_nil_r.
      * right. now left.
      * now rewrite append_nil_r.
  - destruct f as [s|s| |s m e]; try discriminate.
    + exists (if s then "-" else ""), "0", ".0", "".
      repeat split; auto.
      * destruct s; reflexivity.
      * unfold is_sign. destruct s; auto.
      * right. exists "0". auto.
      * now left.
    + cbn [fmt Repr.float].
      destruct (shortest_digits m e) as [Hd Hn].
      destruct (Repr.shortest m e) as [ds point]. cbn [fst] in *.
      destruct (layout_shape ds point Hd Hn) as (ip & fr & ex & -> & Hi & Hni & Hf & He).
      exists (if s then "-" else ""), ip, fr, ex.
      repeat split; auto.
      * unfold is_sign. destruct s; auto.
      * now apply nonempty_app_l.
Qed.

(** * The scanner takes a whole number *)

Lemma stops_starts_digit (rest : string) : stops rest = true -> starts_digit rest = false.
Proof.
  destruct rest as [|a r]; [reflexivity|]. simpl.
  destruct (is_digit a); [discriminate | reflexivity].
Qed.

Lemma scan_exp_complete (ex rest : string) :
  is_exp ex -> stops rest = true -> Scan.exp (ex ++ rest) = rest.
Proof.
  intros [->|(c & sg & es & -> & Hc & Hsg & Hd & Hn)] Hr.
  - cbn [String.append]. unfold Scan.exp.
    destruct rest as [|a r]; [reflexivity|].
    simpl in Hr. destruct (mem_char a "eE") eqn:Ha; [|reflexivity].
    exfalso. simpl in Ha. apply negb_true_iff, orb_false_iff in Hr.
    destruct Hr as [_ Hr]. simpl in Hr.
    destruct (Ascii.eqb a "."); [discriminate|].
    rewrite Ha in Hr. discriminate.
  - cbn [String.append]. unfold Scan.exp. rewrite Hc.
    rewrite (append_assoc sg es rest).
    assert (match sg ++ es ++ rest with
            | String g r' => if mem_char g "-+" then r' else sg ++ es ++ rest
            | EmptyString => sg ++ es ++ rest
            end = es ++ rest) as ->.
    { destruct Hsg as [->|[->| ->]]; try reflexivity.
      cbn [String.append]. destruct es as [|a es']; [discriminate|].
      cbn [String.append]. simpl in Hd. apply andb_prop in Hd as [Ha _].
      destruct a as [[] [] [] [] [] [] [] []]; try discriminate; reflexivity. }
    rewrite span_digits_app by (auto using stops_starts_digit).
    now rewrite Hn.
Qed.

Lemma is_exp_app_starts (ex rest : string) :
  is_exp ex -> stops rest = true -> starts_digit (ex ++ rest) = false.
Proof.
  intros [->|(c & sg & es & -> & Hc & _)] Hr.
  - now apply stops_starts_digit.
  - simpl. destruct (mem_eE c Hc); subst; reflexivity.
Qed.

(** The first character of an exponent, or of what stops a number, is
    not a point. *)
Lemma after_whole (ds ex rest : string) :
  is_exp ex -> stops rest = true ->
  match ex ++ rest with
  | String c r' =>
      if Ascii.eqb c "." then
        let '(fs, r'') := Float.span_digits r' in
        if nonempty fs then Some r''
        else if nonempty ds then Some (ex ++ rest) else None
      else if nonempty ds then Some (ex ++ rest) else None
  | EmptyString => if nonempty ds then Some (ex ++ rest) else None
  end = if nonempty ds then Some (ex ++ rest) else None.
Proof.
  intros Hex Hr.
  destruct (ex ++ rest) as [|c r'] eqn:E; [reflexivity|].
  assert (Ascii.eqb c "." = false) as ->; [|reflexivity].
  destruct Hex as [->|(c' & sg & es & -> & Hc & _)].
  - cbn [String.append] in E. subst rest. simpl in Hr.
    apply negb_true_iff, orb_false_iff in Hr. destruct Hr as [_ Hr].
    simpl in Hr. destruct (Ascii.eqb c "."); [discriminate | reflexivity].
  - cbn [String.append] in E. injection E as <- _.
    destruct (mem_eE c' Hc); subst; reflexivity.
Qed.

Lemma scan_unsigned_complete (ds fr ex rest : string) :
  all_digits ds = true -> is_frac fr -> is_exp ex ->
  nonempty (ds ++ fr) = true -> stops rest = true ->
  Scan.unsigned (ds ++ fr ++ ex ++ rest) = Some rest.
Proof.
  intros Hd Hf Hex Hn Hr. unfold Scan.unsigned, Scan.mantissa.
  destruct Hf as [->|(fs & -> & Hfs & Hnf)].
  - cbn [String.append]. rewrite append_nil_r in Hn.
    rewrite span_digits_app by (auto using is_exp_app_starts).
    rewrite (after_whole ds ex rest Hex Hr), Hn. cbn [option_map].
    now rewrite scan_exp_complete.
  - cbn [String.append].
    rewrite span_digits_app by auto.
    cbn [Ascii.eqb Bool.eqb]. cbv iota.
    rewrite span_digits_app by (auto using is_exp_app_starts).
    rewrite Hnf. cbn [option_map]. now rewrite scan_exp_complete.
Qed.

(** Followed by something that cannot continue a number, the text of a
    decimal number is one token, taken whole. *)
Theorem scan_token_complete (w rest : string) :
  decimal_text w -> stops rest = true -> Scan.token (w ++ rest) = Some rest.
Proof.
  intros (sg & ds & fr & ex & -> & Hsg & Hd & Hf & Hex & Hn) Hr.
  rewrite (append_assoc sg), (append_assoc ds), (append_assoc fr).
  pose proof (scan_unsigned_complete ds fr ex rest Hd Hf Hex Hn Hr) as Hu.
  unfold Scan.token, Scan.number.
  destruct Hsg as [->|[->| ->]]; cbn [String.append].
  - destruct (ds ++ fr ++ ex ++ rest) as [|a s1] eqn:E.
    + exfalso. destruct ds; [destruct Hf as [->|(fs & -> & _)]|]; discriminate.
    + assert (mem_char a "-+" = false) as ->; [|now rewrite Hu].
      destruct ds as [|d ds'].
      * destruct Hf as [->|(fs & -> & _)]; [discriminate|].
        cbn [String.append] in E. injection E as <- _. reflexivity.
      * cbn [String.append] in E. injection E as <- _.
        simpl in Hd. apply andb_prop in Hd as [Ha _].
        destruct d as [[] [] [] [] [] [] [] []]; try discriminate; reflexivity.
  - cbn [mem_char Ascii.eqb Bool.eqb orb]. now rewrite Hu.
  - cbn [mem_char Ascii.eqb Bool.eqb orb]. now rewrite Hu.
Qed.

(** * Reading the header back *)

Lemma no_token_inert (a : ascii) (s : string) :
  Ascii.eqb a "n" = false -> is_digit a || mem_char a "+-." = false ->
  Scan.token (String a s) = None.
Proof.
  intros Hn H. apply orb_false_iff in H as [Hd Hm].
  unfold Scan.token, Scan.number.
  assert (mem_char a "-+" = false) as ->.
  { simpl in *. destruct (Ascii.eqb a "+"), (Ascii.eqb a "-"); simpl in *; congruence. }
  assert (Ascii.eqb a "." = false) as Hp.
  { simpl in Hm. destruct (Ascii.eqb a "+"), (Ascii.eqb a "-"), (Ascii.eqb a ".");
      simpl in *; congruence. }
  unfold Scan.unsigned, Scan.mantissa. cbn [Float.span_digits].
  rewrite Hd, Hp. cbn [nonempty option_map lit_prefix].
  rewrite Ascii.eqb_sym, Hn. reflexivity.
Qed.

Lemma no_token_n (b : ascii) (s : string) :
  Ascii.eqb b "a" = false -> Scan.token (String "n" (String b s)) = None.
Proof.
  intros Hb. unfold Scan.token, Scan.number, Scan.unsigned, Scan.mantissa.
  cbn. rewrite Ascii.eqb_sym in Hb.
  change (Ascii.eqb "a" b) with
    (let (b0, b1, b2, b3, b4, b5, b6, b7) := b in
     Bool.eqb true b0 && Bool.eqb false b1 && Bool.eqb false b2 &&
     Bool.eqb false b3 && Bool.eqb false b4 && Bool.eqb true b5 &&
     Bool.eqb true b6 && Bool.eqb false b7) in Hb.
  destruct b as [[] [] [] [] [] [] [] []]; try reflexivity; discriminate Hb.
Qed.

(** The scan passes over a quiet prefix. *)
Lemma findall_quiet (pre s : string) :
  quiet pre = true -> findall p (pre ++ s) = findall p s.
Proof.
  induction pre as [|a pre IH]; [reflexivity|].
  cbn [quiet]. intros H. apply andb_prop in H as [Ha Hq].
  cbn [String.append]. rewrite findall_no_token; [now apply IH|].
  destruct (Ascii.eqb a "n") eqn:En.
  - apply Ascii.eqb_eq in En. subst a.
    destruct pre as [|b pre']; [discriminate|].
    cbn [String.append]. apply no_token_n. now apply negb_true_iff.
  - apply no_token_inert; [exact En | now apply negb_true_iff].
Qed.

(** A quiet prefix, then the text of a number, then something that
    cannot continue it: the number is the first token, taken whole. *)
Lemma findall_field (pre w suf : string) :
  quiet pre = true -> decimal_text w -> stops suf = true ->
  findall p (pre ++ w ++ suf) = w :: findall p suf.
Proof.
  intros Hq Hw Hs. rewrite findall_quiet by exact Hq.
  apply findall_token.
  - apply token_text_nonempty. now right.
  - now apply scan_token_complete.
Qed.

(** Each parameter line holds one token: the text of its value. *)
Lemma findall_param_lines (Tsteps steps spm beta tau parity : pyval) :
  is_finite Tsteps = true -> is_finite steps = true -> is_finite spm = true ->
  is_finite beta = true -> is_finite tau = true -> is_finite parity = true ->
  map (findall p) (map with_nl (param_lines Tsteps steps spm beta tau parity)) =
  [[fmt Tsteps]; [fmt steps]; [fmt spm]; [fmt beta]; [fmt tau]; [fmt parity]].
Proof.
  intros H1 H2 H3 H4 H5 H6.
  apply fmt_finite_decimal in H1, H2, H3, H4, H5, H6.
  unfold param_lines, line_Tsteps, line_steps, line_stepsPerMeasurement,
    line_beta, line_tau, line_parity, with_nl.
  cbn [map].
  repeat match goal with
         | |- context [((?pre ++ fmt ?v ++ ?suf) ++ ?n)%string] =>
             replace ((pre ++ fmt v ++ suf) ++ n)%string
               with (pre ++ fmt v ++ (suf ++ n))%string
               by (now rewrite (append_assoc pre), (append_assoc (fmt v)));
             rewrite (findall_field pre (fmt v) (suf ++ n))
               by (reflexivity || assumption)
         end.
  reflexivity.
Qed.

Lemma is_finite_number (v : pyval) : is_finite v = true -> is_number v = true.
Proof. destruct v as [| | |f|]; try discriminate; auto. Qed.

Lemma finite_dflt (d : pyval) (o : option pyval) :
  is_finite d = true -> finite o = true -> is_finite (dflt d o) = true.
Proof. destruct o; simpl; auto. Qed.

(** The tokens of lines 23 to 28 of a text that starts with the header. *)
Lemma header_read_back (beta tau Tsteps steps spm parity : pyval) (rest : string) :
  is_finite Tsteps = true -> is_finite steps = true -> is_finite spm = true ->
  is_finite beta = true -> is_finite tau = true -> is_finite parity = true ->
  map (findall p)
    (firstn 6
       (skipn 23
          (readlines
             (make_param_file_header beta tau (Some Tsteps) (Some steps)
                (Some spm) (Some parity) ++ rest)))) =
  [[fmt Tsteps]; [fmt steps]; [fmt spm]; [fmt beta]; [fmt tau]; [fmt parity]].
Proof.
  intros H1 H2 H3 H4 H5 H6.
  rewrite header_at_23 by now apply is_finite_number.
  now apply findall_param_lines.
Qed.

(** X15. Build, then extract.  For finite numeric arguments, applying
    [findall] with the pattern to lines 23 to 28 of the text of any
    builder returns, for each line, exactly one token: the text written
    for [Tsteps], [steps], [stepsPerMeasurement], [beta], [tau] and
    [parity], in this order (defaults and the susceptibility builders'
    [tau = 0.0] included); nothing of the surrounding text is picked up,
    nothing of the number is cut off, and [float] accepts each token. *)
Theorem header_fields_read_back (beta tau : pyval)
    (fidsus Tsteps steps stepsPerMeasurement parity save restart
       : option pyval) :
  is_finite beta = true -> is_finite tau = true ->
  finite Tsteps = true -> finite steps = true ->
  finite stepsPerMeasurement = true -> finite parity = true ->
  let extracted (text : string) :=
    map (findall p) (firstn 6 (skipn 23 (readlines text))) in
  let fields (Tsteps_default : Z) (tau : pyval) :=
    [[fmt (dflt (VInt Tsteps_default) Tsteps)];
     [fmt (dflt (VInt 1000000) steps)];
     [fmt (dflt (VInt 10) stepsPerMeasurement)];
     [fmt beta]; [fmt tau]; [fmt (dflt (VInt 0) parity)]] in
  (extracted
     (make_no_stand_param_fstr beta tau Tsteps steps stepsPerMeasurement parity
        save restart) = fields 100000%Z tau /\
   extracted
     (make_hdiag_susceptibility_param_fstr beta fidsus Tsteps steps
        stepsPerMeasurement parity save restart) =
     fields 100000%Z (VFloat (S754_zero false)) /\
   extracted
     (make_hoffdiag_susceptibility_param_fstr beta fidsus Tsteps steps
        stepsPerMeasurement parity save restart) =
     fields 100000%Z (VFloat (S754_zero false)) /\
   extracted
     (make_all_stand_param_fstr beta tau Tsteps steps stepsPerMeasurement parity
        save restart) = fields 10000000%Z tau) /\
  (forall Td t w, In [w] (fields Td t) -> is_finite t = true ->
                  exists x, Float.float w = Ok x).
Proof.
  intros Hb Ht HT Hs Hm Hp extracted fields. subst extracted fields.
  cbv beta.
  assert (is_finite (VFloat (S754_zero false)) = true) as H0 by reflexivity.
  split; [repeat split|].
  - unfold make_no_stand_param_fstr. cbv zeta.
    apply header_read_back; auto using finite_dflt.
  - unfold make_hdiag_susceptibility_param_fstr. cbv zeta.
    destruct (py_is_True _);
      rewrite !(append_assoc (make_param_file_header _ _ _ _ _ _));
      apply header_read_back; auto using finite_dflt.
  - unfold make_hoffdiag_susceptibility_param_fstr. cbv zeta.
    destruct (py_is_True _);
      rewrite !(append_assoc (make_param_file_header _ _ _ _ _ _));
      apply header_read_back; auto using finite_dflt.
  - unfold make_all_stand_param_fstr. cbv zeta.
    rewrite (append_assoc (make_param_file_header _ _ _ _ _ _)).
    apply header_read_back; auto using finite_dflt.
  - intros Td t w Hin Hfin.
    assert (exists v, is_finite v = true /\ w = fmt v) as (v & Hv & ->).
    { cbn [In] in Hin.
      destruct Hin as [E|[E|[E|[E|[E|[E|[]]]]]]]; injection E as <-;
        eexists; (split; [|reflexivity]); auto using finite_dflt. }
    apply float_token_ok. right. now apply fmt_finite_decimal.
Qed.

Lemma header_fields_read_back_witness :
  map (findall p)
    (firstn 6
       (skipn 23
          (readlines
             (make_all_stand_param_fstr
                (VFloat (b64 false 6755399441055744 (-52)))
                (VFloat (b64 true 6044629098073146 (-79)))
                None (Some (VInt 2000)) None None None None)))) =
  [["10000000"]; ["2000"]; ["10"]; ["1.5"]; ["-1e-08"]; ["0"]].
Proof.
  pose proof (proj2 (proj2 (proj2 (proj1 (header_fields_read_back
                (VFloat (b64 false 6755399441055744 (-52)))
                (VFloat (b64 true 6044629098073146 (-79)))
                None None (Some (VInt 2000)) None None None None
                eq_refl eq_refl eq_refl eq_refl eq_refl eq_refl))))) as H.
  cbv beta zeta in H. rewrite H. vm_compute. reflexivity.
Defined.
